(** * alloy_migrator: the Promtail -> Alloy translation engine

    A shallow embedding of [PromtailToAlloyMigrator] and
    [NodeExporterToAlloyMigrator] (src/alloy_migrator/__init__.py) and the
    properties of the component graph builder, stage translator, value
    formatter and unit-file parser.

    Scope of the embedding.  The migrator receives the output of
    [yaml.safe_load]; the embedding covers documents built from null,
    booleans, integers, strings, lists and mappings whose keys are scalars.
    Floats, timestamps and binary scalars are left out.  A Python [str] is
    modelled as a Rocq [string] whose characters are the code points below
    256.  Python exceptions are modelled by the [Err] results of an error
    monad; the builder's mutable attributes ([alloy_components],
    [component_counter]) are threaded through a state monad. *)

From Stdlib Require Import String Ascii List ZArith Lia Bool Arith.
From Stdlib Require Import DecimalString DecimalNat.
Import ListNotations.
Open Scope string_scope.

(** ** Python values *)

Module Py.

(** Hashable scalars, the keys of a mapping. *)
Inductive key :=
| KStr (s : string)
| KInt (z : Z)
| KBool (b : bool)
| KNull.

#[warnings="-register-all"] Inductive value :=
| VNull
| VBool (b : bool)
| VInt (z : Z)
| VStr (s : string)
| VList (l : list value)
| VDict (d : list (key * value)).

(** A [dict] keeps insertion order: an association list. *)
Definition dict := list (key * value).

Inductive exn :=
| KeyError (k : string)
| TypeError
| AttributeError
| ValueError.

Inductive result (A : Type) :=
| Ok (a : A)
| Err (e : exn).
Arguments Ok {A} a.
Arguments Err {A} e.

Definition bind {A B} (m : result A) (f : A -> result B) : result B :=
  match m with
  | Ok a => f a
  | Err e => Err e
  end.

Declare Scope py_scope.
Delimit Scope py_scope with py.
Notation "x <- m ;; k" := (bind m (fun x => k))
  (at level 61, m at next level, right associativity) : py_scope.
Open Scope py_scope.

Section MapM.
Context {A B : Type} (f : A -> result B).
Fixpoint mapM (l : list A) : result (list B) :=
  match l with
  | [] => Ok []
  | a :: l' => b <- f a ;; bs <- mapM l' ;; Ok (b :: bs)
  end.
End MapM.

(** *** Characters and strings *)

Definition dquote : string := String "034"%char EmptyString.
Definition newline : string := String "010"%char EmptyString.
Definition backslash : string := String "092"%char EmptyString.

(** [sep.join(parts)] *)
Definition join (sep : string) (parts : list string) : string :=
  String.concat sep parts.

(** [l.append(a)] and [l.extend(m)] *)
Definition append {A} (l : list A) (a : A) : list A := (l ++ [a])%list.
Definition extend {A} (l m : list A) : list A := (l ++ m)%list.

(** [' ' * n] *)
Fixpoint spaces (n : nat) : string :=
  match n with
  | O => EmptyString
  | S n' => String " "%char (spaces n')
  end.

(** [s.startswith(p)] *)
Definition startswith (p s : string) : bool := String.prefix p s.

(** [k in s] for strings: substring test. *)
Fixpoint substring_of (k s : string) : bool :=
  String.prefix k s ||
  match s with
  | EmptyString => false
  | String _ s' => substring_of k s'
  end.

Definition str_of_nat (n : nat) : string :=
  NilEmpty.string_of_uint (Nat.to_uint n).

(** [str(z)] for an [int]. *)
Definition str_of_Z (z : Z) : string :=
  NilZero.string_of_int (Z.to_int z).

Definition hex_digit (n : nat) : ascii :=
  if (n <? 10)%nat then ascii_of_nat (48 + n) else ascii_of_nat (87 + n).

(** Two lower-case hexadecimal digits of a code point below 256. *)
Definition hex2 (c : ascii) : string :=
  let n := nat_of_ascii c in
  String (hex_digit (n / 16)) (String (hex_digit (n mod 16)) EmptyString).

Definition char_in (lo hi : nat) (c : ascii) : bool :=
  let n := nat_of_ascii c in ((lo <=? n) && (n <=? hi))%nat.

Definition flat_chars (f : ascii -> string) (s : string) : string :=
  String.concat EmptyString (map f (list_ascii_of_string s)).

(** *** [json.dumps] (default [ensure_ascii=True], default separators)

    On the values of the embedding [json.dumps] always returns.  On the
    values left out of it (dates, binary scalars, sets) Python raises
    [TypeError]; no statement of this file is about such documents. *)

Definition json_escape_char (c : ascii) : string :=
  let n := nat_of_ascii c in
  if (n =? 34)%nat then backslash ++ dquote
  else if (n =? 92)%nat then backslash ++ backslash
  else if (n =? 10)%nat then backslash ++ "n"
  else if (n =? 13)%nat then backslash ++ "r"
  else if (n =? 9)%nat then backslash ++ "t"
  else if (n =? 8)%nat then backslash ++ "b"
  else if (n =? 12)%nat then backslash ++ "f"
  else if char_in 32 126 c then String c EmptyString
  else backslash ++ "u00" ++ hex2 c.

Definition json_string (s : string) : string :=
  dquote ++ flat_chars json_escape_char s ++ dquote.

(** Keys that are not strings are coerced the way [json.dumps] does. *)
Definition json_key (k : key) : string :=
  match k with
  | KStr s => json_string s
  | KInt z => dquote ++ str_of_Z z ++ dquote
  | KBool true => dquote ++ "true" ++ dquote
  | KBool false => dquote ++ "false" ++ dquote
  | KNull => dquote ++ "null" ++ dquote
  end.

Fixpoint json_dumps (v : value) : string :=
  match v with
  | VNull => "null"
  | VBool true => "true"
  | VBool false => "false"
  | VInt z => str_of_Z z
  | VStr s => json_string s
  | VList l => "[" ++ join ", " (map json_dumps l) ++ "]"
  | VDict d =>
      "{" ++ join ", " (map (fun kv => json_key (fst kv) ++ ": " ++ json_dumps (snd kv)) d) ++ "}"
  end.

(** *** [str()] and [repr()], as used by f-strings *)

Definition has_char (n : nat) (s : string) : bool :=
  existsb (fun c => (nat_of_ascii c =? n)%nat) (list_ascii_of_string s).

(** Latin-1 code points that [str.isprintable] rejects. *)
Definition unprintable (c : ascii) : bool :=
  let n := nat_of_ascii c in
  (n <? 32)%nat || (n =? 127)%nat || char_in 128 160 c || (n =? 173)%nat.

Definition repr_char (quote : nat) (c : ascii) : string :=
  let n := nat_of_ascii c in
  if (n =? quote)%nat || (n =? 92)%nat then backslash ++ String c EmptyString
  else if (n =? 9)%nat then backslash ++ "t"
  else if (n =? 10)%nat then backslash ++ "n"
  else if (n =? 13)%nat then backslash ++ "r"
  else if unprintable c then backslash ++ "x" ++ hex2 c
  else String c EmptyString.

(** [repr(s)]: single quotes, unless [s] holds a single quote and no
    double quote. *)
Definition repr_str (s : string) : string :=
  let quote := if has_char 39 s && negb (has_char 34 s) then 34 else 39 in
  let q := String (ascii_of_nat quote) EmptyString in
  q ++ flat_chars (repr_char quote) s ++ q.

Definition key_repr (k : key) : string :=
  match k with
  | KStr s => repr_str s
  | KInt z => str_of_Z z
  | KBool true => "True"
  | KBool false => "False"
  | KNull => "None"
  end.

Fixpoint py_repr (v : value) : string :=
  match v with
  | VNull => "None"
  | VBool true => "True"
  | VBool false => "False"
  | VInt z => str_of_Z z
  | VStr s => repr_str s
  | VList l => "[" ++ join ", " (map py_repr l) ++ "]"
  | VDict d =>
      "{" ++ join ", " (map (fun kv => key_repr (fst kv) ++ ": " ++ py_repr (snd kv)) d) ++ "}"
  end.

(** [f"{v}"] *)
Definition py_str (v : value) : string :=
  match v with
  | VStr s => s
  | _ => py_repr v
  end.

Definition key_str (k : key) : string :=
  match k with
  | KStr s => s
  | _ => key_repr k
  end.

(** *** Mappings *)

(** The key, seen as the value an iteration over the mapping yields. *)
Definition key_value (k : key) : value :=
  match k with
  | KStr s => VStr s
  | KInt z => VInt z
  | KBool b => VBool b
  | KNull => VNull
  end.

(** [x == "k"] for a key [x]. *)
Definition key_is (k : string) (x : key) : bool :=
  match x with
  | KStr s => String.eqb s k
  | _ => false
  end.

Definition int_of_key (k : key) : option Z :=
  match k with
  | KInt z => Some z
  | KBool true => Some 1%Z
  | KBool false => Some 0%Z
  | _ => None
  end.

(** Python equality of two keys: [1 == True], [0 == False]. *)
Definition key_eqb (a b : key) : bool :=
  match a, b with
  | KStr s, KStr t => String.eqb s t
  | KNull, KNull => true
  | _, _ =>
      match int_of_key a, int_of_key b with
      | Some x, Some y => Z.eqb x y
      | _, _ => false
      end
  end.

Fixpoint dict_lookup (k : string) (d : dict) : option value :=
  match d with
  | [] => None
  | (x, v) :: d' => if key_is k x then Some v else dict_lookup k d'
  end.

(** [d[k] = v]: an existing key keeps its position. *)
Fixpoint dict_set (k : key) (v : value) (d : dict) : dict :=
  match d with
  | [] => [(k, v)]
  | (x, w) :: d' => if key_eqb x k then (x, v) :: d' else (x, w) :: dict_set k v d'
  end.

(** *** Operators on arbitrary values *)

(** [bool(x)] *)
Definition py_truth (x : value) : bool :=
  match x with
  | VNull => false
  | VBool b => b
  | VInt z => negb (Z.eqb z 0)
  | VStr s => negb (String.eqb s EmptyString)
  | VList l => match l with [] => false | _ => true end
  | VDict d => match d with [] => false | _ => true end
  end.

Definition is_str (k : string) (x : value) : bool :=
  match x with
  | VStr s => String.eqb s k
  | _ => false
  end.

(** ["k" in x] *)
Definition py_in (k : string) (x : value) : result bool :=
  match x with
  | VDict d => Ok (existsb (fun kv => key_is k (fst kv)) d)
  | VList l => Ok (existsb (is_str k) l)
  | VStr s => Ok (substring_of k s)
  | _ => Err TypeError
  end.

(** [x["k"]] *)
Definition py_getitem (x : value) (k : string) : result value :=
  match x with
  | VDict d =>
      match dict_lookup k d with
      | Some v => Ok v
      | None => Err (KeyError k)
      end
  | _ => Err TypeError
  end.

(** [x.get("k", default)] *)
Definition py_get (x : value) (k : string) (default : value) : result value :=
  match x with
  | VDict d =>
      match dict_lookup k d with
      | Some v => Ok v
      | None => Ok default
      end
  | _ => Err AttributeError
  end.

(** [x.items()] *)
Definition py_items (x : value) : result dict :=
  match x with
  | VDict d => Ok d
  | _ => Err AttributeError
  end.

Definition chars (s : string) : list value :=
  map (fun c => VStr (String c EmptyString)) (list_ascii_of_string s).

(** [for e in x] *)
Definition py_iter (x : value) : result (list value) :=
  match x with
  | VList l => Ok l
  | VDict d => Ok (map (fun kv => key_value (fst kv)) d)
  | VStr s => Ok (chars s)
  | _ => Err TypeError
  end.

(** [enumerate(l)] *)
Fixpoint enumerate_from {A} (i : nat) (l : list A) : list (nat * A) :=
  match l with
  | [] => []
  | a :: l' => (i, a) :: enumerate_from (S i) l'
  end.
Definition enumerate {A} (l : list A) : list (nat * A) := enumerate_from 0 l.

(** *** [dict.update] *)

Definition hashable (x : value) : result key :=
  match x with
  | VStr s => Ok (KStr s)
  | VInt z => Ok (KInt z)
  | VBool b => Ok (KBool b)
  | VNull => Ok KNull
  | VList _ | VDict _ => Err TypeError
  end.

(** An element of an update sequence: an iterable of exactly two items. *)
Definition update_pair (e : value) : result (key * value) :=
  match e with
  | VList [k; v] => k' <- hashable k ;; Ok (k', v)
  | VList _ => Err ValueError
  | VStr (String a (String b EmptyString)) =>
      Ok (KStr (String a EmptyString), VStr (String b EmptyString))
  | VStr _ => Err ValueError
  | VDict [(k1, _); (k2, _)] => Ok (k1, key_value k2)
  | VDict _ => Err ValueError
  | _ => Err TypeError
  end.

(** [d.update(x)] *)
Definition dict_update (d : dict) (x : value) : result dict :=
  match x with
  | VDict m => Ok (fold_left (fun acc kv => dict_set (fst kv) (snd kv) acc) m d)
  | VList l =>
      ps <- mapM update_pair l ;;
      Ok (fold_left (fun acc kv => dict_set (fst kv) (snd kv) acc) ps d)
  | VStr EmptyString => Ok d
  | VStr _ => Err ValueError
  | _ => Err TypeError
  end.

End Py.

(** ** The migrator *)

Module PromtailToAlloyMigrator.
Import Py.

(** A component of the target graph:
    [{'type': ..., 'id': ..., 'config': {...}}]. *)
Record component := {
  c_type : string;
  c_id : value;
  c_config : dict
}.

(** The attributes of a [PromtailToAlloyMigrator] instance. *)
Record migrator := {
  promtail_config : value;
  alloy_components : list component;
  component_counter : list (string * nat)
}.

(** [__init__] *)
Definition init (config : value) : migrator :=
  {| promtail_config := config; alloy_components := []; component_counter := [] |}.

(** Methods run in a state-and-error monad over the instance. *)
Definition M (A : Type) : Type := migrator -> result (A * migrator).

Definition ret {A} (a : A) : M A := fun self => Ok (a, self).

Definition bindM {A B} (m : M A) (f : A -> M B) : M B :=
  fun self =>
    match m self with
    | Ok (a, self') => f a self'
    | Err e => Err e
    end.

Definition lift {A} (r : result A) : M A :=
  fun self =>
    match r with
    | Ok a => Ok (a, self)
    | Err e => Err e
    end.

Notation "x <-- m ;; k" := (bindM m (fun x => k))
  (at level 61, m at next level, right associativity) : py_scope.
Notation "m ;;; k" := (bindM m (fun _ => k))
  (at level 61, right associativity) : py_scope.

Fixpoint forM_ {A} (l : list A) (body : A -> M unit) : M unit :=
  match l with
  | [] => ret tt
  | a :: l' => body a ;;; forM_ l' body
  end.

(** [self.alloy_components.append(component)] *)
Definition append_component (c : component) : M unit :=
  fun self =>
    Ok (tt, {| promtail_config := promtail_config self;
               alloy_components := append (alloy_components self) c;
               component_counter := component_counter self |}).

(** [component['config'][k] = v] *)
Definition set_config (c : component) (k : string) (v : value) : component :=
  {| c_type := c_type c; c_id := c_id c; c_config := dict_set (KStr k) v (c_config c) |}.

Fixpoint counter_get (t : string) (cs : list (string * nat)) : option nat :=
  match cs with
  | [] => None
  | (t', n) :: cs' => if String.eqb t' t then Some n else counter_get t cs'
  end.

Fixpoint counter_set (t : string) (n : nat) (cs : list (string * nat)) : list (string * nat) :=
  match cs with
  | [] => [(t, n)]
  | (t', m) :: cs' =>
      if String.eqb t' t then (t', n) :: cs' else (t', m) :: counter_set t n cs'
  end.

Definition _get_component_id (component_type : string) : M string :=
  fun self =>
    let n :=
      match counter_get component_type (component_counter self) with
      | None => 0
      | Some n => n
      end in
    Ok (component_type ++ "_" ++ str_of_nat (S n),
        {| promtail_config := promtail_config self;
           alloy_components := alloy_components self;
           component_counter := counter_set component_type (S n) (component_counter self) |}).

(** *** Stage translator *)

Definition nonempty (s : string) : bool := negb (String.eqb s EmptyString).

Definition _convert_metrics_stage (metrics : value) : string :=
  "metrics { /* Metrics configuration requires manual review */ }".

Definition _convert_json_stage (json_config : value) : result string :=
  let parts := ["json {"] in
  has_source <- py_in "source" json_config ;;
  parts <- (if has_source : bool then
              source <- py_getitem json_config "source" ;;
              Ok (append parts ("  source = " ++ dquote ++ py_str source ++ dquote))
            else Ok parts) ;;
  has_expressions <- py_in "expressions" json_config ;;
  parts <- (if has_expressions : bool then
              expressions <- py_getitem json_config "expressions" ;;
              items <- py_items expressions ;;
              let parts := append parts "  expressions = {" in
              let parts :=
                extend parts
                  (map (fun kv => "    " ++ key_str (fst kv) ++ " = "
                                    ++ dquote ++ py_str (snd kv) ++ dquote) items) in
              Ok (append parts "  }")
            else Ok parts) ;;
  Ok (join newline (append parts "}")).

Definition label_part (kv : key * value) : string :=
  let k := fst kv in
  let v := snd kv in
  match v with
  | VNull => key_str k ++ " = " ++ dquote ++ dquote
  | VStr s =>
      if String.eqb s EmptyString then key_str k ++ " = " ++ dquote ++ dquote
      else key_str k ++ " = " ++ json_dumps v
  | _ => key_str k ++ " = " ++ py_str v
  end.

(** The body of [_convert_single_stage]; [match_branch] stands for
    [self._convert_match_stage(stage['match'])]. *)
Definition single_stage_body (match_branch : result string) (stage : value) : result string :=
  is_match <- py_in "match" stage ;;
  if is_match : bool then match_branch else
  is_regex <- py_in "regex" stage ;;
  if is_regex : bool then
    regex <- py_getitem stage "regex" ;;
    expression <- py_getitem regex "expression" ;;
    Ok ("regex { expression = " ++ json_dumps expression ++ " }")
  else
  is_json <- py_in "json" stage ;;
  if is_json : bool then
    json_config <- py_getitem stage "json" ;;
    _convert_json_stage json_config
  else
  is_labels <- py_in "labels" stage ;;
  if is_labels : bool then
    labels <- py_getitem stage "labels" ;;
    if negb (py_truth labels) then Ok "labels {}"
    else
      items <- py_items labels ;;
      Ok ("labels { " ++ join ", " (map label_part items) ++ " }")
  else
  is_metrics <- py_in "metrics" stage ;;
  if is_metrics : bool then
    metrics <- py_getitem stage "metrics" ;;
    Ok (_convert_metrics_stage metrics)
  else
  is_template <- py_in "template" stage ;;
  if is_template : bool then
    template <- py_getitem stage "template" ;;
    source <- py_getitem template "source" ;;
    template' <- py_getitem template "template" ;;
    Ok ("template { source = " ++ dquote ++ py_str source ++ dquote
          ++ ", template = " ++ json_dumps template' ++ " }")
  else
  is_output <- py_in "output" stage ;;
  if is_output : bool then
    output <- py_getitem stage "output" ;;
    source <- py_getitem output "source" ;;
    Ok ("output { source = " ++ dquote ++ py_str source ++ dquote ++ " }")
  else Ok EmptyString.

(** [x["k"]] followed by [f], and [for e in x] with [f] run on each
    element: the forms under which the recursion below is structural.
    [leaf] is [f] on the scalars an iteration over a mapping or a string
    yields. *)
Section Continuations.
Context {B : Type}.

Fixpoint dict_getitem_k (k : string) (f : value -> result B) (d : dict) : result B :=
  match d with
  | [] => Err (KeyError k)
  | (x, v) :: d' => if key_is k x then f v else dict_getitem_k k f d'
  end.

Definition py_getitem_k (k : string) (f : value -> result B) (x : value) : result B :=
  match x with
  | VDict d => dict_getitem_k k f d
  | _ => Err TypeError
  end.

Definition py_iter_k (f leaf : value -> result B) (x : value) : result (list B) :=
  match x with
  | VList l => mapM f l
  | VDict d => mapM leaf (map (fun kv => key_value (fst kv)) d)
  | VStr s => mapM leaf (chars s)
  | _ => Err TypeError
  end.
End Continuations.

(** The body of [_convert_match_stage], given the text of the nested
    stages. *)
Definition match_fields (mtch : value) : result (list string) :=
  let parts := ["match {"] in
  has_selector <- py_in "selector" mtch ;;
  parts <- (if has_selector : bool then
              selector <- py_getitem mtch "selector" ;;
              Ok (append parts ("  selector = " ++ json_dumps selector))
            else Ok parts) ;;
  has_pipeline_name <- py_in "pipeline_name" mtch ;;
  parts <- (if has_pipeline_name : bool then
              pipeline_name <- py_getitem mtch "pipeline_name" ;;
              Ok (append parts ("  pipeline_name = " ++ json_dumps pipeline_name))
            else Ok parts) ;;
  has_action <- py_in "action" mtch ;;
  (if has_action : bool then
     action <- py_getitem mtch "action" ;;
     Ok (append parts ("  action = " ++ dquote ++ py_str action ++ dquote))
   else Ok parts).

Definition stage_block (converted : list string) : list string :=
  let nested_stages := map (fun s => "    stage." ++ s) (filter nonempty converted) in
  match nested_stages with
  | [] => []
  | _ => append (extend ["  stage {"] nested_stages) "  }"
  end.

(** [_convert_single_stage] and [_convert_match_stage].  The lemmas
    [_convert_single_stage_eq] and [_convert_match_stage_eq] give their
    equations with [py_getitem] and [py_iter], as the source reads. *)
Fixpoint _convert_single_stage (stage : value) : result string :=
  single_stage_body (py_getitem_k "match" _convert_match_stage stage) stage
with _convert_match_stage (mtch : value) : result string :=
  parts <- match_fields mtch ;;
  has_stages <- py_in "stages" mtch ;;
  parts <- (if has_stages : bool then
              converted <- py_getitem_k "stages"
                             (py_iter_k _convert_single_stage
                                        (single_stage_body (Err TypeError))) mtch ;;
              Ok (extend parts (stage_block converted))
            else Ok parts) ;;
  Ok (join newline (append parts "}")).

(** [_convert_pipeline_stages]: the inline (legacy) form. *)
Definition _convert_pipeline_stages (stages : value) : result string :=
  if negb (py_truth stages) then Ok EmptyString
  else
    items <- py_iter stages ;;
    converted <- mapM _convert_single_stage items ;;
    let alloy_stages := filter nonempty converted in
    match alloy_stages with
    | [] => Ok EmptyString
    | _ => Ok ("stage." ++ join " | stage." alloy_stages)
    end.

(** [_convert_stage_to_dict]: the structured form; [VNull] is [None]. *)
Definition _convert_stage_to_dict (stage : value) : result value :=
  is_regex <- py_in "regex" stage ;;
  if is_regex : bool then
    regex <- py_getitem stage "regex" ;;
    expression <- py_getitem regex "expression" ;;
    Ok (VDict [(KStr "type", VStr "stage.regex"); (KStr "expression", expression)])
  else
  is_json <- py_in "json" stage ;;
  if is_json : bool then
    json_config <- py_getitem stage "json" ;;
    expressions <- py_get json_config "expressions" (VDict []) ;;
    json_config <- py_getitem stage "json" ;;
    source <- py_get json_config "source" (VStr EmptyString) ;;
    Ok (VDict [(KStr "type", VStr "stage.json"); (KStr "expressions", expressions);
               (KStr "source", source)])
  else
  is_labels <- py_in "labels" stage ;;
  if is_labels : bool then
    labels <- py_getitem stage "labels" ;;
    Ok (VDict [(KStr "type", VStr "stage.labels"); (KStr "values", labels)])
  else
  is_output <- py_in "output" stage ;;
  if is_output : bool then
    output <- py_getitem stage "output" ;;
    source <- py_getitem output "source" ;;
    Ok (VDict [(KStr "type", VStr "stage.output"); (KStr "source", source)])
  else
  is_template <- py_in "template" stage ;;
  if is_template : bool then
    template <- py_getitem stage "template" ;;
    source <- py_getitem template "source" ;;
    template' <- py_getitem template "template" ;;
    Ok (VDict [(KStr "type", VStr "stage.template"); (KStr "source", source);
               (KStr "template", template')])
  else
  is_match <- py_in "match" stage ;;
  if is_match : bool then Ok VNull
  else
  is_metrics <- py_in "metrics" stage ;;
  if is_metrics : bool then Ok VNull
  else Ok VNull.

(** [_convert_pipeline_stages_for_process] *)
Definition _convert_pipeline_stages_for_process (stages : value) : result (list value) :=
  if negb (py_truth stages) then Ok []
  else
    items <- py_iter stages ;;
    converted <- mapM _convert_stage_to_dict items ;;
    Ok (filter py_truth converted).

(** [_convert_relabel_configs] *)
Definition copy_field (k : string) (config : value) (rule : dict) : result dict :=
  present <- py_in k config ;;
  if present : bool then
    v <- py_getitem config k ;;
    Ok (dict_set (KStr k) v rule)
  else Ok rule.

Definition relabel_rule (config : value) : result value :=
  rule <- copy_field "source_labels" config [] ;;
  rule <- copy_field "target_label" config rule ;;
  rule <- copy_field "regex" config rule ;;
  rule <- copy_field "replacement" config rule ;;
  rule <- copy_field "action" config rule ;;
  Ok (VDict rule).

Definition _convert_relabel_configs (relabel_configs : value) : result (list value) :=
  items <- py_iter relabel_configs ;;
  mapM relabel_rule items.

(** *** Component graph builder *)

Definition client_id (idx : nat) : string :=
  if (idx =? 0)%nat then "default" else "client_" ++ str_of_nat idx.

(** The loop body of [_process_clients], up to the final [append]. *)
Definition client_component (idx : nat) (client : value) : result component :=
  let component_id := client_id idx in
  url <- py_getitem client "url" ;;
  let endpoint := [(KStr "url", url)] in
  has_auth <- py_in "basic_auth" client ;;
  endpoint <- (if has_auth : bool then
                 auth <- py_getitem client "basic_auth" ;;
                 username <- py_get auth "username" (VStr EmptyString) ;;
                 auth <- py_getitem client "basic_auth" ;;
                 password <- py_get auth "password" (VStr EmptyString) ;;
                 Ok (dict_set (KStr "basic_auth")
                       (VDict [(KStr "username", username); (KStr "password", password)])
                       endpoint)
               else Ok endpoint) ;;
  Ok {| c_type := "loki.write";
        c_id := VStr component_id;
        c_config := [(KStr "endpoint", VDict endpoint);
                     (KStr "external_labels", VDict [])] |}.

Definition _process_clients : M unit :=
  fun self =>
    (clients <-- lift (py_get (promtail_config self) "clients" (VList [])) ;;
     items <-- lift (py_iter clients) ;;
     forM_ (enumerate items) (fun ic =>
       component <-- lift (client_component (fst ic) (snd ic)) ;;
       append_component component)) self.

Definition file_match_id (job_name : value) (idx : nat) : value :=
  if (0 <? idx)%nat then VStr (py_str job_name ++ "_" ++ str_of_nat idx) else job_name.

Definition path_target (labels target : value) : result value :=
  d <- dict_update [(KStr "__address__", target)] labels ;;
  Ok (VDict d).

Definition file_match_component (id : value) (path_targets : list value) : component :=
  {| c_type := "local.file_match";
     c_id := id;
     c_config := [(KStr "path_targets", VList path_targets)] |}.

Definition source_file_component (id : value) : component :=
  {| c_type := "loki.source.file";
     c_id := id;
     c_config := [(KStr "targets", VStr ("local.file_match." ++ py_str id ++ ".targets"));
                  (KStr "forward_to", VList [VStr "loki.write.default.receiver"])] |}.

Definition _process_static_configs (config job_name : value) : M unit :=
  static_configs <-- lift (py_get config "static_configs" (VList [])) ;;
  items <-- lift (py_iter static_configs) ;;
  forM_ (enumerate items) (fun ic =>
    let idx := fst ic in
    let static_config := snd ic in
    targets <-- lift (py_get static_config "targets" (VList [])) ;;
    labels <-- lift (py_get static_config "labels" (VDict [])) ;;
    let id := file_match_id job_name idx in
    path_targets <-- lift (ts <- py_iter targets ;; mapM (path_target labels) ts) ;;
    append_component (file_match_component id path_targets) ;;;
    let source := source_file_component id in
    has_stages <-- lift (py_in "pipeline_stages" config) ;;
    source <-- (if has_stages : bool then
                  stages <-- lift (ps <- py_getitem config "pipeline_stages" ;;
                                   _convert_pipeline_stages ps) ;;
                  if nonempty stages then ret (set_config source "stages" (VStr stages))
                  else ret source
                else ret source) ;;
    append_component source).

Definition journal_forward_to (job_name needs_process : value) : string :=
  if py_truth needs_process then "loki.process." ++ py_str job_name ++ ".receiver"
  else "loki.write.default.receiver".

Definition relabel_component (job_name : value) (forward_to : string)
    (relabel_rules : list value) : component :=
  {| c_type := "loki.relabel";
     c_id := VStr (py_str job_name ++ "_relabel");
     c_config := [(KStr "forward_to", VList [VStr forward_to]);
                  (KStr "_rules", VList relabel_rules)] |}.

Definition process_component (job_name : value) (stages : list value) : component :=
  {| c_type := "loki.process";
     c_id := job_name;
     c_config := [(KStr "forward_to", VList [VStr "loki.write.default.receiver"]);
                  (KStr "stages", VList stages)] |}.

Definition copy_config (k : string) (from : value) (c : component) : result component :=
  present <- py_in k from ;;
  if present : bool then
    v <- py_getitem from k ;;
    Ok (set_config c k v)
  else Ok c.

Definition _process_journal_config (config job_name : value) : M unit :=
  journal_config <-- lift (py_get config "journal" (VDict [])) ;;
  needs_process <-- lift (present <- py_in "pipeline_stages" config ;;
                          if present : bool then py_getitem config "pipeline_stages"
                          else Ok (VBool false)) ;;
  let forward_to := journal_forward_to job_name needs_process in
  let journal_component :=
    {| c_type := "loki.source.journal";
       c_id := job_name;
       c_config := [(KStr "forward_to", VList [VStr forward_to])] |} in
  journal_component <-- lift (copy_config "max_age" journal_config journal_component) ;;
  journal_component <-- lift (copy_config "labels" journal_config journal_component) ;;
  has_relabel <-- lift (py_in "relabel_configs" config) ;;
  journal_component <--
    (if has_relabel : bool then
       relabel_rules <-- lift (rc <- py_getitem config "relabel_configs" ;;
                               _convert_relabel_configs rc) ;;
       match relabel_rules with
       | [] => ret journal_component
       | _ =>
           append_component (relabel_component job_name forward_to relabel_rules) ;;;
           ret (set_config journal_component "forward_to"
                  (VList [VStr ("loki.relabel." ++ py_str job_name ++ "_relabel.receiver")]))
       end
     else ret journal_component) ;;
  append_component journal_component ;;;
  if py_truth needs_process then
    stages <-- lift (ps <- py_getitem config "pipeline_stages" ;;
                     _convert_pipeline_stages_for_process ps) ;;
    append_component (process_component job_name stages)
  else ret tt.

(** The loop body of [_process_scrape_configs]. *)
Definition process_scrape_config (config : value) : M unit :=
  job_name <-- lift (py_get config "job_name" (VStr "unknown")) ;;
  has_static <-- lift (py_in "static_configs" config) ;;
  (if has_static : bool then _process_static_configs config job_name else ret tt) ;;;
  has_journal <-- lift (py_in "journal" config) ;;
  (if has_journal : bool then _process_journal_config config job_name else ret tt).

Definition _process_scrape_configs : M unit :=
  fun self =>
    (scrape_configs <-- lift (py_get (promtail_config self) "scrape_configs" (VList [])) ;;
     items <-- lift (py_iter scrape_configs) ;;
     forM_ items process_scrape_config) self.

(** *** Value formatter *)

Definition is_dict (v : value) : bool :=
  match v with VDict _ => true | _ => false end.

(** [f'{indent_str}{k} = {json.dumps(v)}'] with an optional trailer. *)
Definition attribute_line (indent_str : string) (k : key) (v : value) (trailer : string) : string :=
  indent_str ++ key_str k ++ " = " ++ json_dumps v ++ trailer.

(** One entry of a stage in the [stages] list of a processing component. *)
Definition format_stage_entry (indent_str : string) (kv : key * value) : list string :=
  let k := fst kv in
  let v := snd kv in
  if key_is "type" k then []
  else
    match v with
    | VDict d =>
        append
          (extend [indent_str ++ "  " ++ key_str k ++ " = {"]
             (map (fun e => attribute_line (indent_str ++ "    ") (fst e) (snd e) EmptyString) d))
          (indent_str ++ "  }")
    | _ => [attribute_line (indent_str ++ "  ") k v EmptyString]
    end.

Definition format_stage (indent_str : string) (stage : value) : list string :=
  match stage with
  | VDict d =>
      match dict_lookup "type" d with
      | Some stage_type =>
          append
            (append
               (extend [indent_str ++ py_str stage_type ++ " {"]
                  (flat_map (format_stage_entry indent_str) d))
               (indent_str ++ "}"))
            EmptyString
      | None => []
      end
  | _ => []
  end.

(** An element of a [forward_to] list. *)
Definition forward_ref (item : value) : string :=
  match item with
  | VStr s =>
      if startswith "loki." s || startswith "prometheus." s then s
      else json_dumps item
  | _ => json_dumps item
  end.

Definition special_key (k : key) : bool :=
  key_is "labels" k || key_is "external_labels" k.

Definition format_list (indent_str : string) (k : key) (l : list value) : list string :=
  if forallb is_dict l then
    match l with
    | [VDict d] =>
        append
          (extend [indent_str ++ key_str k ++ " = [{"]
             (map (fun e => attribute_line (indent_str ++ "  ") (fst e) (snd e) ",") d))
          (indent_str ++ "}]")
    | _ =>
        append
          (extend [indent_str ++ key_str k ++ " = ["]
             (flat_map (fun item =>
                match item with
                | VDict d =>
                    append
                      (extend [indent_str ++ "  {"]
                         (map (fun e => attribute_line (indent_str ++ "    ") (fst e) (snd e) ",") d))
                      (indent_str ++ "  },")
                | _ => []
                end) l))
          (indent_str ++ "]")
    end
  else if key_is "forward_to" k then
    [indent_str ++ key_str k ++ " = [" ++ join ", " (map forward_ref l) ++ "]"]
  else
    [attribute_line indent_str k (VList l) EmptyString].

Fixpoint _format_config_value (k : key) (v : value) (indent : nat) {struct v} : list string :=
  let indent_str := spaces indent in
  match key_is "stages" k, v with
  | true, VList l => flat_map (format_stage indent_str) l
  | _, VDict d =>
      if special_key k then
        match d with
        | _ :: _ =>
            [indent_str ++ key_str k ++ " = {";
             indent_str ++ "  "
               ++ join ", " (map (fun e => key_str (fst e) ++ " = " ++ json_dumps (snd e)) d)
               ++ ",";
             indent_str ++ "}"]
        | [] => [indent_str ++ key_str k ++ " = {}"]
        end
      else
        match d with
        | _ :: _ =>
            append
              (extend [indent_str ++ key_str k ++ " {"]
                 (flat_map (fun e => _format_config_value (fst e) (snd e) (indent + 2)) d))
              (indent_str ++ "}")
        | [] => [indent_str ++ key_str k ++ " = {}"]
        end
  | _, VList l => format_list indent_str k l
  | _, VStr s =>
      if startswith "local." s || startswith "loki." s || startswith "prometheus." s
      then [indent_str ++ key_str k ++ " = " ++ s]
      else [attribute_line indent_str k v EmptyString]
  | _, _ => [attribute_line indent_str k v EmptyString]
  end.

(** *** Config emitter *)

Definition format_rule (rule : value) : result (list string) :=
  items <- py_items rule ;;
  Ok (append
        (append
           (extend ["  rule {"]
              (map (fun e => attribute_line "    " (fst e) (snd e) EmptyString) items))
           "  }")
        EmptyString).

Definition format_config_entry (kv : key * value) : result (list string) :=
  if key_is "_rules" (fst kv) then
    rules <- py_iter (snd kv) ;;
    blocks <- mapM format_rule rules ;;
    Ok (concat blocks)
  else Ok (_format_config_value (fst kv) (snd kv) 2).

Definition _format_component (c : component) : result (list string) :=
  let lines := [c_type c ++ " " ++ dquote ++ py_str (c_id c) ++ dquote ++ " {"] in
  body <- mapM format_config_entry (c_config c) ;;
  Ok (append (extend lines (concat body)) "}").

Definition _generate_alloy_config : M string :=
  fun self =>
    lift (blocks <- mapM (fun c => lines <- _format_component c ;;
                                   Ok (append lines EmptyString))
                         (alloy_components self) ;;
          Ok (join newline (concat blocks))) self.

(** [migrate] *)
Definition migrate : M string :=
  _process_clients ;;;
  _process_scrape_configs ;;;
  _generate_alloy_config.

(** [PromtailToAlloyMigrator(promtail_config).migrate()] *)
Definition run_migrate (config : value) : result string :=
  match migrate (init config) with
  | Ok (text, _) => Ok text
  | Err e => Err e
  end.

(** The component list built by [migrate] before it is emitted. *)
Definition build : M unit := _process_clients ;;; _process_scrape_configs.

Definition run_build (config : value) : result (list component) :=
  match build (init config) with
  | Ok (_, self) => Ok (alloy_components self)
  | Err e => Err e
  end.

End PromtailToAlloyMigrator.

(** ** Notions used in the statements *)

Module Notions.
Import Py PromtailToAlloyMigrator.

(** *** The builder as a function of the document

    Every builder method only appends to [alloy_components]; the list it
    appends is a function of its arguments.  The definitions below name
    these lists. *)

Definition add_components (self : migrator) (cs : list component) : migrator :=
  {| promtail_config := promtail_config self;
     alloy_components := (alloy_components self ++ cs)%list;
     component_counter := component_counter self |}.

(** [m] appends the components [r], or raises as [r] does. *)
Definition emits (m : M unit) (r : result (list component)) : Prop :=
  forall self,
    m self = match r with
             | Ok cs => Ok (tt, add_components self cs)
             | Err e => Err e
             end.

Definition clients_components (config : value) : result (list component) :=
  clients <- py_get config "clients" (VList []) ;;
  items <- py_iter clients ;;
  mapM (fun ic => client_component (fst ic) (snd ic)) (enumerate items).

Definition entry_path_targets (static_config : value) : result (list value) :=
  targets <- py_get static_config "targets" (VList []) ;;
  labels <- py_get static_config "labels" (VDict []) ;;
  ts <- py_iter targets ;;
  mapM (path_target labels) ts.

Definition inline_stages (config : value) : result string :=
  has_stages <- py_in "pipeline_stages" config ;;
  if has_stages : bool then
    ps <- py_getitem config "pipeline_stages" ;;
    _convert_pipeline_stages ps
  else Ok EmptyString.

Definition with_stages (c : component) (stages : string) : component :=
  if nonempty stages then set_config c "stages" (VStr stages) else c.

Definition static_pair (config job_name : value) (ic : nat * value)
  : result (component * component) :=
  path_targets <- entry_path_targets (snd ic) ;;
  stages <- inline_stages config ;;
  let id := file_match_id job_name (fst ic) in
  Ok (file_match_component id path_targets, with_stages (source_file_component id) stages).

Definition pair_list (p : component * component) : list component := [fst p; snd p].

Definition static_components (config job_name : value) : result (list component) :=
  static_configs <- py_get config "static_configs" (VList []) ;;
  items <- py_iter static_configs ;;
  pairs <- mapM (static_pair config job_name) (enumerate items) ;;
  Ok (flat_map pair_list pairs).

Definition needs_process (config : value) : result value :=
  present <- py_in "pipeline_stages" config ;;
  if present : bool then py_getitem config "pipeline_stages" else Ok (VBool false).

Definition journal_base (job_name : value) (forward_to : string) : component :=
  {| c_type := "loki.source.journal";
     c_id := job_name;
     c_config := [(KStr "forward_to", VList [VStr forward_to])] |}.

Definition relabel_rules (config : value) : result (list value) :=
  has_relabel <- py_in "relabel_configs" config ;;
  if has_relabel : bool then
    rc <- py_getitem config "relabel_configs" ;;
    _convert_relabel_configs rc
  else Ok [].

Definition process_stages (config : value) : result (list value) :=
  ps <- py_getitem config "pipeline_stages" ;;
  _convert_pipeline_stages_for_process ps.

Definition journal_components (config job_name : value) : result (list component) :=
  journal_config <- py_get config "journal" (VDict []) ;;
  needs <- needs_process config ;;
  let forward_to := journal_forward_to job_name needs in
  journal <- copy_config "max_age" journal_config (journal_base job_name forward_to) ;;
  journal <- copy_config "labels" journal_config journal ;;
  rules <- relabel_rules config ;;
  let source :=
    match rules with
    | [] => [journal]
    | _ => [relabel_component job_name forward_to rules;
            set_config journal "forward_to"
              (VList [VStr ("loki.relabel." ++ py_str job_name ++ "_relabel.receiver")])]
    end in
  process <- (if py_truth needs then
                stages <- process_stages config ;;
                Ok [process_component job_name stages]
              else Ok []) ;;
  Ok (source ++ process)%list.

Definition job_components (config : value) : result (list component) :=
  job_name <- py_get config "job_name" (VStr "unknown") ;;
  has_static <- py_in "static_configs" config ;;
  static <- (if has_static : bool then static_components config job_name else Ok []) ;;
  has_journal <- py_in "journal" config ;;
  journal <- (if has_journal : bool then journal_components config job_name else Ok []) ;;
  Ok (static ++ journal)%list.

Definition jobs_components (config : value) : result (list (list component)) :=
  scrape_configs <- py_get config "scrape_configs" (VList []) ;;
  items <- py_iter scrape_configs ;;
  mapM job_components items.

Definition document_components (config : value) : result (list component) :=
  sinks <- clients_components config ;;
  jobs <- jobs_components config ;;
  Ok (sinks ++ concat jobs)%list.

(** *** Documents, sinks and jobs *)

(** A sink descriptor of the data model: a mapping with a [url] and, when
    it has a [basic_auth] entry, a mapping under it. *)
Definition well_formed_sink (client : value) : bool :=
  match client with
  | VDict d =>
      match dict_lookup "url" d, dict_lookup "basic_auth" d with
      | Some _, None => true
      | Some _, Some (VDict _) => true
      | _, _ => false
      end
  | _ => false
  end.

(** The sinks of a document, in order. *)
Definition sinks_of (config : value) : result (list value) :=
  clients <- py_get config "clients" (VList []) ;;
  py_iter clients.

(** The jobs of a document, in order. *)
Definition jobs_of (config : value) : result (list value) :=
  scrape_configs <- py_get config "scrape_configs" (VList []) ;;
  py_iter scrape_configs.

(** The entries of a job's [static_configs], in order. *)
Definition static_entries_of (config : value) : result (list value) :=
  static_configs <- py_get config "static_configs" (VList []) ;;
  py_iter static_configs.

Definition kind_id (c : component) : string * value := (c_type c, c_id c).

(** A document with two sinks, the second with credentials. *)
Definition two_sinks : value :=
  VDict [(KStr "clients",
          VList [VDict [(KStr "url", VStr "http://a/loki/api/v1/push")];
                 VDict [(KStr "url", VStr "http://b/loki/api/v1/push");
                        (KStr "basic_auth",
                         VDict [(KStr "username", VStr "u"); (KStr "password", VStr "p")])]])].

(** A document whose second sink has no [url]. *)
Definition sink_without_url : value :=
  VDict [(KStr "clients",
          VList [VDict [(KStr "url", VStr "http://a/loki/api/v1/push")];
                 VDict [(KStr "tenant_id", VStr "t")]])].

(** A job with two static-config entries. *)
Definition app_job : value :=
  VDict [(KStr "job_name", VStr "app");
         (KStr "static_configs",
          VList [VDict [(KStr "targets", VList [VStr "localhost:9080"]);
                        (KStr "labels", VDict [(KStr "env", VStr "prod")])];
                 VDict [(KStr "targets", VList [VStr "/var/log/*.log"])]])].

(** A job with both scrape mechanisms. *)
Definition mixed_job : value :=
  VDict [(KStr "job_name", VStr "mixed");
         (KStr "static_configs", VList [VDict [(KStr "targets", VList [VStr "localhost"])]]);
         (KStr "journal", VDict [(KStr "max_age", VStr "12h")])].

(** The concrete scenario with present but empty lists. *)
Definition journal_empty_lists : value :=
  VDict [(KStr "clients", VList [VDict [(KStr "url", VStr "http://sink/loki/api/v1/push")]]);
         (KStr "scrape_configs",
          VList [VDict [(KStr "job_name", VStr "journal");
                        (KStr "journal", VDict [(KStr "max_age", VStr "12h")]);
                        (KStr "pipeline_stages", VList []);
                        (KStr "relabel_configs", VList [])]])].

(** The concrete scenario: one sink, one journal job with one pipeline
    stage and one relabel rule. *)
Definition journal_job_doc : dict :=
  [(KStr "clients", VList [VDict [(KStr "url", VStr "http://sink/loki/api/v1/push")]]);
   (KStr "scrape_configs",
    VList [VDict [(KStr "job_name", VStr "journal");
                  (KStr "journal", VDict [(KStr "max_age", VStr "12h")]);
                  (KStr "pipeline_stages",
                   VList [VDict [(KStr "regex", VDict [(KStr "expression", VStr "(?P<lvl>\w+)")])]]);
                  (KStr "relabel_configs",
                   VList [VDict [(KStr "source_labels", VList [VStr "__journal__systemd_unit"]);
                                 (KStr "target_label", VStr "unit")]])]])].

(** The kinds and identifiers of the components of a job's static
    configs: entry [k] gives a discovery and a source identified alike. *)
Definition static_kinds (job_name : value) (i n : nat) : list (string * value) :=
  flat_map (fun k => [("local.file_match", file_match_id job_name k);
                      ("loki.source.file", file_match_id job_name k)]) (seq i n).

Definition job_kind (t : string) : Prop :=
  t = "local.file_match" \/ t = "loki.source.file" \/ t = "loki.relabel" \/
  t = "loki.source.journal" \/ t = "loki.process".

(** The concrete scenario of the specification: one sink and one static
    job ["app"] with one entry. *)
Definition one_static_job : value :=
  VDict [(KStr "clients", VList [VDict [(KStr "url", VStr "http://sink/loki/api/v1/push")]]);
         (KStr "scrape_configs",
          VList [VDict [(KStr "job_name", VStr "app");
                        (KStr "static_configs",
                         VList [VDict [(KStr "targets", VList [VStr "localhost:9080"]);
                                       (KStr "labels", VDict [(KStr "env", VStr "prod")])]])]])].

Definition one_static_job_components : list component :=
  [ {| c_type := "loki.write"; c_id := VStr "default";
       c_config := [(KStr "endpoint",
                     VDict [(KStr "url", VStr "http://sink/loki/api/v1/push")]);
                    (KStr "external_labels", VDict [])] |};
    {| c_type := "local.file_match"; c_id := VStr "app";
       c_config := [(KStr "path_targets",
                     VList [VDict [(KStr "__address__", VStr "localhost:9080");
                                   (KStr "env", VStr "prod")]])] |};
    {| c_type := "loki.source.file"; c_id := VStr "app";
       c_config := [(KStr "targets", VStr "local.file_match.app.targets");
                    (KStr "forward_to", VList [VStr "loki.write.default.receiver"])] |} ].

(** *** Rendered attributes *)

(** The text of one entry of a brace attribute. *)
Definition brace_entry (e : key * value) : string :=
  key_str (fst e) ++ " = " ++ json_dumps (snd e).

(** An element of a [forward_to] list: a string that starts with ["loki."]
    or ["prometheus."] is a reference and stays bare; anything else is
    written as JSON, a string between double quotes. *)
Definition reference_or_literal (item : value) : string :=
  match item with
  | VStr s =>
      if String.prefix "loki." s || String.prefix "prometheus." s then s
      else json_dumps (VStr s)
  | _ => json_dumps item
  end.

(** *** Pipeline steps *)

Definition is_scalar (v : value) : bool :=
  match v with
  | VList _ | VDict _ => false
  | _ => true
  end.

Definition has_key (k : string) (stage : value) : bool :=
  match stage with
  | VDict d => existsb (fun kv => key_is k (fst kv)) d
  | _ => false
  end.

(** The kinds of pipeline step of the data model. *)
Definition stage_kinds : list string :=
  ["match"; "regex"; "json"; "labels"; "metrics"; "template"; "output"].

Definition recognised (stage : value) : bool :=
  existsb (fun k => has_key k stage) stage_kinds.

(** A step of kind metrics: a mapping whose only kind is [metrics]. *)
Definition metrics_kind (stage : value) : bool :=
  has_key "metrics" stage &&
  forallb (fun k => negb (has_key k stage))
          ["match"; "regex"; "json"; "labels"; "template"; "output"].

Definition metrics_placeholder : string :=
  "metrics { /* Metrics configuration requires manual review */ }".

Definition regex_stage : value :=
  VDict [(KStr "regex", VDict [(KStr "expression", VStr "e")])].

Definition metrics_stage : value := VDict [(KStr "metrics", VDict [])].

(** Induction on values through lists and mappings. *)
Section ValueInduction.
Variable P : value -> Prop.
Hypothesis HNull : P VNull.
Hypothesis HBool : forall b, P (VBool b).
Hypothesis HInt : forall z, P (VInt z).
Hypothesis HStr : forall s, P (VStr s).
Hypothesis HList : forall l, Forall P l -> P (VList l).
Hypothesis HDict : forall d, Forall (fun kv => P (snd kv)) d -> P (VDict d).

Fixpoint value_nested_ind (v : value) : P v :=
  match v with
  | VNull => HNull
  | VBool b => HBool b
  | VInt z => HInt z
  | VStr s => HStr s
  | VList l =>
      HList l ((fix go (l : list value) : Forall P l :=
                  match l with
                  | [] => Forall_nil P
                  | x :: l' => Forall_cons x (value_nested_ind x) (go l')
                  end) l)
  | VDict d =>
      HDict d ((fix go (d : dict) : Forall (fun kv => P (snd kv)) d :=
                  match d with
                  | [] => Forall_nil _
                  | (k, x) :: d' =>
                      Forall_cons (P := fun kv => P (snd kv)) (k, x)
                        (value_nested_ind x) (go d')
                  end) d)
  end.
End ValueInduction.

(** A field of a step that is a mapping. *)
Definition field_of (step : value) (k : string) : option value :=
  match step with
  | VDict d => dict_lookup k d
  | _ => None
  end.

Definition optional_line (f : value -> string) (field : option value) : list string :=
  match field with
  | Some v => [f v]
  | None => []
  end.

Section Find.
Context {B : Type}.
Fixpoint dict_find (k : string) (f : value -> B) (default : B) (d : dict) : B :=
  match d with
  | [] => default
  | (x, v) :: d' => if key_is k x then f v else dict_find k f default d'
  end.
End Find.

(** The depth that the nested steps of a match step reach, over the steps
    of the kinds of the data model: 0 when the step has no such nested
    step, and otherwise one more than the deepest nested match step.
    [match_depth] takes the mapping under [match], [step_depth] a step. *)
Fixpoint step_depth (stage : value) : nat :=
  match stage with
  | VDict d => dict_find "match" match_depth 0 d
  | _ => 0
  end
with match_depth (mtch : value) : nat :=
  match mtch with
  | VDict d =>
      dict_find "stages"
        (fun stages =>
           match stages with
           | VList l =>
               if existsb recognised l then S (list_max (map step_depth l)) else 0
           | _ => 0
           end) 0 d
  | _ => 0
  end.

(** The depth counted over every element of the nested lists, whatever
    its kind. *)
Fixpoint plain_step_depth (stage : value) : nat :=
  match stage with
  | VDict d => dict_find "match" plain_match_depth 0 d
  | _ => 0
  end
with plain_match_depth (mtch : value) : nat :=
  match mtch with
  | VDict d =>
      dict_find "stages"
        (fun stages =>
           match stages with
           | VList l =>
               match l with
               | [] => 0
               | _ => S (list_max (map plain_step_depth l))
               end
           | _ => 0
           end) 0 d
  | _ => 0
  end.

(** Every nested step, at every level, is of a kind of the data model. *)
Fixpoint kinded_step (stage : value) : bool :=
  recognised stage &&
  match stage with
  | VDict d => dict_find "match" kinded_match true d
  | _ => true
  end
with kinded_match (mtch : value) : bool :=
  match mtch with
  | VDict d =>
      dict_find "stages"
        (fun stages =>
           match stages with
           | VList l => forallb kinded_step l
           | _ => true
           end) true d
  | _ => true
  end.

(** The text holds [n] levels of [stage { ... }] blocks, each inside a
    step of the block above it. *)
Inductive nested_stage_blocks : nat -> string -> Prop :=
| blocks_O (text : string) : nested_stage_blocks 0 text
| blocks_S (n : nat) (text inner : string) (before body after : list string) :
    text = join newline (before ++ "  stage {" :: body ++ "  }" :: after)%list ->
    In ("    stage." ++ inner) body ->
    nested_stage_blocks n inner ->
    nested_stage_blocks (S n) text.

(** The nested steps of a match step: [match['stages']], when present. *)
Definition nested_steps (mtch : value) : result (list value) :=
  has_stages <- py_in "stages" mtch ;;
  if has_stages : bool then
    stages <- py_getitem mtch "stages" ;;
    py_iter stages
  else Ok [].

(** What a step contributes: its text holds as many levels of stage
    blocks as the depth of the step. *)
Definition step_blocks (stage : value) : Prop :=
  forall text, _convert_single_stage stage = Ok text ->
               nested_stage_blocks (step_depth stage) text.

Definition match_blocks (mtch : value) : Prop :=
  forall text, _convert_match_stage mtch = Ok text ->
               nested_stage_blocks (match_depth mtch) text.

Definition all_blocks (v : value) : Prop :=
  match_blocks v /\ step_blocks v /\
  (forall l, v = VList l -> Forall step_blocks l).

(** A match step whose nested steps reach depth 2. *)
Definition two_level_match : value :=
  VDict [(KStr "selector", VStr "{app=x}");
         (KStr "stages",
          VList [VDict [(KStr "regex", VDict [(KStr "expression", VStr "a.*")])];
                 VDict [(KStr "match",
                         VDict [(KStr "action", VStr "drop");
                                (KStr "stages",
                                 VList [VDict [(KStr "output",
                                                VDict [(KStr "source", VStr "msg")])]])])]])].

(** The label a component is written under: its kind and the text of its
    identifier. *)
Definition labelled (x : string * value) : string * string := (fst x, py_str (snd x)).

Definition label_of (c : component) : string * string := labelled (kind_id c).

(** The names derived from a job: its name and, for its [n]th
    static-config entry with [n] from 1 on, [<name>_<n>]. *)
Definition job_labels (job : value) : list string :=
  match py_get job "job_name" (VStr "unknown") with
  | Ok job_name =>
      py_str job_name
        :: match static_entries_of job with
           | Ok items =>
               map (fun n => py_str job_name ++ "_" ++ str_of_nat n)
                   (seq 1 (length items - 1))
           | Err _ => []
           end
  | Err _ => []
  end.

(** A label derived from a job: one of the job's names, under a kind
    other than the relabel kind, or [<name>_relabel] under that kind. *)
Definition derived_from (job : value) (x : string * string) : Prop :=
  (fst x <> "loki.relabel" /\ In (snd x) (job_labels job)) \/
  (fst x = "loki.relabel" /\
   exists job_name,
     py_get job "job_name" (VStr "unknown") = Ok job_name /\
     snd x = py_str job_name ++ "_relabel").

(** Two jobs whose derived names collide: the second entry of [app] and
    the job [app_1]. *)
Definition colliding_jobs : value :=
  VDict [(KStr "scrape_configs",
          VList [app_job;
                 VDict [(KStr "job_name", VStr "app_1");
                        (KStr "static_configs",
                         VList [VDict [(KStr "targets", VList [VStr "localhost"])]])]])].

(** Documents with one sink and one job: the job with two static-config
    entries, and the job with both scrape mechanisms. *)
Definition app_document : value :=
  VDict [(KStr "clients", VList [VDict [(KStr "url", VStr "http://sink/loki/api/v1/push")]]);
         (KStr "scrape_configs", VList [app_job])].

Definition mixed_document : value :=
  VDict [(KStr "clients", VList [VDict [(KStr "url", VStr "http://sink/loki/api/v1/push")]]);
         (KStr "scrape_configs", VList [mixed_job])].

(** A match step whose only nested step is of a kind the translator does
    not know. *)
Definition timestamp_match : value :=
  VDict [(KStr "selector", VStr "{app=x}");
         (KStr "stages",
          VList [VDict [(KStr "timestamp",
                         VDict [(KStr "source", VStr "time");
                                (KStr "format", VStr "RFC3339")])]])].

End Notions.

(** ** The node_exporter migrator

    [NodeExporterToAlloyMigrator].  The unit file is an input of the model:
    [Some content] when a path is given and the file exists, [None]
    otherwise.  The two regular expressions are written out as the searches
    [re.search] performs. *)

Module NodeExporterToAlloyMigrator.
Import Py.

(** The attributes [collectors] and [textfile_directory]. *)
Record exporter := {
  collectors : list string;
  textfile_directory : option string
}.

(** [\s] on code points below 256. *)
Definition is_space (c : ascii) : bool :=
  let n := nat_of_ascii c in
  char_in 9 13 c || char_in 28 32 c || (n =? 133)%nat || (n =? 160)%nat.

(** [.] matches every character but the newline. *)
Definition is_dot (c : ascii) : bool := negb (nat_of_ascii c =? 10)%nat.

Fixpoint take_while (p : ascii -> bool) (s : string) : string :=
  match s with
  | EmptyString => EmptyString
  | String c s' => if p c then String c (take_while p s') else EmptyString
  end.

Fixpoint drop_while (p : ascii -> bool) (s : string) : string :=
  match s with
  | EmptyString => EmptyString
  | String c s' => if p c then drop_while p s' else s
  end.

(** The rest of [s] after the prefix [p]. *)
Fixpoint strip_prefix (p s : string) : option string :=
  match p, s with
  | EmptyString, _ => Some s
  | String a p', String b s' => if Ascii.eqb a b then strip_prefix p' s' else None
  | String _ _, EmptyString => None
  end.

(** A search tries every start position, the leftmost first. *)
Fixpoint search (match_at : string -> option string) (s : string) : option string :=
  match match_at s with
  | Some g => Some g
  | None =>
      match s with
      | EmptyString => None
      | String _ s' => search match_at s'
      end
  end.

(** [ExecStart=(.+)] at the start of [s]: group 1. *)
Definition exec_start_at (s : string) : option string :=
  match strip_prefix "ExecStart=" s with
  | Some rest =>
      match take_while is_dot rest with
      | EmptyString => None
      | g => Some g
      end
  | None => None
  end.

(** [--collector\.textfile\.directory\s+([^\s]+)] at the start of [s]:
    group 1. *)
Definition textfile_at (s : string) : option string :=
  match strip_prefix "--collector.textfile.directory" s with
  | Some rest =>
      match take_while is_space rest with
      | EmptyString => None
      | _ =>
          match take_while (fun c => negb (is_space c)) (drop_while is_space rest) with
          | EmptyString => None
          | g => Some g
          end
      end
  | None => None
  end.

(** The command line that [parse_service_file] reads, if any. *)
Definition exec_line_of (service_file : option string) (exec_start_line : option string)
  : option string :=
  match exec_start_line with
  | Some (String c l) => Some (String c l)
  | _ =>
      match service_file with
      | Some content => search exec_start_at content
      | None => None
      end
  end.

(** [parse_service_file], from the attributes [__init__] has set. *)
Definition parse_service_file (service_file : option string)
    (exec_start_line : option string) : exporter :=
  match exec_line_of service_file exec_start_line with
  | None => {| collectors := []; textfile_directory := None |}
  | Some exec_line =>
      let collectors :=
        if substring_of "--collector.systemd" exec_line then ["systemd"] else [] in
      match search textfile_at exec_line with
      | Some directory =>
          {| collectors := append collectors "textfile";
             textfile_directory := Some directory |}
      | None => {| collectors := collectors; textfile_directory := None |}
      end
  end.

(** The fixed end of the document: the scrape component and the
    placeholder remote write. *)
Definition scrape_and_remote_write : list string :=
  ["prometheus.scrape " ++ dquote ++ "node_exporter" ++ dquote ++ " {";
   "  targets = prometheus.exporter.unix.node_exporter.targets";
   "  forward_to = [prometheus.remote_write.default.receiver]";
   "}";
   EmptyString;
   "prometheus.remote_write " ++ dquote ++ "default" ++ dquote ++ " {";
   "  endpoint {";
   "    url = " ++ dquote ++ "http://your-prometheus-endpoint/api/v1/write" ++ dquote;
   "  }";
   "}"].

(** [migrate] *)
Definition migrate (self : exporter) : string :=
  let config_lines := ["prometheus.exporter.unix " ++ dquote ++ "node_exporter" ++ dquote ++ " {"] in
  let config_lines :=
    match collectors self with
    | [] => config_lines
    | _ =>
        let collectors_str :=
          join ", " (map (fun c => dquote ++ c ++ dquote) (collectors self)) in
        append config_lines ("  enable_collectors = [" ++ collectors_str ++ "]")
    end in
  let config_lines :=
    match textfile_directory self with
    | Some (String c d) =>
        extend config_lines
          [EmptyString;
           "  textfile {";
           "    directory = " ++ dquote ++ String c d ++ dquote;
           "  }"]
    | _ => config_lines
    end in
  let config_lines :=
    if existsb (String.eqb "systemd") (collectors self) then
      extend config_lines [EmptyString; "  systemd {"; "    enable_restarts = true"; "  }"]
    else config_lines in
  let config_lines := extend config_lines ["}"; EmptyString] in
  join newline (extend config_lines scrape_and_remote_write).

(** [NodeExporterToAlloyMigrator(service_file, exec_start).migrate()] *)
Definition run_migrate (service_file : option string) (exec_start_line : option string)
  : string :=
  migrate (parse_service_file service_file exec_start_line).

End NodeExporterToAlloyMigrator.

(** ** Notions used in the further properties *)

Module ExporterNotions.
Import Py NodeExporterToAlloyMigrator.

(** Every character of [s] satisfies [p]. *)
Definition all_chars (p : ascii -> bool) (s : string) : bool :=
  forallb p (list_ascii_of_string s).

Definition not_space (c : ascii) : bool := negb (is_space c).

Definition exporter_header : string :=
  "prometheus.exporter.unix " ++ dquote ++ "node_exporter" ++ dquote ++ " {".

(** A unit file whose [ExecStart] goes on over a second line. *)
Definition continued_unit : string :=
  "[Service]" ++ newline
    ++ "ExecStart=/usr/bin/node_exporter --collector.systemd \" ++ newline
    ++ "  --collector.textfile.directory /var/lib/ne" ++ newline.

End ExporterNotions.

Module BuilderNotions.
Import Py PromtailToAlloyMigrator Notions.

(** [k] successive calls of [_get_component_id] for one type. *)
Fixpoint component_ids (component_type : string) (k : nat) : M (list string) :=
  match k with
  | O => ret []
  | S k' =>
      id <-- _get_component_id component_type ;;
      ids <-- component_ids component_type k' ;;
      ret (id :: ids)
  end.

(** The count the class holds for a type, 0 when it holds none. *)
Definition counter_of (component_type : string) (self : migrator) : nat :=
  match counter_get component_type (component_counter self) with
  | Some n => n
  | None => 0
  end.

(** The keys of a mapping are pairwise different, as Python compares
    them. *)
Fixpoint distinct_keys (d : dict) : bool :=
  match d with
  | [] => true
  | (x, _) :: d' => forallb (fun kv => negb (key_eqb x (fst kv))) d' && distinct_keys d'
  end.

(** What a component forwards to, and the reference to its receiver. *)
Definition forward_to_of (c : component) : option value :=
  dict_lookup "forward_to" (c_config c).

Definition receiver (c : component) : value :=
  VList [VStr (c_type c ++ "." ++ py_str (c_id c) ++ ".receiver")].

Definition default_receiver : value := VList [VStr "loki.write.default.receiver"].

Definition optional {A} (o : option A) : list A :=
  match o with
  | Some a => [a]
  | None => []
  end.

(** A journal job with relabel rules and no pipeline stages. *)
Definition relabel_only_job : value :=
  VDict [(KStr "job_name", VStr "journal");
         (KStr "journal", VDict [(KStr "labels", VDict [(KStr "job", VStr "systemd")])]);
         (KStr "relabel_configs",
          VList [VDict [(KStr "source_labels", VList [VStr "__journal__systemd_unit"]);
                        (KStr "target_label", VStr "unit")]])].

(** A document whose only job is that journal job. *)
Definition relabel_document : value :=
  VDict [(KStr "scrape_configs", VList [relabel_only_job])].

(** The labels without the entry of a key. *)
Definition without (k : string) (d : dict) : dict :=
  filter (fun kv => negb (key_is k (fst kv))) d.

(** An entry of a component's configuration can be written out: a [_rules]
    entry holds a list of mappings. *)
Definition rules_ok (kv : key * value) : bool :=
  if key_is "_rules" (fst kv) then
    match snd kv with
    | VList l => forallb is_dict l
    | _ => false
    end
  else true.

Definition renderable (c : component) : bool := forallb rules_ok (c_config c).


(** The fields a relabel rule keeps, in the order the rule lists them. *)
Definition relabel_fields : list string :=
  ["source_labels"; "target_label"; "regex"; "replacement"; "action"].

Definition kept_fields (config : dict) : dict :=
  flat_map (fun k => match dict_lookup k config with
                     | Some v => [(KStr k, v)]
                     | None => []
                     end) relabel_fields.

(** The kinds of step the structured translation knows, in the order it
    tests them. *)
Definition structured_kinds : list string :=
  ["regex"; "json"; "labels"; "output"; "template"].

Definition structured (stage : value) : bool :=
  existsb (fun k => has_key k stage) structured_kinds.

Definition first_kind (stage : value) : option string :=
  find (fun k => has_key k stage) structured_kinds.

(** The block [_format_config_value] writes for a stage of a type. *)
Definition stage_lines (indent_str kind : string) (rest : dict) : list string :=
  append
    (append
       (extend [indent_str ++ "stage." ++ kind ++ " {"]
          (flat_map (format_stage_entry indent_str) rest))
       (indent_str ++ "}"))
    EmptyString.

(** A structured stage of a kind: a mapping that opens with its type. *)
Definition typed_stage (kind : string) (rest : dict) : value :=
  VDict ((KStr "type", VStr ("stage." ++ kind)) :: rest).

(** A journal pipeline with a match, a regex and a timestamp step. *)
Definition three_steps : list dict :=
  [[(KStr "match", VDict [(KStr "selector", VStr "{app=x}")])];
   [(KStr "regex", VDict [(KStr "expression", VStr "e")])];
   [(KStr "timestamp", VDict [(KStr "source", VStr "ts")])]].

Definition is_sink (c : component) : bool := String.eqb (c_type c) "loki.write".

End BuilderNotions.

(** ** Facts about the Python layer *)

Module PyFacts.
Import Py.

Lemma append_inj_l (p a b : string) : p ++ a = p ++ b -> a = b.
Proof.
  induction p as [|c p IH]; simpl; intros H.
  - exact H.
  - injection H as H. auto.
Qed.

Lemma length_append (a b : string) :
  String.length (a ++ b) = String.length a + String.length b.
Proof. induction a as [|c a IH]; simpl; [reflexivity | now rewrite IH]. Qed.

Lemma append_neq_self (s t : string) : t <> EmptyString -> s <> s ++ t.
Proof.
  intros Ht H.
  assert (L : String.length s = String.length (s ++ t)) by now rewrite <- H.
  rewrite length_append in L.
  destruct t as [|c t]; [now apply Ht | simpl in L; lia].
Qed.

Lemma str_of_nat_inj (n m : nat) : str_of_nat n = str_of_nat m -> n = m.
Proof.
  unfold str_of_nat. intros H.
  apply DecimalNat.Unsigned.to_uint_inj.
  assert (E : NilEmpty.uint_of_string (NilEmpty.string_of_uint (Nat.to_uint n))
              = NilEmpty.uint_of_string (NilEmpty.string_of_uint (Nat.to_uint m)))
    by now rewrite H.
  rewrite !NilEmpty.usu in E. now injection E.
Qed.

Lemma key_is_eq (k : string) (x : key) : key_is k x = true <-> x = KStr k.
Proof.
  destruct x; simpl; try (split; [discriminate | intros H; discriminate H]).
  rewrite String.eqb_eq. split; [now intros -> | now intros [= ->]].
Qed.

Lemma dict_lookup_in (k : string) (d : dict) :
  existsb (fun kv => key_is k (fst kv)) d = true <-> exists v, dict_lookup k d = Some v.
Proof.
  induction d as [|[x v] d IH]; simpl.
  - split; [discriminate | intros [v H]; discriminate H].
  - destruct (key_is k x); simpl.
    + split; [eauto | reflexivity].
    + exact IH.
Qed.

Lemma dict_lookup_notin (k : string) (d : dict) :
  existsb (fun kv => key_is k (fst kv)) d = false <-> dict_lookup k d = None.
Proof.
  induction d as [|[x v] d IH]; simpl.
  - split; reflexivity.
  - destruct (key_is k x); simpl.
    + split; discriminate.
    + exact IH.
Qed.

(** [x["k"]] succeeds exactly when [x] is a mapping that holds ["k"];
    on a mapping it agrees with ["k" in x]. *)
Lemma py_in_dict (k : string) (d : dict) :
  py_in k (VDict d) = Ok (match dict_lookup k d with Some _ => true | None => false end).
Proof.
  simpl. f_equal.
  destruct (dict_lookup k d) eqn:E.
  - apply dict_lookup_in. eauto.
  - now apply dict_lookup_notin.
Qed.

Lemma py_getitem_ok (x : value) (k : string) (v : value) :
  py_getitem x k = Ok v <-> exists d, x = VDict d /\ dict_lookup k d = Some v.
Proof.
  split.
  - destruct x; simpl; try discriminate.
    destruct (dict_lookup k d) eqn:E; [|discriminate].
    intros [= ->]. eauto.
  - intros (d & -> & E). simpl. now rewrite E.
Qed.

Lemma mapM_length {A B} (f : A -> result B) (l : list A) (bs : list B) :
  mapM f l = Ok bs -> length bs = length l.
Proof.
  revert bs. induction l as [|a l IH]; simpl; intros bs H.
  - now injection H as <-.
  - destruct (f a); simpl in H; [|discriminate].
    destruct (mapM f l); simpl in H; [|discriminate].
    injection H as <-. simpl. f_equal. now apply IH.
Qed.

Lemma mapM_app {A B} (f : A -> result B) (l1 l2 : list A) :
  mapM f (l1 ++ l2) =
  (b1 <- mapM f l1 ;; b2 <- mapM f l2 ;; Ok (b1 ++ b2)%list).
Proof.
  induction l1 as [|a l1 IH]; simpl.
  - destruct (mapM f l2); reflexivity.
  - destruct (f a); simpl; [|reflexivity].
    rewrite IH. destruct (mapM f l1); simpl; [|reflexivity].
    destruct (mapM f l2); reflexivity.
Qed.

Lemma mapM_ext_in {A B} (f g : A -> result B) (l : list A) :
  (forall a, In a l -> f a = g a) -> mapM f l = mapM g l.
Proof.
  induction l as [|a l IH]; simpl; intros H; [reflexivity|].
  rewrite (H a) by now left.
  rewrite IH by (intros; apply H; now right). reflexivity.
Qed.

Lemma mapM_nth {A B} (f : A -> result B) (l : list A) (bs : list B) :
  mapM f l = Ok bs ->
  forall n a, nth_error l n = Some a ->
  exists b, nth_error bs n = Some b /\ f a = Ok b.
Proof.
  revert bs. induction l as [|x l IH]; simpl; intros bs H n a Hn.
  - destruct n; discriminate.
  - destruct (f x) eqn:Ex; simpl in H; [|discriminate].
    destruct (mapM f l) eqn:El; simpl in H; [|discriminate].
    injection H as <-.
    destruct n; simpl in *.
    + injection Hn as <-. eauto.
    + eapply IH; eauto.
Qed.

Lemma mapM_all_ok {A B} (f : A -> result B) (l : list A) :
  Forall (fun a => exists b, f a = Ok b) l -> exists bs, mapM f l = Ok bs.
Proof.
  induction 1 as [|a l [b Hb] _ [bs IH]]; simpl.
  - eauto.
  - rewrite Hb, IH. simpl. eauto.
Qed.

Lemma mapM_in_err {A B} (f : A -> result B) (l : list A) (a : A) (e : exn) :
  In a l -> f a = Err e -> exists e', mapM f l = Err e'.
Proof.
  induction l as [|x l IH]; simpl; intros Hin He; [contradiction|].
  destruct (f x) eqn:Ex; simpl; [|eauto].
  destruct Hin as [->|Hin]; [congruence|].
  destruct (IH Hin He) as [e' ->]. simpl. eauto.
Qed.

Lemma enumerate_from_length {A} (i : nat) (l : list A) :
  length (enumerate_from i l) = length l.
Proof. revert i. induction l; simpl; intros; [reflexivity | now rewrite IHl]. Qed.

Lemma enumerate_from_nth {A} (i : nat) (l : list A) (n : nat) (a : A) :
  nth_error l n = Some a -> nth_error (enumerate_from i l) n = Some (i + n, a).
Proof.
  revert i n. induction l as [|x l IH]; intros i n H.
  - destruct n; discriminate.
  - destruct n; simpl in *.
    + injection H as ->. now rewrite Nat.add_0_r.
    + rewrite (IH (S i) n H). f_equal. f_equal. lia.
Qed.

Lemma enumerate_from_in {A} (i : nat) (l : list A) (n : nat) (a : A) :
  In (n, a) (enumerate_from i l) -> i <= n < i + length l /\ In a l.
Proof.
  revert i. induction l as [|x l IH]; simpl; intros i H; [contradiction|].
  destruct H as [[= <- <-]|H].
  - split; [lia | now left].
  - apply IH in H. split; [lia | now right].
Qed.

Lemma string_append_assoc (a b c : string) : (a ++ b) ++ c = a ++ b ++ c.
Proof. induction a as [|x a IH]; simpl; [reflexivity | now rewrite IH]. Qed.

Lemma string_append_nil_r (s : string) : s ++ EmptyString = s.
Proof. induction s as [|c s IH]; simpl; [reflexivity | now rewrite IH]. Qed.

End PyFacts.

(** ** The builder appends the components of the document *)

Module BuilderFacts.
Import Py PyFacts PromtailToAlloyMigrator Notions.

Lemma add_components_nil self : add_components self [] = self.
Proof. destruct self. unfold add_components. simpl. now rewrite app_nil_r. Qed.

Lemma add_components_app self a b :
  add_components (add_components self a) b = add_components self (a ++ b).
Proof. unfold add_components. simpl. now rewrite app_assoc. Qed.

Lemma append_component_eq c self :
  append_component c self = Ok (tt, add_components self [c]).
Proof. reflexivity. Qed.

Lemma emits_ret : emits (ret tt) (Ok []).
Proof. intros self. unfold ret. now rewrite add_components_nil. Qed.

Lemma emits_seq m1 m2 r1 r2 :
  emits m1 r1 -> emits m2 r2 ->
  emits (m1 ;;; m2) (a <- r1 ;; b <- r2 ;; Ok (a ++ b)%list).
Proof.
  intros H1 H2 self. unfold bindM. rewrite H1.
  destruct r1 as [a|e]; simpl; [|reflexivity].
  rewrite H2. destruct r2 as [b|e]; simpl; [|reflexivity].
  now rewrite add_components_app.
Qed.

Lemma emits_forM {A} (l : list A) (body : A -> M unit) (g : A -> result (list component)) :
  (forall a, emits (body a) (g a)) ->
  emits (forM_ l body) (xs <- mapM g l ;; Ok (concat xs)).
Proof.
  intros Hb. induction l as [|a l IH]; simpl.
  - apply emits_ret.
  - intros self. rewrite (emits_seq _ _ _ _ (Hb a) IH self).
    destruct (g a); simpl; [|reflexivity].
    destruct (mapM g l); reflexivity.
Qed.

Lemma mapM_singletons {A B} (f : A -> result B) (l : list A) :
  (xs <- mapM (fun a => b <- f a ;; Ok [b]) l ;; Ok (concat xs)) = mapM f l.
Proof.
  induction l as [|a l IH]; simpl; [reflexivity|].
  destruct (f a); simpl; [|reflexivity].
  rewrite <- IH.
  destruct (mapM (fun a => b <- f a ;; Ok [b]) l); reflexivity.
Qed.

Lemma mapM_pairs {A} (f : A -> result (component * component)) (l : list A) :
  (xs <- mapM (fun a => p <- f a ;; Ok (pair_list p)) l ;; Ok (concat xs))
  = (ps <- mapM f l ;; Ok (flat_map pair_list ps)).
Proof.
  induction l as [|a l IH]; simpl; [reflexivity|].
  destruct (f a); simpl; [|reflexivity].
  destruct (mapM (fun a => p <- f a ;; Ok (pair_list p)) l);
    destruct (mapM f l); simpl in *; congruence.
Qed.

Ltac fin := simpl; rewrite <- ?app_assoc; simpl; reflexivity.

Lemma _process_clients_emits self :
  _process_clients self =
  match clients_components (promtail_config self) with
  | Ok cs => Ok (tt, add_components self cs)
  | Err e => Err e
  end.
Proof.
  unfold _process_clients, clients_components, bindM at 1 2, lift, bind.
  destruct (py_get _ _ _) as [clients|]; [|reflexivity].
  destruct (py_iter clients) as [items|]; [|reflexivity].
  rewrite <- mapM_singletons.
  apply emits_forM. intros [idx client] s. unfold bindM, lift, bind. simpl.
  destruct (client_component idx client); reflexivity.
Qed.

Lemma static_body_emits config job_name ic :
  emits
    (let idx := fst ic in
     let static_config := snd ic in
     targets <-- lift (py_get static_config "targets" (VList [])) ;;
     labels <-- lift (py_get static_config "labels" (VDict [])) ;;
     let id := file_match_id job_name idx in
     path_targets <-- lift (ts <- py_iter targets ;; mapM (path_target labels) ts) ;;
     append_component (file_match_component id path_targets) ;;;
     let source := source_file_component id in
     has_stages <-- lift (py_in "pipeline_stages" config) ;;
     source <-- (if has_stages : bool then
                   stages <-- lift (ps <- py_getitem config "pipeline_stages" ;;
                                    _convert_pipeline_stages ps) ;;
                   if nonempty stages then ret (set_config source "stages" (VStr stages))
                   else ret source
                 else ret source) ;;
     append_component source)
    (p <- static_pair config job_name ic ;; Ok (pair_list p)).
Proof.
  intros self. destruct ic as [idx static_config].
  unfold static_pair, entry_path_targets, inline_stages, with_stages, pair_list,
    bindM, lift, ret, bind, append_component, add_components, append. simpl.
  destruct (py_get static_config "targets" _) as [targets|]; [|reflexivity].
  destruct (py_get static_config "labels" _) as [labels|]; [|reflexivity].
  destruct (py_iter targets) as [ts|]; [|reflexivity].
  destruct (mapM (path_target labels) ts) as [pts|]; [|reflexivity].
  destruct (py_in "pipeline_stages" config) as [[|]|]; try reflexivity; simpl.
  - destruct (py_getitem config "pipeline_stages") as [ps|]; [|reflexivity].
    destruct (_convert_pipeline_stages ps) as [stages|]; [|reflexivity].
    destruct (nonempty stages); simpl; rewrite <- app_assoc; reflexivity.
  - rewrite <- app_assoc. reflexivity.
Qed.

Lemma _process_static_configs_emits config job_name :
  emits (_process_static_configs config job_name) (static_components config job_name).
Proof.
  intros self.
  unfold _process_static_configs, static_components, bindM at 1 2, lift, bind.
  destruct (py_get config "static_configs" _) as [sc|]; [|reflexivity].
  destruct (py_iter sc) as [items|]; [|reflexivity].
  fold (bind (mapM (static_pair config job_name) (enumerate items))
          (fun pairs => Ok (flat_map pair_list pairs))).
  rewrite <- mapM_pairs.
  apply emits_forM. intros ic. apply static_body_emits.
Qed.

Lemma _process_journal_config_emits config job_name :
  emits (_process_journal_config config job_name) (journal_components config job_name).
Proof.
  intros self.
  unfold _process_journal_config, journal_components, needs_process, relabel_rules,
    process_stages, bindM, lift, ret, bind, append_component, add_components, append.
  destruct (py_get config "journal" _) as [jc|]; [|reflexivity].
  destruct (py_in "pipeline_stages" config) as [present|]; [|reflexivity].
  set (needs := if present then py_getitem config "pipeline_stages" else Ok (VBool false)).
  destruct needs as [needs|]; [|reflexivity].
  fold (journal_base job_name (journal_forward_to job_name needs)).
  destruct (copy_config "max_age" jc _) as [j1|]; [|reflexivity].
  destruct (copy_config "labels" jc j1) as [j2|]; [|reflexivity].
  destruct (py_in "relabel_configs" config) as [[|]|]; try reflexivity.
  - destruct (py_getitem config "relabel_configs") as [rc|]; [|reflexivity].
    destruct (_convert_relabel_configs rc) as [[|r rules]|]; try reflexivity; simpl.
    + destruct (py_truth needs); [|fin].
      destruct (py_getitem config "pipeline_stages") as [ps|]; [|reflexivity].
      destruct (_convert_pipeline_stages_for_process ps) as [stages|]; [|reflexivity].
      fin.
    + destruct (py_truth needs); [|fin].
      destruct (py_getitem config "pipeline_stages") as [ps|]; [|reflexivity].
      destruct (_convert_pipeline_stages_for_process ps) as [stages|]; [|reflexivity].
      fin.
  - simpl. destruct (py_truth needs); [|fin].
    destruct (py_getitem config "pipeline_stages") as [ps|]; [|reflexivity].
    destruct (_convert_pipeline_stages_for_process ps) as [stages|]; [|reflexivity].
    fin.
Qed.

Lemma process_scrape_config_emits config :
  emits (process_scrape_config config) (job_components config).
Proof.
  intros self.
  unfold process_scrape_config, job_components, bindM, lift, ret, bind.
  destruct (py_get config "job_name" _) as [job_name|]; [|reflexivity].
  destruct (py_in "static_configs" config) as [has_static|]; [|reflexivity].
  assert (Hs : emits (if has_static then _process_static_configs config job_name
                      else fun self => Ok (tt, self))
                     (if has_static then static_components config job_name else Ok [])).
  { destruct has_static; [apply _process_static_configs_emits | apply emits_ret]. }
  rewrite Hs.
  destruct (if has_static then static_components config job_name else Ok [])
    as [static|]; [|reflexivity].
  destruct (py_in "journal" config) as [has_journal|]; [|reflexivity].
  assert (Hj : emits (if has_journal then _process_journal_config config job_name
                      else fun self => Ok (tt, self))
                     (if has_journal then journal_components config job_name else Ok [])).
  { destruct has_journal; [apply _process_journal_config_emits | apply emits_ret]. }
  rewrite Hj.
  destruct (if has_journal then journal_components config job_name else Ok [])
    as [journal|]; [|reflexivity].
  now rewrite add_components_app.
Qed.

Lemma _process_scrape_configs_emits self :
  _process_scrape_configs self =
  match jobs_components (promtail_config self) with
  | Ok js => Ok (tt, add_components self (concat js))
  | Err e => Err e
  end.
Proof.
  unfold _process_scrape_configs, jobs_components, bindM at 1 2, lift, bind.
  destruct (py_get _ _ _) as [sc|]; [|reflexivity].
  destruct (py_iter sc) as [items|]; [|reflexivity].
  rewrite (emits_forM items _ _ process_scrape_config_emits self).
  unfold bind. destruct (mapM job_components items); reflexivity.
Qed.

(** The builder appends the components of the document and leaves the
    rest of the instance as it was. *)
Lemma build_eq self :
  build self =
  match document_components (promtail_config self) with
  | Ok cs => Ok (tt, add_components self cs)
  | Err e => Err e
  end.
Proof.
  unfold build, document_components, bindM, bind.
  rewrite _process_clients_emits.
  destruct (clients_components _) as [cs|]; [|reflexivity].
  rewrite _process_scrape_configs_emits. simpl.
  destruct (jobs_components _) as [js|]; [|reflexivity].
  now rewrite add_components_app.
Qed.

Lemma run_build_eq config : run_build config = document_components config.
Proof.
  unfold run_build. rewrite build_eq. simpl.
  destruct (document_components config); reflexivity.
Qed.

End BuilderFacts.

(** ** Properties of the component graph builder *)

Module GraphBuilder.
Import Py PyFacts PromtailToAlloyMigrator Notions BuilderFacts.

Lemma clients_components_sinks config :
  clients_components config =
  (items <- sinks_of config ;;
   mapM (fun ic => client_component (fst ic) (snd ic)) (enumerate items)).
Proof.
  unfold clients_components, sinks_of, bind.
  destruct (py_get config "clients" _); reflexivity.
Qed.

Lemma client_component_well_formed idx sink :
  well_formed_sink sink = true ->
  exists url endpoint,
    py_getitem sink "url" = Ok url /\
    client_component idx sink =
      Ok {| c_type := "loki.write";
            c_id := VStr (client_id idx);
            c_config := [(KStr "endpoint", VDict endpoint);
                         (KStr "external_labels", VDict [])] |} /\
    dict_lookup "url" endpoint = Some url /\
    match py_getitem sink "basic_auth" with
    | Ok auth =>
        exists username password,
          py_get auth "username" (VStr EmptyString) = Ok username /\
          py_get auth "password" (VStr EmptyString) = Ok password /\
          dict_lookup "basic_auth" endpoint
          = Some (VDict [(KStr "username", username); (KStr "password", password)])
    | Err _ => dict_lookup "basic_auth" endpoint = None
    end.
Proof.
  destruct sink as [| | | | |d]; try discriminate. unfold well_formed_sink.
  destruct (dict_lookup "url" d) as [url|] eqn:Eu; [|discriminate].
  destruct (dict_lookup "basic_auth" d) as [auth|] eqn:Ea.
  - destruct auth as [| | | | |a]; try discriminate. intros _.
    unfold client_component. rewrite py_in_dict. simpl. rewrite Eu, Ea. simpl.
    destruct (dict_lookup "username" a) as [u|], (dict_lookup "password" a) as [p|];
      simpl; do 2 eexists; (split; [reflexivity|]); (split; [reflexivity|]);
      (split; [reflexivity|]); do 2 eexists; repeat split.
  - intros _. unfold client_component. rewrite py_in_dict. simpl. rewrite Eu, Ea. simpl.
    do 2 eexists. repeat split.
Qed.

Lemma client_component_ill_formed idx sink :
  well_formed_sink sink = false -> exists e, client_component idx sink = Err e.
Proof.
  destruct sink as [| | | | |d];
    try (intros _; unfold client_component; simpl; eauto; fail).
  unfold well_formed_sink, client_component. rewrite py_in_dict. simpl.
  destruct (dict_lookup "url" d) as [url|] eqn:Eu; simpl; [|eauto].
  destruct (dict_lookup "basic_auth" d) as [auth|] eqn:Ea; [|discriminate].
  destruct auth; try discriminate; simpl; eauto.
Qed.

Lemma client_id_inj n m : client_id n = client_id m -> n = m.
Proof.
  unfold client_id.
  destruct (Nat.eqb_spec n 0) as [->|Hn], (Nat.eqb_spec m 0) as [->|Hm];
    try reflexivity; try discriminate.
  intros H. apply str_of_nat_inj. now apply (append_inj_l "client_").
Qed.

Lemma sink_components_spec items :
  forallb well_formed_sink items = true ->
  forall i,
  exists cs,
    mapM (fun ic => client_component (fst ic) (snd ic)) (enumerate_from i items) = Ok cs /\
    length cs = length items /\
    forall n sink, nth_error items n = Some sink ->
      exists c, nth_error cs n = Some c /\ client_component (i + n) sink = Ok c.
Proof.
  induction items as [|sink items IH]; simpl; intros Hwf i.
  - exists []. repeat split. intros [|n] sink H; discriminate H.
  - apply andb_prop in Hwf as [Hs Hrest].
    destruct (client_component_well_formed i sink Hs) as (url & ep & _ & Hc & _).
    destruct (IH Hrest (S i)) as (cs & Hcs & Hlen & Hnth).
    rewrite Hc, Hcs. simpl. eexists. split; [reflexivity|]. split; [simpl; congruence|].
    intros [|n] s Hn; simpl in *.
    + injection Hn as <-. rewrite Nat.add_0_r. eauto.
    + destruct (Hnth n s Hn) as (c & Hc1 & Hc2). exists c. split; [exact Hc1|].
      now replace (i + S n) with (S i + n) by lia.
Qed.

(** C6.  When every sink of the document is well formed, [_process_clients]
    appends one [loki.write] component per sink, in order: the first is
    identified ["default"], the sink at position [n >= 1] is identified
    ["client_n"]; the [url] is nested under [endpoint], and so is the
    [basic_auth] pair when the sink has one.  Two sinks give the identifiers
    ["default"] and ["client_1"]. *)
Theorem sink_identifiers (self : migrator) (items : list value) :
  sinks_of (promtail_config self) = Ok items ->
  forallb well_formed_sink items = true ->
  exists cs,
    _process_clients self = Ok (tt, add_components self cs) /\
    length cs = length items /\
    (forall n sink, nth_error items n = Some sink ->
       exists c url endpoint,
         nth_error cs n = Some c /\
         c_type c = "loki.write" /\
         c_id c = VStr (if (n =? 0)%nat then "default" else "client_" ++ str_of_nat n) /\
         py_getitem sink "url" = Ok url /\
         c_config c = [(KStr "endpoint", VDict endpoint); (KStr "external_labels", VDict [])] /\
         dict_lookup "url" endpoint = Some url /\
         match py_getitem sink "basic_auth" with
         | Ok auth =>
             exists username password,
               py_get auth "username" (VStr EmptyString) = Ok username /\
               py_get auth "password" (VStr EmptyString) = Ok password /\
               dict_lookup "basic_auth" endpoint
               = Some (VDict [(KStr "username", username); (KStr "password", password)])
         | Err _ => dict_lookup "basic_auth" endpoint = None
         end) /\
    (length items = 2 -> map c_id cs = [VStr "default"; VStr "client_1"]).
Proof.
  intros Hitems Hwf.
  destruct (sink_components_spec items Hwf 0) as (cs & Hcs & Hlen & Hnth).
  assert (Hshape : forall n sink, nth_error items n = Some sink ->
            exists c url endpoint,
              nth_error cs n = Some c /\
              c = {| c_type := "loki.write"; c_id := VStr (client_id n);
                     c_config := [(KStr "endpoint", VDict endpoint);
                                  (KStr "external_labels", VDict [])] |} /\
              py_getitem sink "url" = Ok url /\
              dict_lookup "url" endpoint = Some url /\
              match py_getitem sink "basic_auth" with
              | Ok auth =>
                  exists username password,
                    py_get auth "username" (VStr EmptyString) = Ok username /\
                    py_get auth "password" (VStr EmptyString) = Ok password /\
                    dict_lookup "basic_auth" endpoint
                    = Some (VDict [(KStr "username", username); (KStr "password", password)])
              | Err _ => dict_lookup "basic_auth" endpoint = None
              end).
  { intros n sink Hn.
    destruct (Hnth n sink Hn) as (c & Hc1 & Hc2). simpl in Hc2.
    assert (Hs : well_formed_sink sink = true).
    { rewrite forallb_forall in Hwf. apply Hwf. eapply nth_error_In; eauto. }
    destruct (client_component_well_formed n sink Hs) as (url & ep & Hu & Hc & Hep & Hauth).
    rewrite Hc in Hc2. injection Hc2 as <-.
    exists {| c_type := "loki.write"; c_id := VStr (client_id n);
              c_config := [(KStr "endpoint", VDict ep); (KStr "external_labels", VDict [])] |},
           url, ep.
    repeat split; assumption. }
  exists cs. split; [|split; [exact Hlen|split]].
  - rewrite _process_clients_emits, clients_components_sinks, Hitems. simpl.
    unfold enumerate. now rewrite Hcs.
  - intros n sink Hn.
    destruct (Hshape n sink Hn) as (c & url & ep & H1 & -> & H3 & H4 & H5).
    exists {| c_type := "loki.write"; c_id := VStr (client_id n);
              c_config := [(KStr "endpoint", VDict ep); (KStr "external_labels", VDict [])] |},
           url, ep.
    repeat split; assumption.
  - intros H2.
    destruct items as [|s0 [|s1 [|? ?]]]; try discriminate H2.
    destruct cs as [|c0 [|c1 [|? ?]]]; try discriminate Hlen.
    destruct (Hshape 0 s0 eq_refl) as (c & ? & ? & [= <-] & -> & _).
    destruct (Hshape 1 s1 eq_refl) as (c & ? & ? & [= <-] & -> & _).
    reflexivity.
Qed.

Lemma sink_identifiers_witness :
  exists cs,
    _process_clients (init two_sinks) = Ok (tt, add_components (init two_sinks) cs) /\
    map c_id cs = [VStr "default"; VStr "client_1"].
Proof.
  destruct (sink_identifiers (init two_sinks) _ eq_refl eq_refl)
    as (cs & H1 & _ & _ & H4).
  exists cs. split; [exact H1 | apply H4; reflexivity].
Defined.

(** C9.  A sink without a [url] makes the translation raise: [migrate]
    returns no text, and neither does the builder return a component list.
    When the sinks before it are well formed, the exception is the
    [KeyError] of the missing field. *)
Theorem missing_url_aborts (config : value) (items : list value) (d : dict) :
  sinks_of config = Ok items ->
  In (VDict d) items ->
  dict_lookup "url" d = None ->
  (exists e, run_migrate config = Err e /\ run_build config = Err e) /\
  (forall before after,
     items = (before ++ VDict d :: after)%list ->
     forallb well_formed_sink before = true ->
     run_migrate config = Err (KeyError "url")).
Proof.
  intros Hitems Hin Hurl.
  assert (Hsink : forall idx, client_component idx (VDict d) = Err (KeyError "url")).
  { intros idx. unfold client_component. simpl. now rewrite Hurl. }
  assert (Hrun : forall e, clients_components config = Err e ->
                           run_migrate config = Err e /\ run_build config = Err e).
  { intros e He. unfold run_migrate, run_build, migrate, build, bindM.
    rewrite _process_clients_emits. simpl. rewrite He. split; reflexivity. }
  split.
  - assert (He : exists e, clients_components config = Err e).
    { rewrite clients_components_sinks, Hitems. simpl. unfold enumerate.
      clear Hitems. generalize 0. induction items as [|x items IH]; [contradiction|].
      intros i. simpl.
      destruct Hin as [->|Hin].
      - rewrite Hsink. simpl. eauto.
      - destruct (client_component i x); simpl; [|eauto].
        destruct (IH Hin (S i)) as [e ->]. simpl. eauto. }
    destruct He as [e He]. exists e. now apply Hrun.
  - intros before after -> Hwf. apply Hrun.
    rewrite clients_components_sinks, Hitems. simpl. unfold enumerate.
    generalize 0. clear Hitems Hin. induction before as [|x before IH]; intros i; simpl.
    + now rewrite Hsink.
    + simpl in Hwf. apply andb_prop in Hwf as [Hx Hb].
      destruct (client_component_well_formed i x Hx) as (? & ? & _ & -> & _).
      simpl. now rewrite (IH Hb (S i)).
Qed.

Lemma missing_url_aborts_witness :
  run_migrate sink_without_url = Err (KeyError "url").
Proof.
  refine (proj2 (missing_url_aborts sink_without_url _ [(KStr "tenant_id", VStr "t")]
                   eq_refl _ eq_refl)
                [VDict [(KStr "url", VStr "http://a/loki/api/v1/push")]] [] eq_refl eq_refl).
  simpl. right. left. reflexivity.
Defined.

Lemma static_components_entries config job_name :
  static_components config job_name =
  (items <- static_entries_of config ;;
   pairs <- mapM (static_pair config job_name) (enumerate items) ;;
   Ok (flat_map pair_list pairs)).
Proof.
  unfold static_components, static_entries_of, bind.
  destruct (py_get config "static_configs" _); reflexivity.
Qed.

Lemma static_pairs_spec config job_name stages items :
  Forall (fun entry => exists pts, entry_path_targets entry = Ok pts) items ->
  inline_stages config = Ok stages ->
  forall i,
  exists pairs,
    mapM (static_pair config job_name) (enumerate_from i items) = Ok pairs /\
    length pairs = length items /\
    forall n entry, nth_error items n = Some entry ->
      exists pts,
        entry_path_targets entry = Ok pts /\
        nth_error pairs n =
          Some (file_match_component (file_match_id job_name (i + n)) pts,
                with_stages (source_file_component (file_match_id job_name (i + n))) stages).
Proof.
  intros Hall Hst. induction Hall as [|entry items [pts Hpts] _ IH]; intros i; simpl.
  - exists []. repeat split. intros [|n] e H; discriminate H.
  - destruct (IH (S i)) as (pairs & Hp & Hlen & Hnth).
    unfold static_pair at 1. simpl. rewrite Hpts, Hst. simpl. rewrite Hp. simpl.
    eexists. split; [reflexivity|]. split; [simpl; congruence|].
    intros [|n] e Hn; simpl in *.
    + injection Hn as <-. rewrite Nat.add_0_r. eauto.
    + destruct (Hnth n e Hn) as (q & Hq1 & Hq2). exists q. split; [exact Hq1|].
      now replace (i + S n) with (S i + n) by lia.
Qed.

Lemma flat_map_pair_list_length (pairs : list (component * component)) :
  length (flat_map pair_list pairs) = 2 * length pairs.
Proof. induction pairs as [|p pairs IH]; simpl; [reflexivity | rewrite IH; lia]. Qed.

(** [_process_static_configs] on its own: for a job whose static-config
    entries decorate their targets and whose pipeline stages (if any)
    translate, it appends one (discovery, source) pair per entry, in entry
    order. *)
Lemma static_pairs_appended (config job_name : value) (self : migrator)
    (items : list value) (stages : string) :
  static_entries_of config = Ok items ->
  Forall (fun entry => exists pts, entry_path_targets entry = Ok pts) items ->
  inline_stages config = Ok stages ->
  exists pairs : list (component * component),
    _process_static_configs config job_name self
    = Ok (tt, add_components self (flat_map (fun p => [fst p; snd p]) pairs)) /\
    length pairs = length items /\
    forall n entry, nth_error items n = Some entry ->
      let id := if (n =? 0)%nat then job_name
                else VStr (py_str job_name ++ "_" ++ str_of_nat n) in
      exists discovery source pts,
        nth_error pairs n = Some (discovery, source) /\
        entry_path_targets entry = Ok pts /\
        discovery = {| c_type := "local.file_match";
                       c_id := id;
                       c_config := [(KStr "path_targets", VList pts)] |} /\
        c_type source = "loki.source.file" /\
        c_id source = id /\
        dict_lookup "targets" (c_config source)
        = Some (VStr ("local.file_match." ++ py_str id ++ ".targets")) /\
        dict_lookup "forward_to" (c_config source)
        = Some (VList [VStr "loki.write.default.receiver"]).
Proof.
  intros Hitems Hall Hst.
  destruct (static_pairs_spec config job_name stages items Hall Hst 0)
    as (pairs & Hp & Hlen & Hnth).
  exists pairs. split; [|split; [exact Hlen|]].
  - rewrite (_process_static_configs_emits config job_name self).
    rewrite static_components_entries, Hitems. simpl. unfold enumerate.
    now rewrite Hp.
  - intros n entry Hn. simpl.
    destruct (Hnth n entry Hn) as (pts & Hpts & Hpair). simpl in Hpair.
    assert (Hid : file_match_id job_name n
                  = if (n =? 0)%nat then job_name
                    else VStr (py_str job_name ++ "_" ++ str_of_nat n)).
    { unfold file_match_id. destruct n; reflexivity. }
    rewrite Hid in Hpair.
    do 3 eexists. split; [exact Hpair|]. split; [exact Hpts|]. split; [reflexivity|].
    unfold with_stages. destruct (nonempty stages); repeat split.
Qed.

Lemma copy_config_kind k from c c' :
  copy_config k from c = Ok c' -> c_type c' = c_type c /\ c_id c' = c_id c.
Proof.
  unfold copy_config, bind.
  destruct (py_in k from) as [[|]|]; try discriminate.
  - destruct (py_getitem from k); [|discriminate]. intros [= <-]. split; reflexivity.
  - intros [= <-]. split; reflexivity.
Qed.

(** What [journal_components] returns: an optional relabel component, the
    journal source, an optional processing component. *)
Lemma journal_components_shape config job_name cs :
  journal_components config job_name = Ok cs ->
  exists needs rules journal process,
    needs_process config = Ok needs /\
    relabel_rules config = Ok rules /\
    c_type journal = "loki.source.journal" /\
    c_id journal = job_name /\
    (process = [] \/ exists stages, process = [process_component job_name stages]) /\
    cs = (match rules with
          | [] => [journal]
          | _ => [relabel_component job_name (journal_forward_to job_name needs) rules;
                  set_config journal "forward_to"
                    (VList [VStr ("loki.relabel." ++ py_str job_name ++ "_relabel.receiver")])]
          end ++ process)%list.
Proof.
  unfold journal_components, bind.
  destruct (py_get config "journal" _) as [jc|]; [|discriminate].
  destruct (needs_process config) as [needs|]; [|discriminate].
  destruct (copy_config "max_age" jc _) as [j1|] eqn:E1; [|discriminate].
  destruct (copy_config "labels" jc j1) as [j2|] eqn:E2; [|discriminate].
  destruct (relabel_rules config) as [rules|]; [|discriminate].
  apply copy_config_kind in E1 as [T1 I1]. apply copy_config_kind in E2 as [T2 I2].
  simpl in T1, I1. rewrite T1 in T2. rewrite I1 in I2.
  intros H. exists needs, rules, j2.
  destruct (py_truth needs).
  - destruct (process_stages config) as [stages|]; [|discriminate].
    injection H as <-. exists [process_component job_name stages].
    split; [reflexivity|]. split; [reflexivity|]. split; [exact T2|]. split; [exact I2|].
    split; [right; eauto | reflexivity].
  - injection H as <-. exists [].
    split; [reflexivity|]. split; [reflexivity|]. split; [exact T2|]. split; [exact I2|].
    split; [now left | reflexivity].
Qed.

Lemma journal_components_source config job_name cs :
  journal_components config job_name = Ok cs ->
  exists j, In j cs /\ c_type j = "loki.source.journal" /\ c_id j = job_name.
Proof.
  intros H. apply journal_components_shape in H
    as (needs & rules & j & process & _ & _ & Ht & Hi & _ & ->).
  destruct rules.
  - exists j. split; [now left | now split].
  - eexists. split; [right; left; reflexivity | now split].
Qed.

(** The loop body of [_process_scrape_configs] on a job that has both
    [static_configs] and [journal]: it runs [_process_static_configs] and
    then [_process_journal_config]. *)
Lemma both_mechanisms_body (config : value) (self : migrator) :
  py_in "static_configs" config = Ok true ->
  py_in "journal" config = Ok true ->
  process_scrape_config config self
  = (job_name <-- lift (py_get config "job_name" (VStr "unknown")) ;;
     _process_static_configs config job_name ;;;
     _process_journal_config config job_name) self
  /\
  forall self',
    process_scrape_config config self = Ok (tt, self') ->
    exists job_name items static journal,
      py_get config "job_name" (VStr "unknown") = Ok job_name /\
      static_entries_of config = Ok items /\
      _process_static_configs config job_name self = Ok (tt, add_components self static) /\
      length static = 2 * length items /\
      _process_journal_config config job_name (add_components self static)
      = Ok (tt, add_components self (static ++ journal)) /\
      self' = add_components self (static ++ journal) /\
      exists j, In j journal /\ c_type j = "loki.source.journal" /\ c_id j = job_name.
Proof.
  intros Hs Hj. split.
  - unfold process_scrape_config, bindM, lift. rewrite Hs, Hj.
    destruct (py_get config "job_name" _); reflexivity.
  - intros self'. rewrite (process_scrape_config_emits config self).
    unfold job_components, bind. rewrite Hs, Hj.
    destruct (py_get config "job_name" _) as [job_name|]; [|discriminate].
    destruct (static_components config job_name) as [static|] eqn:Est; [|discriminate].
    destruct (journal_components config job_name) as [journal|] eqn:Ej; [|discriminate].
    intros [= <-].
    assert (Hitems : exists items, static_entries_of config = Ok items /\
                                   length static = 2 * length items).
    { rewrite static_components_entries in Est.
      destruct (static_entries_of config) as [items|]; [|discriminate].
      simpl in Est.
      destruct (mapM _ (enumerate items)) as [pairs|] eqn:Ep; [|discriminate].
      injection Est as <-. exists items. split; [reflexivity|].
      rewrite flat_map_pair_list_length. apply mapM_length in Ep.
      unfold enumerate in Ep. rewrite enumerate_from_length in Ep. congruence. }
    destruct Hitems as (items & Hitems & Hlen).
    exists job_name, items, static, journal.
    split; [reflexivity|]. split; [exact Hitems|]. split.
    { now rewrite (_process_static_configs_emits config job_name self), Est. }
    split; [exact Hlen|]. split.
    { rewrite (_process_journal_config_emits config job_name _), Ej.
      now rewrite add_components_app. }
    split; [reflexivity|]. eapply journal_components_source; eauto.
Qed.

Lemma key_eqb_KStr x k : key_eqb x (KStr k) = key_is k x.
Proof. destruct x as [s|z|[|]|]; reflexivity. Qed.

Lemma dict_lookup_set_same k v d : dict_lookup k (dict_set (KStr k) v d) = Some v.
Proof.
  induction d as [|[x w] d IH]; simpl.
  - now rewrite String.eqb_refl.
  - rewrite key_eqb_KStr. destruct (key_is k x) eqn:E; simpl; rewrite E; [reflexivity | exact IH].
Qed.

Lemma copy_config_dict k d c :
  exists c', copy_config k (VDict d) c = Ok c' /\ c_type c' = c_type c /\ c_id c' = c_id c.
Proof.
  unfold copy_config. rewrite py_in_dict. simpl.
  destruct (dict_lookup k d); simpl; eexists; repeat split.
Qed.

Lemma relabel_rules_nonempty rc rules :
  _convert_relabel_configs rc = Ok rules -> py_truth rc = true -> rules <> [].
Proof.
  unfold _convert_relabel_configs, bind.
  destruct (py_iter rc) as [items|] eqn:Ei; [|discriminate].
  intros Hm Ht ->. apply mapM_length in Hm. simpl in Hm.
  destruct items; [|discriminate Hm].
  destruct rc as [| | | s |l|d]; try discriminate Ei; injection Ei as E.
  - destruct s; [discriminate Ht | discriminate E].
  - subst l. discriminate Ht.
  - destruct d; [discriminate Ht | discriminate E].
Qed.

(** C2, as stated, fails: a journal job that has [pipeline_stages] and
    [relabel_configs], both empty, yields two components, not four. *)
Lemma journal_empty_lists_two_components :
  (exists job,
     jobs_of journal_empty_lists = Ok [job] /\
     py_in "journal" job = Ok true /\
     py_in "pipeline_stages" job = Ok true /\
     py_in "relabel_configs" job = Ok true) /\
  run_build journal_empty_lists
  = Ok [ {| c_type := "loki.write"; c_id := VStr "default";
            c_config := [(KStr "endpoint",
                          VDict [(KStr "url", VStr "http://sink/loki/api/v1/push")]);
                         (KStr "external_labels", VDict [])] |};
         {| c_type := "loki.source.journal"; c_id := VStr "journal";
            c_config := [(KStr "forward_to", VList [VStr "loki.write.default.receiver"]);
                         (KStr "max_age", VStr "12h")] |} ] /\
  ~ (exists w r j p, run_build journal_empty_lists = Ok [w; r; j; p]).
Proof.
  split; [eexists; repeat split|].
  split; [reflexivity|].
  intros (w & r & j & p & H). discriminate H.
Qed.

(** C2, amended.  In a document with one sink and one job that has a
    [journal] mapping, no [static_configs], non-empty [pipeline_stages] and
    non-empty [relabel_configs] (both translating), the builder returns
    exactly four components, in this order: the write sink ["default"]; the
    relabel component [<job>_relabel], forwarding to the processing
    component of the job; the journal source, forwarding to the relabel
    component; the processing component, forwarding to the default sink. *)
Theorem journal_relabel_process_order (doc job jd : dict) (sink ps rc : value)
    (stages rules : list value) :
  dict_lookup "clients" doc = Some (VList [sink]) ->
  well_formed_sink sink = true ->
  dict_lookup "scrape_configs" doc = Some (VList [VDict job]) ->
  dict_lookup "static_configs" job = None ->
  dict_lookup "journal" job = Some (VDict jd) ->
  dict_lookup "pipeline_stages" job = Some ps ->
  py_truth ps = true ->
  _convert_pipeline_stages_for_process ps = Ok stages ->
  dict_lookup "relabel_configs" job = Some rc ->
  py_truth rc = true ->
  _convert_relabel_configs rc = Ok rules ->
  let job_name :=
    match dict_lookup "job_name" job with Some n => n | None => VStr "unknown" end in
  exists write journal,
    run_build (VDict doc)
    = Ok [ write;
           {| c_type := "loki.relabel";
              c_id := VStr (py_str job_name ++ "_relabel");
              c_config :=
                [(KStr "forward_to",
                  VList [VStr ("loki.process." ++ py_str job_name ++ ".receiver")]);
                 (KStr "_rules", VList rules)] |};
           journal;
           {| c_type := "loki.process";
              c_id := job_name;
              c_config :=
                [(KStr "forward_to", VList [VStr "loki.write.default.receiver"]);
                 (KStr "stages", VList stages)] |} ] /\
    c_type write = "loki.write" /\
    c_id write = VStr "default" /\
    c_type journal = "loki.source.journal" /\
    c_id journal = job_name /\
    dict_lookup "forward_to" (c_config journal)
    = Some (VList [VStr ("loki.relabel." ++ py_str job_name ++ "_relabel.receiver")]).
Proof.
  intros Hclients Hsink Hjobs Hstatic Hjournal Hps Tps Cps Hrc Trc Crc job_name.
  destruct (client_component_well_formed 0 sink Hsink) as (url & ep & _ & Hw & _).
  assert (Hne : rules <> []) by (eapply relabel_rules_nonempty; eauto).
  set (fwd := journal_forward_to job_name ps).
  destruct (copy_config_dict "max_age" jd (journal_base job_name fwd)) as (j1 & E1 & T1 & I1).
  destruct (copy_config_dict "labels" jd j1) as (j2 & E2 & T2 & I2).
  assert (Hjob : job_components (VDict job)
                 = Ok [relabel_component job_name fwd rules;
                       set_config j2 "forward_to"
                         (VList [VStr ("loki.relabel." ++ py_str job_name ++ "_relabel.receiver")]);
                       process_component job_name stages]).
  { unfold job_components. rewrite !py_in_dict. simpl.
    rewrite Hstatic, Hjournal. fold job_name.
    replace (match dict_lookup "job_name" job with
             | Some v => Ok v
             | None => Ok (VStr "unknown")
             end) with (Ok job_name) by (unfold job_name; now destruct (dict_lookup "job_name" job)).
    simpl.
    unfold journal_components, needs_process, relabel_rules, process_stages.
    rewrite !py_in_dict. simpl. rewrite Hjournal, Hps, Hrc. simpl. fold fwd.
    rewrite E1. simpl. rewrite E2. simpl. rewrite Crc, Tps, Cps. simpl.
    destruct rules; [contradiction | reflexivity]. }
  eexists. exists (set_config j2 "forward_to"
              (VList [VStr ("loki.relabel." ++ py_str job_name ++ "_relabel.receiver")])).
  split; [|split; [|split; [|split; [|split]]]].
  - rewrite run_build_eq. unfold document_components, clients_components, jobs_components.
    simpl. rewrite Hclients, Hjobs. simpl. unfold enumerate. simpl.
    rewrite Hw, Hjob. simpl.
    unfold relabel_component, process_component, fwd, journal_forward_to.
    rewrite Tps. reflexivity.
  - reflexivity.
  - reflexivity.
  - simpl. now rewrite T2, T1.
  - simpl. now rewrite I2, I1.
  - simpl. apply dict_lookup_set_same.
Qed.

Lemma journal_relabel_process_order_witness :
  exists comps,
    run_build (VDict journal_job_doc) = Ok comps /\
    map kind_id comps
    = [("loki.write", VStr "default"); ("loki.relabel", VStr "journal_relabel");
       ("loki.source.journal", VStr "journal"); ("loki.process", VStr "journal")].
Proof.
  destruct (journal_relabel_process_order journal_job_doc _ _ _ _ _ _ _
              eq_refl eq_refl eq_refl eq_refl eq_refl eq_refl eq_refl eq_refl
              eq_refl eq_refl eq_refl)
    as (w & j & H & Tw & Iw & Tj & Ij & _).
  eexists. split; [exact H|].
  unfold kind_id. simpl. rewrite Tw, Iw, Tj, Ij. reflexivity.
Defined.

(** *** Identifiers *)

Lemma file_match_id_inj job_name i k :
  file_match_id job_name i = file_match_id job_name k -> i = k.
Proof.
  unfold file_match_id.
  destruct i as [|i], k as [|k]; simpl; intros H; try reflexivity.
  - destruct job_name; try discriminate H. injection H as H. simpl in H.
    exfalso. eapply append_neq_self; [|exact H]. discriminate.
  - destruct job_name; try discriminate H. injection H as H. simpl in H.
    exfalso. eapply append_neq_self; [|symmetry; exact H]. discriminate.
  - injection H as H. apply append_inj_l in H. apply (append_inj_l "_") in H.
    now apply str_of_nat_inj.
Qed.

Lemma client_component_kind idx sink c :
  client_component idx sink = Ok c ->
  c_type c = "loki.write" /\ c_id c = VStr (client_id idx).
Proof.
  destruct (well_formed_sink sink) eqn:E.
  - destruct (client_component_well_formed idx sink E) as (? & ? & _ & -> & _).
    intros [= <-]. split; reflexivity.
  - destruct (client_component_ill_formed idx sink E) as [e ->]. discriminate.
Qed.

Lemma sink_kinds items : forall i cs,
  mapM (fun ic => client_component (fst ic) (snd ic)) (enumerate_from i items) = Ok cs ->
  map kind_id cs = map (fun n => ("loki.write", VStr (client_id n))) (seq i (length items)).
Proof.
  induction items as [|sink items IH]; simpl; intros i cs H.
  - now injection H as <-.
  - destruct (client_component i sink) as [c|] eqn:Ec; simpl in H; [|discriminate].
    destruct (mapM _ (enumerate_from (S i) items)) as [cs'|] eqn:Em; simpl in H; [|discriminate].
    injection H as <-. simpl. rewrite (IH _ _ Em).
    apply client_component_kind in Ec as [T I]. unfold kind_id at 1. now rewrite T, I.
Qed.

Lemma sink_ids_nodup i n :
  NoDup (map (fun k => VStr (client_id k)) (seq i n)).
Proof.
  revert i. induction n as [|n IH]; intros i; simpl; constructor; [|apply IH].
  rewrite in_map_iff. intros (k & Hk & Hin). apply in_seq in Hin.
  injection Hk as Hk. apply client_id_inj in Hk. lia.
Qed.

Lemma static_pair_kinds config job_name items : forall i pairs,
  mapM (static_pair config job_name) (enumerate_from i items) = Ok pairs ->
  map kind_id (flat_map pair_list pairs) = static_kinds job_name i (length items).
Proof.
  induction items as [|entry items IH]; simpl; intros i pairs H.
  - now injection H as <-.
  - destruct (static_pair config job_name (i, entry)) as [p|] eqn:Ep; simpl in H; [|discriminate].
    destruct (mapM _ (enumerate_from (S i) items)) as [ps|] eqn:Em; simpl in H; [|discriminate].
    injection H as <-. simpl. unfold static_kinds in *. simpl. rewrite (IH _ _ Em).
    unfold static_pair, bind in Ep. simpl in Ep.
    destruct (entry_path_targets entry); [|discriminate].
    destruct (inline_stages config) as [s|]; [|discriminate].
    injection Ep as <-. unfold with_stages. destruct (nonempty s); reflexivity.
Qed.

Lemma in_static_kinds job_name i n x :
  In x (static_kinds job_name i n) ->
  exists k, i <= k < i + n /\
            (x = ("local.file_match", file_match_id job_name k) \/
             x = ("loki.source.file", file_match_id job_name k)).
Proof.
  unfold static_kinds. rewrite in_flat_map. intros (k & Hk & Hx).
  apply in_seq in Hk. exists k. split; [exact Hk|].
  destruct Hx as [<-|[<-|[]]]; auto.
Qed.

Lemma static_kinds_nodup job_name n : forall i, NoDup (static_kinds job_name i n).
Proof.
  induction n as [|n IH]; intros i; [constructor|].
  change (static_kinds job_name i (S n))
    with (("local.file_match", file_match_id job_name i)
            :: ("loki.source.file", file_match_id job_name i)
            :: static_kinds job_name (S i) n).
  constructor; [|constructor; [|apply IH]].
  - intros [H|H]; [discriminate H|].
    apply in_static_kinds in H as (k & Hk & [H|H]); [|discriminate H].
    injection H as H. apply file_match_id_inj in H. lia.
  - intros H. apply in_static_kinds in H as (k & Hk & [H|H]); [discriminate H|].
    injection H as H. apply file_match_id_inj in H. lia.
Qed.

Lemma static_components_kinds config job_name cs :
  static_components config job_name = Ok cs ->
  NoDup (map kind_id cs) /\
  forall x, In x (map kind_id cs) -> fst x = "local.file_match" \/ fst x = "loki.source.file".
Proof.
  rewrite static_components_entries. unfold bind.
  destruct (static_entries_of config) as [items|]; [|discriminate].
  destruct (mapM _ (enumerate items)) as [pairs|] eqn:Ep; [|discriminate].
  intros [= <-]. rewrite (static_pair_kinds _ _ _ _ _ Ep). split.
  - apply static_kinds_nodup.
  - intros x Hx. apply in_static_kinds in Hx as (k & _ & [->| ->]); auto.
Qed.

Lemma journal_components_kinds config job_name cs :
  journal_components config job_name = Ok cs ->
  NoDup (map kind_id cs) /\
  forall x, In x (map kind_id cs) ->
    fst x = "loki.relabel" \/ fst x = "loki.source.journal" \/ fst x = "loki.process".
Proof.
  intros H. apply journal_components_shape in H
    as (needs & rules & j & process & _ & _ & Tj & Ij & Hp & ->).
  assert (Kj : kind_id j = ("loki.source.journal", job_name))
    by (unfold kind_id; now rewrite Tj, Ij).
  assert (Ks : forall v, kind_id (set_config j "forward_to" v) = ("loki.source.journal", job_name))
    by (intros; exact Kj).
  destruct Hp as [->|[stages ->]]; destruct rules as [|r rules]; simpl;
    rewrite ?Kj, ?Ks; unfold kind_id; simpl; split;
    try (repeat constructor; simpl; intuition discriminate);
    intros x Hx; simpl in Hx; intuition (subst; auto).
Qed.

Lemma job_components_kinds config cs :
  job_components config = Ok cs ->
  NoDup (map kind_id cs) /\ forall x, In x (map kind_id cs) -> job_kind (fst x).
Proof.
  unfold job_components, bind.
  destruct (py_get config "job_name" _) as [job_name|]; [|discriminate].
  destruct (py_in "static_configs" config) as [hs|]; [|discriminate].
  destruct (if hs then static_components config job_name else Ok []) as [static|] eqn:Es;
    [|discriminate].
  destruct (py_in "journal" config) as [hj|]; [|discriminate].
  destruct (if hj then journal_components config job_name else Ok []) as [journal|] eqn:Ej;
    [|discriminate].
  intros [= <-].
  assert (Hs : NoDup (map kind_id static) /\
               forall x, In x (map kind_id static) ->
                         fst x = "local.file_match" \/ fst x = "loki.source.file").
  { destruct hs; [now apply static_components_kinds in Es|].
    injection Es as <-. split; [constructor | intros x []]. }
  assert (Hj : NoDup (map kind_id journal) /\
               forall x, In x (map kind_id journal) ->
                 fst x = "loki.relabel" \/ fst x = "loki.source.journal" \/
                 fst x = "loki.process").
  { destruct hj; [now apply journal_components_kinds in Ej|].
    injection Ej as <-. split; [constructor | intros x []]. }
  destruct Hs as [Ns Ts], Hj as [Nj Tj].
  rewrite map_app. split.
  - apply NoDup_app; try assumption.
    intros x Hx Hx'. apply Ts in Hx. apply Tj in Hx'.
    destruct Hx as [Hx|Hx]; rewrite Hx in Hx'; intuition discriminate.
  - intros x Hx. apply in_app_or in Hx as [Hx|Hx]; unfold job_kind.
    + apply Ts in Hx. intuition.
    + apply Tj in Hx. intuition.
Qed.

Lemma mapM_Forall2 {A B} (f : A -> result B) (l : list A) (bs : list B) :
  mapM f l = Ok bs -> Forall2 (fun a b => f a = Ok b) l bs.
Proof.
  revert bs. induction l as [|a l IH]; simpl; intros bs H.
  - injection H as <-. constructor.
  - destruct (f a) eqn:Ea; simpl in H; [|discriminate].
    destruct (mapM f l); simpl in H; [|discriminate].
    injection H as <-. constructor; auto.
Qed.

Lemma one_static_job_build : run_build one_static_job = Ok one_static_job_components.
Proof. reflexivity. Qed.

Lemma app_twice : ~ NoDup [VStr "default"; VStr "app"; VStr "app"].
Proof.
  intros H. inversion H as [|x l Hx Hl]; subst.
  inversion Hl as [|y l' Hy _]; subst. apply Hy. now left.
Qed.

(** C1, as stated, fails: the discovery component and its source share
    the identifier ["app"]. *)
Lemma shared_identifier :
  run_build one_static_job = Ok one_static_job_components /\
  map c_id one_static_job_components = [VStr "default"; VStr "app"; VStr "app"] /\
  ~ NoDup (map c_id one_static_job_components).
Proof.
  split; [reflexivity|]. split; [reflexivity|]. exact app_twice.
Qed.

(** The suffix counter of the class, on its own: successive calls number
    a component type from 1.  No builder method calls it. *)
Example _get_component_id_twice :
  (a <-- _get_component_id "loki.write" ;;
   b <-- _get_component_id "loki.write" ;;
   ret (a, b)) (init VNull)
  = Ok (("loki.write_1", "loki.write_2"),
        {| promtail_config := VNull;
           alloy_components := [];
           component_counter := [("loki.write", 2)] |}).
Proof. reflexivity. Qed.

(** *** The build as a whole

    What [run_build] returns: the sink components, then the components of
    every job, job after job. *)

Lemma build_jobs (document : value) (comps : list component) :
  run_build document = Ok comps ->
  exists sinks jobs per_job,
    clients_components document = Ok sinks /\
    jobs_of document = Ok jobs /\
    mapM job_components jobs = Ok per_job /\
    comps = (sinks ++ concat per_job)%list.
Proof.
  rewrite run_build_eq. unfold document_components, bind.
  destruct (clients_components document) as [sinks|]; [|discriminate].
  destruct (jobs_components document) as [per_job|] eqn:Ej; [|discriminate].
  intros [= <-]. unfold jobs_components, jobs_of, bind in *.
  destruct (py_get document "scrape_configs" _) as [sc|]; [|discriminate].
  destruct (py_iter sc) as [jobs|]; [|discriminate].
  exists sinks, jobs, per_job. repeat split. exact Ej.
Qed.

Lemma sinks_are_writes (document : value) (sinks : list component) :
  clients_components document = Ok sinks ->
  Forall (fun c => c_type c = "loki.write") sinks.
Proof.
  rewrite clients_components_sinks. unfold bind.
  destruct (sinks_of document) as [items|]; [|discriminate].
  intros H. apply mapM_Forall2 in H.
  induction H as [|ic c ics cs Hc _ IH]; constructor; [|exact IH].
  now apply client_component_kind in Hc.
Qed.

(** The components of a job that has [static_configs]. *)
Lemma job_static_pairs (job : value) (cs : list component) :
  job_components job = Ok cs ->
  py_in "static_configs" job = Ok true ->
  exists job_name items pairs others,
    py_get job "job_name" (VStr "unknown") = Ok job_name /\
    static_entries_of job = Ok items /\
    cs = (flat_map (fun p => [fst p; snd p]) pairs ++ others)%list /\
    Forall (fun c => c_type c <> "local.file_match" /\ c_type c <> "loki.source.file")
           others /\
    length pairs = length items /\
    forall n entry, nth_error items n = Some entry ->
      let id := if (n =? 0)%nat then job_name
                else VStr (py_str job_name ++ "_" ++ str_of_nat n) in
      exists discovery source pts,
        nth_error pairs n = Some (discovery, source) /\
        entry_path_targets entry = Ok pts /\
        discovery = {| c_type := "local.file_match";
                       c_id := id;
                       c_config := [(KStr "path_targets", VList pts)] |} /\
        c_type source = "loki.source.file" /\
        c_id source = id /\
        dict_lookup "targets" (c_config source)
        = Some (VStr ("local.file_match." ++ py_str id ++ ".targets")) /\
        dict_lookup "forward_to" (c_config source)
        = Some (VList [VStr "loki.write.default.receiver"]).
Proof.
  unfold job_components, bind. intros H Hs. rewrite Hs in H.
  destruct (py_get job "job_name" _) as [job_name|]; [|discriminate].
  destruct (static_components job job_name) as [static|] eqn:Est; [|discriminate].
  destruct (py_in "journal" job) as [hj|]; [|discriminate].
  destruct (if hj then journal_components job job_name else Ok []) as [journal|] eqn:Ej;
    [|discriminate].
  injection H as <-.
  rewrite static_components_entries in Est. unfold bind in Est.
  destruct (static_entries_of job) as [items|]; [|discriminate].
  destruct (mapM _ (enumerate items)) as [pairs|] eqn:Ep; [|discriminate].
  injection Est as <-.
  exists job_name, items, pairs, journal.
  split; [reflexivity|]. split; [reflexivity|]. split; [reflexivity|].
  split; [|split].
  - destruct hj; [|injection Ej as <-; constructor].
    apply journal_components_kinds in Ej as [_ Hk].
    apply Forall_forall. intros c Hc.
    assert (Hx : In (kind_id c) (map kind_id journal)) by now apply in_map.
    apply Hk in Hx. simpl in Hx.
    destruct Hx as [Hx|[Hx|Hx]]; rewrite Hx; split; discriminate.
  - apply mapM_length in Ep. unfold enumerate in Ep.
    now rewrite enumerate_from_length in Ep.
  - intros n entry Hn.
    pose proof (enumerate_from_nth 0 items n entry Hn) as He.
    destruct (mapM_nth _ _ _ Ep n _ He) as (pair & Hpair & Hsp).
    unfold static_pair, bind in Hsp. cbn [fst snd] in Hsp.
    destruct (entry_path_targets entry) as [pts|]; [|discriminate].
    destruct (inline_stages job) as [stages|]; [|discriminate].
    injection Hsp as <-. cbn [Nat.add] in Hpair.
    assert (Hid : file_match_id job_name n
                  = if (n =? 0)%nat then job_name
                    else VStr (py_str job_name ++ "_" ++ str_of_nat n)).
    { unfold file_match_id. destruct n; reflexivity. }
    rewrite Hid in Hpair. cbv zeta.
    do 3 eexists. split; [exact Hpair|]. split; [reflexivity|]. split; [reflexivity|].
    unfold with_stages. destruct (nonempty stages); repeat split.
Qed.

(** C5.  In the list the build returns, the components of the jobs follow
    the sink components, job after job.  A job that has [static_configs]
    contributes exactly one (discovery, source) pair per static-config
    entry, in entry order, and after the pairs nothing of these two kinds.
    The discovery component of entry [n] is a [local.file_match]
    identified by the job name when [n = 0] and by [<job>_<n>] otherwise;
    its source is a [loki.source.file] with the same identifier, whose
    [targets] refer to the discovery component and whose [forward_to] is
    the receiver of the default sink. *)
Theorem static_config_pairs (document : value) (comps : list component) :
  run_build document = Ok comps ->
  exists (sinks : list component) (jobs : list value) (per_job : list (list component)),
    jobs_of document = Ok jobs /\
    comps = (sinks ++ concat per_job)%list /\
    Forall (fun c => c_type c = "loki.write") sinks /\
    Forall2
      (fun job cs =>
         py_in "static_configs" job = Ok true ->
         exists job_name items pairs others,
           py_get job "job_name" (VStr "unknown") = Ok job_name /\
           static_entries_of job = Ok items /\
           cs = (flat_map (fun p => [fst p; snd p]) pairs ++ others)%list /\
           Forall (fun c => c_type c <> "local.file_match" /\
                            c_type c <> "loki.source.file") others /\
           length pairs = length items /\
           forall n entry, nth_error items n = Some entry ->
             let id := if (n =? 0)%nat then job_name
                       else VStr (py_str job_name ++ "_" ++ str_of_nat n) in
             exists discovery source pts,
               nth_error pairs n = Some (discovery, source) /\
               entry_path_targets entry = Ok pts /\
               discovery = {| c_type := "local.file_match";
                              c_id := id;
                              c_config := [(KStr "path_targets", VList pts)] |} /\
               c_type source = "loki.source.file" /\
               c_id source = id /\
               dict_lookup "targets" (c_config source)
               = Some (VStr ("local.file_match." ++ py_str id ++ ".targets")) /\
               dict_lookup "forward_to" (c_config source)
               = Some (VList [VStr "loki.write.default.receiver"]))
      jobs per_job.
Proof.
  intros H. apply build_jobs in H as (sinks & jobs & per_job & Hc & Hj & Hm & ->).
  exists sinks, jobs, per_job.
  split; [exact Hj|]. split; [reflexivity|]. split; [exact (sinks_are_writes _ _ Hc)|].
  apply mapM_Forall2 in Hm.
  eapply Forall2_impl; [|exact Hm].
  intros job cs Hcs Hs. exact (job_static_pairs job cs Hcs Hs).
Qed.

Lemma static_config_pairs_witness :
  exists sinks pairs others,
    run_build app_document
    = Ok (sinks ++ concat [flat_map (fun p => [fst p; snd p]) pairs ++ others])%list /\
    Forall (fun c => c_type c = "loki.write") sinks /\
    length pairs = 2.
Proof.
  destruct (run_build app_document) as [comps|e] eqn:Hb; [|discriminate Hb].
  destruct (static_config_pairs app_document comps Hb)
    as (sinks & jobs & per_job & Hj & -> & Hs & HF).
  injection Hj as <-.
  inversion HF as [|job cs js css Hjob Hrest]; subst.
  inversion Hrest; subst.
  destruct (Hjob eq_refl) as (name & items & pairs & others & _ & Hi & -> & _ & Hl & _).
  injection Hi as <-.
  exists sinks, pairs, others. split; [reflexivity|]. split; [exact Hs | exact Hl].
Defined.

(** The components of a job that has both [static_configs] and
    [journal]. *)
Lemma job_both_mechanisms (job : value) (cs : list component) :
  job_components job = Ok cs ->
  py_in "static_configs" job = Ok true ->
  py_in "journal" job = Ok true ->
  exists job_name items static journal,
    py_get job "job_name" (VStr "unknown") = Ok job_name /\
    static_entries_of job = Ok items /\
    cs = (static ++ journal)%list /\
    map kind_id static = static_kinds job_name 0 (length items) /\
    (forall self,
       _process_static_configs job job_name self = Ok (tt, add_components self static)) /\
    (forall self,
       _process_journal_config job job_name self = Ok (tt, add_components self journal)) /\
    exists j, In j journal /\ c_type j = "loki.source.journal" /\ c_id j = job_name.
Proof.
  unfold job_components, bind. intros H Hs Hj. rewrite Hs, Hj in H.
  destruct (py_get job "job_name" _) as [job_name|]; [|discriminate].
  destruct (static_components job job_name) as [static|] eqn:Est; [|discriminate].
  destruct (journal_components job job_name) as [journal|] eqn:Ej; [|discriminate].
  injection H as <-.
  assert (Hitems : exists items, static_entries_of job = Ok items /\
                     map kind_id static = static_kinds job_name 0 (length items)).
  { pose proof Est as Est'. rewrite static_components_entries in Est'. unfold bind in Est'.
    destruct (static_entries_of job) as [items|]; [|discriminate].
    destruct (mapM _ (enumerate items)) as [pairs|] eqn:Ep; [|discriminate].
    injection Est' as <-. exists items. split; [reflexivity|].
    exact (static_pair_kinds _ _ _ _ _ Ep). }
  destruct Hitems as (items & Hitems & Hk).
  exists job_name, items, static, journal.
  split; [reflexivity|]. split; [exact Hitems|]. split; [reflexivity|].
  split; [exact Hk|]. split; [|split].
  - intros self. now rewrite (_process_static_configs_emits job job_name self), Est.
  - intros self. now rewrite (_process_journal_config_emits job job_name self), Ej.
  - eapply journal_components_source; eauto.
Qed.

(** C10.  In the list the build returns, the components of the jobs
    follow the sink components, job after job.  A job that has both
    [static_configs] and [journal] contributes the components of both
    mechanisms: first what [_process_static_configs] appends, a discovery
    and a source for every static-config entry, then what
    [_process_journal_config] appends, the journal source among it.  The
    two tests of the loop are independent. *)
Theorem static_and_journal_both (document : value) (comps : list component) :
  run_build document = Ok comps ->
  exists (sinks : list component) (jobs : list value) (per_job : list (list component)),
    jobs_of document = Ok jobs /\
    comps = (sinks ++ concat per_job)%list /\
    Forall (fun c => c_type c = "loki.write") sinks /\
    Forall2
      (fun job cs =>
         py_in "static_configs" job = Ok true ->
         py_in "journal" job = Ok true ->
         exists job_name items static journal,
           py_get job "job_name" (VStr "unknown") = Ok job_name /\
           static_entries_of job = Ok items /\
           cs = (static ++ journal)%list /\
           map kind_id static = static_kinds job_name 0 (length items) /\
           (forall self,
              _process_static_configs job job_name self
              = Ok (tt, add_components self static)) /\
           (forall self,
              _process_journal_config job job_name self
              = Ok (tt, add_components self journal)) /\
           exists j, In j journal /\ c_type j = "loki.source.journal" /\ c_id j = job_name)
      jobs per_job.
Proof.
  intros H. apply build_jobs in H as (sinks & jobs & per_job & Hc & Hj & Hm & ->).
  exists sinks, jobs, per_job.
  split; [exact Hj|]. split; [reflexivity|]. split; [exact (sinks_are_writes _ _ Hc)|].
  apply mapM_Forall2 in Hm.
  eapply Forall2_impl; [|exact Hm].
  intros job cs Hcs Hs Hjn. exact (job_both_mechanisms job cs Hcs Hs Hjn).
Qed.

Lemma static_and_journal_both_witness :
  exists sinks static journal j,
    run_build mixed_document = Ok (sinks ++ concat [static ++ journal])%list /\
    map kind_id static
    = [("local.file_match", VStr "mixed"); ("loki.source.file", VStr "mixed")] /\
    In j journal /\ kind_id j = ("loki.source.journal", VStr "mixed").
Proof.
  destruct (run_build mixed_document) as [comps|e] eqn:Hb; [|discriminate Hb].
  destruct (static_and_journal_both mixed_document comps Hb)
    as (sinks & jobs & per_job & Hj & -> & Hs & HF).
  injection Hj as <-.
  inversion HF as [|job cs js css Hjob Hrest]; subst.
  inversion Hrest; subst.
  destruct (Hjob eq_refl eq_refl)
    as (name & items & static & journal & Hn & Hi & -> & Hk & _ & _ & j & Hin & Ht & Hid).
  injection Hn as <-. injection Hi as <-.
  exists sinks, static, journal, j. split; [reflexivity|]. split; [exact Hk|].
  split; [exact Hin|]. unfold kind_id. now rewrite Ht, Hid.
Defined.

(** *** Labels over the whole document *)

Lemma append_inj_r (a b s : string) : a ++ s = b ++ s -> a = b.
Proof.
  revert b. induction a as [|c a IH]; intros [|d b] H; simpl in H.
  - reflexivity.
  - exfalso. apply (f_equal String.length) in H. simpl in H.
    rewrite length_append in H. lia.
  - exfalso. apply (f_equal String.length) in H. simpl in H.
    rewrite length_append in H. lia.
  - injection H as -> H. now rewrite (IH b H).
Qed.

Lemma file_match_label job_name n :
  py_str (file_match_id job_name n)
  = match n with
    | O => py_str job_name
    | S _ => py_str job_name ++ "_" ++ str_of_nat n
    end.
Proof. unfold file_match_id. destruct n; reflexivity. Qed.

Lemma file_match_label_inj job_name i k :
  py_str (file_match_id job_name i) = py_str (file_match_id job_name k) -> i = k.
Proof.
  rewrite !file_match_label. destruct i as [|i], k as [|k]; intros H; try reflexivity.
  - exfalso. eapply append_neq_self; [|exact H]. discriminate.
  - exfalso. eapply append_neq_self; [|symmetry; exact H]. discriminate.
  - apply append_inj_l in H. apply (append_inj_l "_") in H. now apply str_of_nat_inj.
Qed.

Lemma in_static_labels job_name i n x :
  In x (map labelled (static_kinds job_name i n)) ->
  exists k, i <= k < i + n /\
            (x = ("local.file_match", py_str (file_match_id job_name k)) \/
             x = ("loki.source.file", py_str (file_match_id job_name k))).
Proof.
  intros H. apply in_map_iff in H as (y & <- & Hy).
  apply in_static_kinds in Hy as (k & Hk & [-> | ->]); exists k; auto.
Qed.

Lemma static_labels_nodup job_name n : forall i,
  NoDup (map labelled (static_kinds job_name i n)).
Proof.
  induction n as [|n IH]; intros i; [constructor|].
  change (static_kinds job_name i (S n))
    with (("local.file_match", file_match_id job_name i)
            :: ("loki.source.file", file_match_id job_name i)
            :: static_kinds job_name (S i) n).
  cbn [map]. constructor; [|constructor; [|apply IH]].
  - intros [H|H]; [discriminate H|].
    apply in_static_labels in H as (k & Hk & [H|H]); [|discriminate H].
    injection H as H. apply file_match_label_inj in H. lia.
  - intros H. apply in_static_labels in H as (k & Hk & [H|H]); [discriminate H|].
    injection H as H. apply file_match_label_inj in H. lia.
Qed.

Lemma sink_labels_nodup i n :
  NoDup (map (fun k => ("loki.write", client_id k)) (seq i n)).
Proof.
  revert i. induction n as [|n IH]; intros i; simpl; constructor; [|apply IH].
  rewrite in_map_iff. intros (k & Hk & Hin). apply in_seq in Hin.
  injection Hk as Hk. apply client_id_inj in Hk. lia.
Qed.

Lemma map_label_of (cs : list component) :
  map label_of cs = map labelled (map kind_id cs).
Proof. now rewrite map_map. Qed.

Lemma job_labels_entries job job_name items k :
  py_get job "job_name" (VStr "unknown") = Ok job_name ->
  static_entries_of job = Ok items ->
  k < length items ->
  In (py_str (file_match_id job_name k)) (job_labels job).
Proof.
  intros Hn Hi Hk. unfold job_labels. rewrite Hn, Hi, file_match_label.
  destruct k as [|k]; [now left|]. right.
  apply in_map_iff. exists (S k). split; [reflexivity|]. apply in_seq. lia.
Qed.

Lemma job_labels_name job job_name :
  py_get job "job_name" (VStr "unknown") = Ok job_name ->
  In (py_str job_name) (job_labels job).
Proof. intros Hn. unfold job_labels. rewrite Hn. now left. Qed.

Lemma no_static_entries job job_name :
  py_get job "job_name" (VStr "unknown") = Ok job_name ->
  py_in "static_configs" job = Ok false ->
  static_entries_of job = Ok [].
Proof.
  destruct job as [| | | | |d]; try discriminate. intros _.
  rewrite py_in_dict. unfold static_entries_of. simpl.
  destruct (dict_lookup "static_configs" d); [discriminate | reflexivity].
Qed.

Lemma NoDup_app_disjoint {A} (l l' : list A) :
  NoDup (l ++ l') -> forall x, In x l -> In x l' -> False.
Proof.
  induction l as [|a l IH]; simpl; intros H x Hx Hx'; [contradiction|].
  inversion H as [|? ? Ha Hl]; subst. destruct Hx as [->|Hx].
  - apply Ha. apply in_or_app. now right.
  - exact (IH Hl x Hx Hx').
Qed.

(** The labels of the components of one job. *)
Lemma job_components_labels (job : value) (cs : list component) :
  job_components job = Ok cs ->
  Forall (fun c => job_kind (c_type c) /\ derived_from job (label_of c)) cs /\
  NoDup (map label_of cs).
Proof.
  intros H. pose proof (job_components_kinds job cs H) as [_ Hkinds].
  unfold job_components, bind in H.
  destruct (py_get job "job_name" _) as [job_name|] eqn:Hn; [|discriminate].
  destruct (py_in "static_configs" job) as [hs|] eqn:Hs; [|discriminate].
  destruct (if hs then static_components job job_name else Ok []) as [static|] eqn:Est;
    [|discriminate].
  destruct (py_in "journal" job) as [hj|]; [|discriminate].
  destruct (if hj then journal_components job job_name else Ok []) as [journal|] eqn:Ej;
    [|discriminate].
  injection H as <-.
  assert (Hst : exists items,
            static_entries_of job = Ok items /\
            map label_of static = map labelled (static_kinds job_name 0 (length items))).
  { destruct hs.
    - rewrite static_components_entries in Est. unfold bind in Est.
      destruct (static_entries_of job) as [items|]; [|discriminate].
      destruct (mapM _ (enumerate items)) as [pairs|] eqn:Ep; [|discriminate].
      injection Est as <-. exists items. split; [reflexivity|].
      now rewrite map_label_of, (static_pair_kinds _ _ _ _ _ Ep).
    - injection Est as <-. exists []. split; [|reflexivity].
      exact (no_static_entries job job_name Hn Hs). }
  destruct Hst as (items & Hitems & Hsl).
  assert (Hjl : map label_of journal = []
                \/ exists tail,
                     (map label_of journal
                      = ("loki.source.journal", py_str job_name) :: tail
                      \/ map label_of journal
                         = ("loki.relabel", py_str job_name ++ "_relabel")
                             :: ("loki.source.journal", py_str job_name) :: tail) /\
                     (tail = [] \/ tail = [("loki.process", py_str job_name)])).
  { destruct hj; [|injection Ej as <-; now left]. right.
    apply journal_components_shape in Ej
      as (needs & rules & j & process & _ & _ & Tj & Ij & Hp & ->).
    assert (Lj : label_of j = ("loki.source.journal", py_str job_name))
      by (unfold label_of, labelled, kind_id; cbn [fst snd]; now rewrite Tj, Ij).
    assert (Ls : forall v, label_of (set_config j "forward_to" v)
                           = ("loki.source.journal", py_str job_name))
      by (intros; exact Lj).
    exists (map label_of process). split.
    - destruct rules as [|r rules]; rewrite map_app; cbn [map app].
      + left. now rewrite Lj.
      + right. now rewrite Ls.
    - destruct Hp as [->|[stages ->]]; [now left | now right]. }
  split.
  - apply Forall_forall. intros c Hc. split.
    { apply (Hkinds (kind_id c)). now apply in_map. }
    apply in_app_or in Hc as [Hc|Hc].
    + assert (Hx : In (label_of c) (map label_of static)) by now apply in_map.
      rewrite Hsl in Hx. apply in_static_labels in Hx as (k & Hk & Hx).
      left. destruct Hx as [-> | ->]; (split; [discriminate|]);
        apply (job_labels_entries job job_name items k Hn Hitems); lia.
    + assert (Hx : In (label_of c) (map label_of journal)) by now apply in_map.
      pose proof (job_labels_name job job_name Hn) as Hname.
      destruct Hjl as [Hjl|(tail & Hjl & Htail)]; [rewrite Hjl in Hx; contradiction|].
      assert (Hcases : label_of c = ("loki.source.journal", py_str job_name)
                       \/ label_of c = ("loki.process", py_str job_name)
                       \/ label_of c = ("loki.relabel", py_str job_name ++ "_relabel")).
      { destruct Hjl as [Hjl|Hjl], Htail as [-> | ->]; rewrite Hjl in Hx;
          cbn [In] in Hx; intuition auto. }
      destruct Hcases as [-> | [-> | ->]].
      * left. split; [discriminate | exact Hname].
      * left. split; [discriminate | exact Hname].
      * right. split; [reflexivity|]. exists job_name. now split.
  - rewrite map_app. apply NoDup_app.
    + rewrite Hsl. apply static_labels_nodup.
    + destruct Hjl as [Hjl|(tail & Hjl & Htail)]; [rewrite Hjl; constructor|].
      destruct Hjl as [Hjl|Hjl], Htail as [-> | ->]; rewrite Hjl;
        repeat constructor; cbn [In]; intuition discriminate.
    + intros x Hx Hx'. rewrite Hsl in Hx.
      apply in_static_labels in Hx as (k & _ & Hx).
      destruct Hjl as [Hjl|(tail & Hjl & Htail)]; [rewrite Hjl in Hx'; contradiction|].
      destruct Hjl as [Hjl|Hjl], Htail as [-> | ->]; rewrite Hjl in Hx';
        cbn [In] in Hx'; destruct Hx as [-> | ->]; intuition discriminate.
Qed.

Lemma derived_disjoint (job job' : value) (x : string * string) :
  derived_from job x -> derived_from job' x ->
  exists name, In name (job_labels job) /\ In name (job_labels job').
Proof.
  intros [[Hk Hin]|[Hk (name & Hn & Hx)]] [[Hk' Hin']|[Hk' (name' & Hn' & Hx')]].
  - eauto.
  - contradiction.
  - contradiction.
  - rewrite Hx in Hx'. apply append_inj_r in Hx'.
    exists (py_str name). split; [exact (job_labels_name job name Hn)|].
    rewrite Hx'. exact (job_labels_name job' name' Hn').
Qed.

Lemma jobs_labels_nodup (jobs : list value) (per_job : list (list component)) :
  Forall2 (fun job cs =>
             Forall (fun c => job_kind (c_type c) /\ derived_from job (label_of c)) cs /\
             NoDup (map label_of cs)) jobs per_job ->
  NoDup (concat (map job_labels jobs)) ->
  NoDup (map label_of (concat per_job)) /\
  forall c, In c (concat per_job) ->
            job_kind (c_type c) /\
            exists job, In job jobs /\ derived_from job (label_of c).
Proof.
  induction 1 as [|job cs jobs per_job [Hd Hn] _ IH]; intros Hl.
  - split; [constructor | intros c []].
  - cbn [map concat] in Hl.
    destruct (IH (NoDup_app_remove_l _ _ Hl)) as [IHn IHd]. cbn [concat].
    rewrite Forall_forall in Hd. split.
    + rewrite map_app. apply NoDup_app; [exact Hn | exact IHn|].
      intros x Hx Hx'.
      apply in_map_iff in Hx as (c & <- & Hc).
      apply in_map_iff in Hx' as (c' & Heq & Hc').
      destruct (IHd c' Hc') as (_ & job' & Hjob' & Hd').
      rewrite Heq in Hd'.
      destruct (derived_disjoint job job' _ (proj2 (Hd c Hc)) Hd') as (name & H1 & H2).
      apply (NoDup_app_disjoint _ _ Hl name H1).
      apply in_concat. exists (job_labels job'). split; [|exact H2].
      now apply in_map.
    + intros c Hc. apply in_app_or in Hc as [Hc|Hc].
      * split; [exact (proj1 (Hd c Hc))|].
        exists job. split; [now left | exact (proj2 (Hd c Hc))].
      * destruct (IHd c Hc) as (Hk & job' & Hjob' & Hd').
        split; [exact Hk|]. exists job'. split; [now right | exact Hd'].
Qed.

(** C1, amended.  In every translated document the components of the jobs
    follow the sink components, job after job.  The sinks are labelled
    [default], [client_1], ... by position; every other component is
    labelled with a name derived from its job: the job name, [<job>_<n>]
    for the [n]th static-config entry, or [<job>_relabel] for the relabel
    component.  Within a job no two components share both kind and
    identifier, and when the names derived from the jobs are pairwise
    distinct, no two components of the whole list do. *)
Theorem kind_and_identifier_unique (document : value) (comps : list component) :
  run_build document = Ok comps ->
  exists (sinks : list component) (jobs : list value) (per_job : list (list component)),
    jobs_of document = Ok jobs /\
    comps = (sinks ++ concat per_job)%list /\
    map label_of sinks
    = map (fun k => ("loki.write", client_id k)) (seq 0 (length sinks)) /\
    Forall2 (fun job cs =>
               Forall (fun c => job_kind (c_type c) /\ derived_from job (label_of c)) cs /\
               NoDup (map label_of cs)) jobs per_job /\
    (NoDup (concat (map job_labels jobs)) -> NoDup (map label_of comps)).
Proof.
  intros H. apply build_jobs in H as (sinks & jobs & per_job & Hc & Hj & Hm & ->).
  exists sinks, jobs, per_job.
  assert (Hs : map label_of sinks
               = map (fun k => ("loki.write", client_id k)) (seq 0 (length sinks))).
  { rewrite clients_components_sinks in Hc. unfold bind in Hc.
    destruct (sinks_of document) as [items|]; [|discriminate].
    pose proof (mapM_length _ _ _ Hc) as Hlen.
    unfold enumerate in Hlen. rewrite enumerate_from_length in Hlen.
    apply sink_kinds in Hc. rewrite map_label_of, Hc, map_map, Hlen. reflexivity. }
  assert (HF : Forall2 (fun job cs =>
                 Forall (fun c => job_kind (c_type c) /\ derived_from job (label_of c)) cs /\
                 NoDup (map label_of cs)) jobs per_job).
  { apply mapM_Forall2 in Hm. eapply Forall2_impl; [|exact Hm].
    intros job cs Hcs. exact (job_components_labels job cs Hcs). }
  split; [exact Hj|]. split; [reflexivity|]. split; [exact Hs|]. split; [exact HF|].
  intros Hl. destruct (jobs_labels_nodup jobs per_job HF Hl) as [Hn Hk].
  rewrite map_app. apply NoDup_app; [|exact Hn|].
  - rewrite Hs. apply sink_labels_nodup.
  - intros x Hx Hx'. rewrite Hs in Hx. apply in_map_iff in Hx as (k & <- & _).
    apply in_map_iff in Hx' as (c & Heq & Hc').
    destruct (Hk c Hc') as [Hkind _].
    unfold label_of, labelled, kind_id in Heq. cbn [fst snd] in Heq.
    injection Heq as Ht _. rewrite Ht in Hkind.
    unfold job_kind in Hkind. intuition discriminate.
Qed.

(** Where the names derived from two jobs collide, two components carry
    the same label: the second entry of [app] and the job [app_1]. *)
Example derived_names_collide :
  exists comps,
    run_build colliding_jobs = Ok comps /\
    map label_of comps
    = [("local.file_match", "app"); ("loki.source.file", "app");
       ("local.file_match", "app_1"); ("loki.source.file", "app_1");
       ("local.file_match", "app_1"); ("loki.source.file", "app_1")].
Proof. eexists. split; reflexivity. Qed.

Lemma kind_and_identifier_unique_witness :
  NoDup (map label_of one_static_job_components).
Proof.
  destruct (kind_and_identifier_unique one_static_job _ one_static_job_build)
    as (sinks & jobs & per_job & Hj & Hc & _ & _ & Hall).
  injection Hj as <-. apply Hall.
  repeat constructor; cbn [In]; intuition discriminate.
Defined.

End GraphBuilder.

(** ** Properties of the value formatter *)

Module Formatter.
Import Py PyFacts PromtailToAlloyMigrator Notions.

(** C3, as stated, fails: a non-empty map under ["labels"] takes three
    lines and a trailing comma, not the single line
    [labels = { a = "x" }]; an empty map under another key is rendered
    [endpoint = {}], not [endpoint {}]. *)
Lemma labels_map_three_lines :
  _format_config_value (KStr "labels") (VDict [(KStr "a", VStr "x")]) 0
  = ["labels = {"; "  a = " ++ dquote ++ "x" ++ dquote ++ ","; "}"] /\
  _format_config_value (KStr "labels") (VDict [(KStr "a", VStr "x")]) 0
  <> ["labels = { a = " ++ dquote ++ "x" ++ dquote ++ " }"] /\
  _format_config_value (KStr "endpoint") (VDict []) 0 = ["endpoint = {}"] /\
  _format_config_value (KStr "endpoint") (VDict []) 0 <> ["endpoint {}"].
Proof.
  split; [reflexivity|]. split; [discriminate|]. split; [reflexivity | discriminate].
Qed.

(** C3, amended.  A map under ["labels"] or ["external_labels"] is rendered
    [key = {}] when empty and otherwise on three lines: [key = {], one line
    holding every entry as [k = <json>], joined with [", "] and closed by a
    comma, and [}].  A map under any other key is rendered [key = {}] when
    empty and otherwise as the nested block [key {], the lines of its
    entries two columns deeper, [}]. *)
Theorem map_rendering (k : key) (d : dict) (indent : nat) :
  (k = KStr "labels" \/ k = KStr "external_labels" ->
   _format_config_value k (VDict d) indent
   = match d with
     | [] => [spaces indent ++ key_str k ++ " = {}"]
     | _ => [spaces indent ++ key_str k ++ " = {";
             spaces indent ++ "  " ++ join ", " (map brace_entry d) ++ ",";
             spaces indent ++ "}"]
     end) /\
  (k <> KStr "labels" -> k <> KStr "external_labels" ->
   _format_config_value k (VDict d) indent
   = match d with
     | [] => [spaces indent ++ key_str k ++ " = {}"]
     | _ => (spaces indent ++ key_str k ++ " {")
              :: app (flat_map (fun e => _format_config_value (fst e) (snd e) (indent + 2)) d)
                     [spaces indent ++ "}"]
     end).
Proof.
  split.
  - intros [-> | ->]; simpl; destruct d; reflexivity.
  - intros H1 H2.
    assert (Hs : special_key k = false).
    { unfold special_key. apply orb_false_iff. split.
      - destruct (key_is "labels" k) eqn:E; [|reflexivity].
        apply key_is_eq in E. contradiction.
      - destruct (key_is "external_labels" k) eqn:E; [|reflexivity].
        apply key_is_eq in E. contradiction. }
    simpl. destruct (key_is "stages" k); rewrite Hs; destruct d; reflexivity.
Qed.

Lemma map_rendering_witness :
  _format_config_value (KStr "external_labels")
    (VDict [(KStr "a", VStr "x"); (KStr "b", VStr "y"); (KStr "c", VInt 3)]) 2
  = ["  external_labels = {";
     "    a = " ++ dquote ++ "x" ++ dquote ++ ", b = " ++ dquote ++ "y" ++ dquote ++ ", c = 3,";
     "  }"] /\
  _format_config_value (KStr "endpoint") (VDict [(KStr "url", VStr "u")]) 2
  = ["  endpoint {"; "    url = " ++ dquote ++ "u" ++ dquote; "  }"].
Proof.
  split.
  - exact (proj1 (map_rendering (KStr "external_labels") _ 2) (or_intror eq_refl)).
  - refine (proj2 (map_rendering (KStr "endpoint") _ 2) _ _); discriminate.
Defined.

(** C8, as stated, fails: under ["forward_to"], a list whose elements are
    all maps takes the record-list form, and so does the empty list: neither
    is rendered on a single line. *)
Lemma forward_to_record_list_form :
  _format_config_value (KStr "forward_to") (VList [VDict [(KStr "a", VInt 1)]]) 2
  = ["  forward_to = [{"; "    a = 1,"; "  }]"] /\
  _format_config_value (KStr "forward_to") (VList []) 2
  = ["  forward_to = ["; "  ]"] /\
  _format_config_value (KStr "forward_to") (VList []) 2 <> ["  forward_to = []"].
Proof. split; [reflexivity|]. split; [reflexivity | discriminate]. Qed.

(** C8, amended.  A list under ["forward_to"] that holds at least one
    element that is not a map is rendered on a single line,
    [forward_to = [e1, e2, ...]]: an element that is a string starting with
    ["loki."] or ["prometheus."] is written bare, every other element as
    JSON (a string between double quotes). *)
Theorem forward_to_rendering (l : list value) (indent : nat) :
  (exists item, In item l /\ is_dict item = false) ->
  _format_config_value (KStr "forward_to") (VList l) indent
  = [spaces indent ++ "forward_to = [" ++ join ", " (map reference_or_literal l) ++ "]"] /\
  (forall s, json_dumps (VStr s) = dquote ++ flat_chars json_escape_char s ++ dquote).
Proof.
  intros (item & Hin & Hitem).
  assert (Hall : forallb is_dict l = false).
  { destruct (forallb is_dict l) eqn:E; [|reflexivity].
    rewrite forallb_forall in E. rewrite (E item Hin) in Hitem. discriminate. }
  split; [|reflexivity].
  assert (E : forall v, forward_ref v = reference_or_literal v)
    by (intros [| | | s | |]; reflexivity).
  simpl. unfold format_list. rewrite Hall. simpl.
  now rewrite (map_ext _ _ E).
Qed.

Lemma forward_to_rendering_witness :
  _format_config_value (KStr "forward_to")
    (VList [VStr "loki.write.default.receiver"; VStr "local.x"; VStr "prometheus.y"]) 2
  = ["  forward_to = [loki.write.default.receiver, "
       ++ dquote ++ "local.x" ++ dquote ++ ", prometheus.y]"].
Proof.
  refine (proj1 (forward_to_rendering _ 2 _)).
  exists (VStr "local.x"). split; [right; left; reflexivity | reflexivity].
Defined.

(** The text emitted for the concrete scenario of the specification. *)
Example one_static_job_text :
  run_migrate one_static_job
  = Ok (join newline
          ["loki.write " ++ dquote ++ "default" ++ dquote ++ " {";
           "  endpoint {";
           "    url = " ++ dquote ++ "http://sink/loki/api/v1/push" ++ dquote;
           "  }";
           "  external_labels = {}";
           "}";
           EmptyString;
           "local.file_match " ++ dquote ++ "app" ++ dquote ++ " {";
           "  path_targets = [{";
           "    __address__ = " ++ dquote ++ "localhost:9080" ++ dquote ++ ",";
           "    env = " ++ dquote ++ "prod" ++ dquote ++ ",";
           "  }]";
           "}";
           EmptyString;
           "loki.source.file " ++ dquote ++ "app" ++ dquote ++ " {";
           "  targets = local.file_match.app.targets";
           "  forward_to = [loki.write.default.receiver]";
           "}";
           EmptyString]).
Proof. reflexivity. Qed.

End Formatter.

(** ** Properties of the stage translator *)

Module StageTranslator.
Import Py PyFacts PromtailToAlloyMigrator Notions.

(** *** The recursion equations of the inline translation *)

Lemma py_getitem_k_eq {B} (k : string) (f : value -> result B) (x : value) :
  py_getitem_k k f x = (v <- py_getitem x k ;; f v).
Proof.
  destruct x; try reflexivity. simpl.
  induction d as [|[y v] d IH]; simpl; [reflexivity|].
  destruct (key_is k y); [reflexivity | exact IH].
Qed.

Lemma py_iter_k_eq {B} (f leaf : value -> result B) (x : value) :
  (forall v, is_scalar v = true -> leaf v = f v) ->
  py_iter_k f leaf x = (items <- py_iter x ;; mapM f items).
Proof.
  intros H. destruct x; try reflexivity; simpl; apply mapM_ext_in; intros v Hv; apply H.
  - unfold chars in Hv. apply in_map_iff in Hv as (c & <- & _). reflexivity.
  - apply in_map_iff in Hv as ([k w] & <- & _). now destruct k.
Qed.

Lemma _convert_single_stage_eq (stage : value) :
  _convert_single_stage stage
  = single_stage_body (mtch <- py_getitem stage "match" ;; _convert_match_stage mtch) stage.
Proof.
  rewrite <- py_getitem_k_eq. destruct stage; reflexivity.
Qed.

Lemma single_stage_leaf (v : value) :
  is_scalar v = true -> single_stage_body (Err TypeError) v = _convert_single_stage v.
Proof.
  intros H. rewrite _convert_single_stage_eq. destruct v; try discriminate H; reflexivity.
Qed.

Lemma _convert_match_stage_eq (mtch : value) :
  _convert_match_stage mtch
  = (parts <- match_fields mtch ;;
     has_stages <- py_in "stages" mtch ;;
     parts <- (if has_stages : bool then
                 stages <- py_getitem mtch "stages" ;;
                 items <- py_iter stages ;;
                 converted <- mapM _convert_single_stage items ;;
                 Ok (extend parts (stage_block converted))
               else Ok parts) ;;
     Ok (join newline (append parts "}"))).
Proof.
  transitivity
    (parts <- match_fields mtch ;;
     has_stages <- py_in "stages" mtch ;;
     parts <- (if has_stages : bool then
                 converted <- py_getitem_k "stages"
                                (py_iter_k _convert_single_stage
                                           (single_stage_body (Err TypeError))) mtch ;;
                 Ok (extend parts (stage_block converted))
               else Ok parts) ;;
     Ok (join newline (append parts "}"))).
  - destruct mtch; reflexivity.
  - rewrite py_getitem_k_eq.
    destruct (match_fields mtch) as [parts|]; [simpl|reflexivity].
    destruct (py_in "stages" mtch) as [[|]|]; try reflexivity. simpl.
    destruct (py_getitem mtch "stages") as [stages|]; [simpl|reflexivity].
    rewrite (py_iter_k_eq _ _ stages single_stage_leaf).
    destruct (py_iter stages); reflexivity.
Qed.

(** *** Stage kinds *)

Lemma py_in_has_key (k : string) (d : dict) : py_in k (VDict d) = Ok (has_key k (VDict d)).
Proof. reflexivity. Qed.

Lemma metrics_kind_inv stage :
  metrics_kind stage = true ->
  exists d metrics,
    stage = VDict d /\ dict_lookup "metrics" d = Some metrics /\
    has_key "match" stage = false /\ has_key "regex" stage = false /\
    has_key "json" stage = false /\ has_key "labels" stage = false /\
    has_key "template" stage = false /\ has_key "output" stage = false.
Proof.
  unfold metrics_kind. intros H. apply andb_prop in H as [Hm Hn].
  destruct stage as [| | | | |d]; try discriminate Hm.
  simpl in Hm. apply dict_lookup_in in Hm as [metrics Hm].
  simpl in Hn. rewrite !andb_true_iff, !negb_true_iff in Hn.
  exists d, metrics. simpl. intuition.
Qed.

Lemma metrics_structured stage :
  metrics_kind stage = true -> _convert_stage_to_dict stage = Ok VNull.
Proof.
  intros H. apply metrics_kind_inv in H
    as (d & m & -> & Hm & H1 & H2 & H3 & H4 & H5 & H6).
  unfold _convert_stage_to_dict. rewrite !py_in_has_key, H1, H2, H3, H4, H5, H6. simpl.
  destruct (existsb _ d); reflexivity.
Qed.

Lemma metrics_inline stage :
  metrics_kind stage = true -> _convert_single_stage stage = Ok metrics_placeholder.
Proof.
  intros H. apply metrics_kind_inv in H
    as (d & m & -> & Hm & H1 & H2 & H3 & H4 & H5 & H6).
  rewrite _convert_single_stage_eq. unfold single_stage_body.
  rewrite !py_in_has_key, H1, H2, H3, H4. simpl.
  assert (E : existsb (fun kv => key_is "metrics" (fst kv)) d = true)
    by (apply dict_lookup_in; eauto).
  rewrite E, Hm. reflexivity.
Qed.

Lemma py_truth_cons_app (before after : list value) (x : value) :
  py_truth (VList (before ++ x :: after)) = true.
Proof. destruct before; reflexivity. Qed.

Lemma for_process_list (l : list value) :
  _convert_pipeline_stages_for_process (VList l)
  = (converted <- mapM _convert_stage_to_dict l ;; Ok (filter py_truth converted)).
Proof. destruct l; reflexivity. Qed.

(** C4, as stated, fails: in the inline mode a metrics stage contributes
    a placeholder block to the text. *)
Lemma metrics_inline_text :
  metrics_kind metrics_stage = true /\
  _convert_single_stage metrics_stage
  = Ok "metrics { /* Metrics configuration requires manual review */ }" /\
  _convert_pipeline_stages (VList [regex_stage])
  = Ok ("stage.regex { expression = " ++ dquote ++ "e" ++ dquote ++ " }") /\
  _convert_pipeline_stages (VList [regex_stage; metrics_stage])
  = Ok ("stage.regex { expression = " ++ dquote ++ "e" ++ dquote ++ " }"
          ++ " | stage.metrics { /* Metrics configuration requires manual review */ }") /\
  _convert_pipeline_stages (VList [regex_stage; metrics_stage])
  <> _convert_pipeline_stages (VList [regex_stage]).
Proof.
  split; [reflexivity|]. split; [reflexivity|]. split; [reflexivity|].
  split; [reflexivity | discriminate].
Qed.

(** C4, amended.  For a stage of kind metrics among other stages: in the
    structured mode the stage gives [None] and the translation of the list
    is the translation of the list without it, so the surrounding stages
    translate as they do alone and nothing records the omission; in the
    inline mode the stage gives the fixed placeholder block, which stands
    between the text of the stages before and after it; and the builder
    keeps no report of skipped stages: a run changes the instance only by
    appending components. *)
Theorem metrics_stage_translation (stage : value) (before after : list value) :
  metrics_kind stage = true ->
  _convert_stage_to_dict stage = Ok VNull /\
  _convert_pipeline_stages_for_process (VList (before ++ stage :: after))
  = _convert_pipeline_stages_for_process (VList (before ++ after)) /\
  _convert_single_stage stage
  = Ok "metrics { /* Metrics configuration requires manual review */ }" /\
  (forall texts_before texts_after,
     mapM _convert_single_stage before = Ok texts_before ->
     mapM _convert_single_stage after = Ok texts_after ->
     _convert_pipeline_stages (VList (before ++ stage :: after))
     = Ok ("stage." ++ join " | stage."
             (filter nonempty texts_before
                ++ "metrics { /* Metrics configuration requires manual review */ }"
                     :: filter nonempty texts_after)%list)) /\
  (forall self self',
     build self = Ok (tt, self') ->
     exists cs, self' = add_components self cs).
Proof.
  intros H.
  pose proof (metrics_structured stage H) as Hs.
  pose proof (metrics_inline stage H) as Hi.
  split; [exact Hs|]. split; [|split; [exact Hi|split]].
  - rewrite !for_process_list, !mapM_app. simpl. rewrite Hs. unfold bind.
    destruct (mapM _convert_stage_to_dict before) as [b|]; [|reflexivity].
    destruct (mapM _convert_stage_to_dict after) as [a|]; [|reflexivity].
    now rewrite !filter_app.
  - intros tb ta Hb Ha. unfold _convert_pipeline_stages.
    rewrite py_truth_cons_app. simpl. rewrite mapM_app. simpl.
    rewrite Hb, Hi, Ha. simpl. rewrite filter_app. simpl.
    destruct (filter nonempty tb); reflexivity.
  - intros self self'. rewrite BuilderFacts.build_eq.
    destruct (document_components _) as [cs|]; [|discriminate].
    intros [= <-]. eauto.
Qed.

Lemma metrics_stage_translation_witness :
  _convert_pipeline_stages_for_process (VList [regex_stage; metrics_stage; regex_stage])
  = Ok [VDict [(KStr "type", VStr "stage.regex"); (KStr "expression", VStr "e")];
        VDict [(KStr "type", VStr "stage.regex"); (KStr "expression", VStr "e")]] /\
  _convert_pipeline_stages (VList [regex_stage; metrics_stage; regex_stage])
  = Ok ("stage.regex { expression = " ++ dquote ++ "e" ++ dquote ++ " }"
          ++ " | stage.metrics { /* Metrics configuration requires manual review */ }"
          ++ " | stage.regex { expression = " ++ dquote ++ "e" ++ dquote ++ " }").
Proof.
  destruct (metrics_stage_translation metrics_stage [regex_stage] [regex_stage] eq_refl)
    as (_ & Hstructured & _ & Hinline & _).
  split.
  - etransitivity; [exact Hstructured | reflexivity].
  - etransitivity; [exact (Hinline _ _ eq_refl eq_refl) | reflexivity].
Defined.

(** *** Nesting of match stages *)

Lemma dict_find_eq {B} k (f : value -> B) default d :
  dict_find k f default d = match dict_lookup k d with Some v => f v | None => default end.
Proof.
  induction d as [|[x v] d IH]; simpl; [reflexivity|].
  destruct (key_is k x); [reflexivity | exact IH].
Qed.

Lemma step_depth_eq stage :
  step_depth stage = match field_of stage "match" with
                     | Some mtch => match_depth mtch
                     | None => 0
                     end.
Proof. destruct stage; try reflexivity. simpl. apply dict_find_eq. Qed.

Lemma match_depth_eq mtch :
  match_depth mtch = match field_of mtch "stages" with
                     | Some (VList l) =>
                         if existsb recognised l then S (list_max (map step_depth l)) else 0
                     | _ => 0
                     end.
Proof. destruct mtch; try reflexivity. simpl. apply dict_find_eq. Qed.

Lemma join_nonempty sep c s rest : nonempty (join sep (String c s :: rest)) = true.
Proof. destruct rest; reflexivity. Qed.

Lemma dict_lookup_Forall (P : value -> Prop) k d v :
  Forall (fun kv => P (snd kv)) d -> dict_lookup k d = Some v -> P v.
Proof.
  induction 1 as [|[x w] d Hx _ IH]; simpl; [discriminate|].
  destruct (key_is k x); [now intros [= <-] | exact IH].
Qed.

Lemma match_fields_spec mtch parts :
  match_fields mtch = Ok parts ->
  parts = concat
            [["match {"];
             optional_line (fun v => "  selector = " ++ json_dumps v)
                           (field_of mtch "selector");
             optional_line (fun v => "  pipeline_name = " ++ json_dumps v)
                           (field_of mtch "pipeline_name");
             optional_line (fun v => "  action = " ++ dquote ++ py_str v ++ dquote)
                           (field_of mtch "action")].
Proof.
  unfold match_fields.
  destruct mtch as [| | |s|l|d]; try discriminate.
  - simpl py_in.
    destruct (substring_of "selector" s); [discriminate|].
    destruct (substring_of "pipeline_name" s); [discriminate|].
    destruct (substring_of "action" s); [discriminate|].
    now intros [= <-].
  - simpl py_in.
    destruct (existsb (is_str "selector") l); [discriminate|].
    destruct (existsb (is_str "pipeline_name") l); [discriminate|].
    destruct (existsb (is_str "action") l); [discriminate|].
    now intros [= <-].
  - rewrite !py_in_dict. unfold py_getitem, field_of, bind.
    destruct (dict_lookup "selector" d), (dict_lookup "pipeline_name" d),
      (dict_lookup "action" d); now intros [= <-].
Qed.

Lemma match_text_nonempty mtch text :
  _convert_match_stage mtch = Ok text -> nonempty text = true.
Proof.
  rewrite _convert_match_stage_eq. unfold bind.
  destruct (match_fields mtch) as [parts|] eqn:Ef; [|discriminate].
  apply match_fields_spec in Ef. simpl in Ef.
  assert (Hj : forall tail, nonempty (join newline (append (extend parts tail) "}")) = true).
  { intros tail. subst parts. apply join_nonempty. }
  destruct (py_in "stages" mtch) as [[|]|]; try discriminate.
  - destruct (py_getitem mtch "stages") as [stages|]; [|discriminate].
    destruct (py_iter stages) as [items|]; [|discriminate].
    destruct (mapM _convert_single_stage items) as [converted|]; [|discriminate].
    intros [= <-]. apply Hj.
  - intros [= <-]. specialize (Hj []). unfold extend in Hj. now rewrite app_nil_r in Hj.
Qed.

Lemma json_text_nonempty json_config text :
  _convert_json_stage json_config = Ok text -> nonempty text = true.
Proof.
  unfold _convert_json_stage, bind, append, extend.
  destruct (py_in "source" json_config) as [[|]|]; try discriminate.
  - destruct (py_getitem json_config "source"); [|discriminate].
    destruct (py_in "expressions" json_config) as [[|]|]; try discriminate.
    + destruct (py_getitem json_config "expressions") as [e|]; [|discriminate].
      destruct (py_items e); [|discriminate]. intros [= <-]. reflexivity.
    + intros [= <-]. reflexivity.
  - destruct (py_in "expressions" json_config) as [[|]|]; try discriminate.
    + destruct (py_getitem json_config "expressions") as [e|]; [|discriminate].
      destruct (py_items e); [|discriminate]. intros [= <-]. reflexivity.
    + intros [= <-]. reflexivity.
Qed.

Lemma has_key_lookup k d :
  has_key k (VDict d) = match dict_lookup k d with Some _ => true | None => false end.
Proof.
  simpl. destruct (dict_lookup k d) eqn:E.
  - apply dict_lookup_in. eauto.
  - now apply dict_lookup_notin.
Qed.

Lemma recognised_dict d :
  recognised (VDict d)
  = existsb (fun k => match dict_lookup k d with Some _ => true | None => false end)
            stage_kinds.
Proof.
  unfold recognised. induction stage_kinds as [|k ks IH]; [reflexivity|].
  cbn [existsb]. now rewrite has_key_lookup, IH.
Qed.

(** A step that translates gives text exactly when it is of one of the
    kinds of the data model. *)
Lemma single_nonempty stage text :
  _convert_single_stage stage = Ok text -> nonempty text = recognised stage.
Proof.
  rewrite _convert_single_stage_eq. unfold single_stage_body.
  destruct stage as [| | |s|l|d]; try discriminate.
  - simpl.
    repeat match goal with
           | |- context [if ?b then _ else _] => destruct b; try discriminate
           end.
    now intros [= <-].
  - simpl.
    repeat match goal with
           | |- context [if ?b then _ else _] => destruct b; try discriminate
           end.
    now intros [= <-].
  - rewrite (recognised_dict d), !py_in_dict. simpl.
    destruct (dict_lookup "match" d) as [m|].
    { intros H. apply match_text_nonempty in H. now rewrite H. }
    destruct (dict_lookup "regex" d) as [r|].
    { simpl. destruct (py_getitem r "expression"); [|discriminate]. now intros [= <-]. }
    destruct (dict_lookup "json" d) as [j|].
    { simpl. intros H. apply json_text_nonempty in H. now rewrite H. }
    destruct (dict_lookup "labels" d) as [lb|].
    { simpl. destruct (py_truth lb); simpl; [|now intros [= <-]].
      destruct (py_items lb); [|discriminate]. now intros [= <-]. }
    destruct (dict_lookup "metrics" d) as [mt|].
    { simpl. now intros [= <-]. }
    destruct (dict_lookup "template" d) as [t|].
    { simpl. destruct (py_getitem t "source"); [|discriminate]. simpl.
      destruct (py_getitem t "template"); [|discriminate]. now intros [= <-]. }
    destruct (dict_lookup "output" d) as [o|].
    { simpl. destruct (py_getitem o "source"); [|discriminate]. now intros [= <-]. }
    now intros [= <-].
Qed.

Lemma match_stage_shape mtch text :
  _convert_match_stage mtch = Ok text ->
  exists parts items converted,
    match_fields mtch = Ok parts /\
    nested_steps mtch = Ok items /\
    mapM _convert_single_stage items = Ok converted /\
    text = join newline (append (extend parts (stage_block converted)) "}").
Proof.
  rewrite _convert_match_stage_eq. unfold nested_steps, bind.
  destruct (match_fields mtch) as [parts|]; [|discriminate].
  destruct (py_in "stages" mtch) as [[|]|]; try discriminate.
  - destruct (py_getitem mtch "stages") as [stages|]; [|discriminate].
    destruct (py_iter stages) as [items|]; [|discriminate].
    destruct (mapM _convert_single_stage items) as [converted|] eqn:Em; [|discriminate].
    intros [= <-]. exists parts, items, converted. repeat split. exact Em.
  - intros [= <-]. exists parts, [], []. repeat split.
    unfold extend, stage_block. simpl. now rewrite app_nil_r.
Qed.

Lemma scalar_unrecognised v : is_scalar v = true -> recognised v = false.
Proof. destruct v; try discriminate; reflexivity. Qed.

Lemma scalars_unrecognised items :
  Forall (fun v => is_scalar v = true) items -> existsb recognised items = false.
Proof.
  induction 1 as [|v items Hv _ IH]; simpl; [reflexivity|].
  now rewrite (scalar_unrecognised v Hv), IH.
Qed.

Lemma py_iter_scalars x items :
  py_iter x = Ok items ->
  (exists l, x = VList l /\ items = l) \/ Forall (fun v => is_scalar v = true) items.
Proof.
  destruct x as [| | |s|l|d]; try discriminate; intros [= <-].
  - right. unfold chars. apply Forall_forall. intros v Hv.
    apply in_map_iff in Hv as (c & <- & _). reflexivity.
  - left. eauto.
  - right. apply Forall_forall. intros v Hv.
    apply in_map_iff in Hv as ([k w] & <- & _). now destruct k.
Qed.

(** The nested steps of a match step that translates are the elements of
    the list under [stages], or else scalars, none of a known kind. *)
Lemma nested_steps_cases mtch items :
  nested_steps mtch = Ok items ->
  field_of mtch "stages" = Some (VList items) \/
  (Forall (fun v => is_scalar v = true) items /\
   forall l, field_of mtch "stages" <> Some (VList l)).
Proof.
  unfold nested_steps.
  destruct mtch as [| | |s|l|d]; try discriminate.
  - simpl. destruct (substring_of "stages" s); [discriminate|].
    intros [= <-]. right. split; [constructor | discriminate].
  - simpl. destruct (existsb (is_str "stages") l); [discriminate|].
    intros [= <-]. right. split; [constructor | discriminate].
  - rewrite py_in_dict. simpl.
    destruct (dict_lookup "stages" d) as [stages|] eqn:E; simpl.
    + destruct stages as [| | |s|l|d']; try discriminate; intros H.
      * right. split; [|discriminate].
        apply py_iter_scalars in H as [(l & [=] & _)|H]. exact H.
      * injection H as <-. now left.
      * right. split; [|discriminate].
        apply py_iter_scalars in H as [(l & [=] & _)|H]. exact H.
    + intros [= <-]. right. split; [constructor | discriminate].
Qed.

Lemma nested_steps_depth mtch items :
  nested_steps mtch = Ok items ->
  match_depth mtch
  = if existsb recognised items then S (list_max (map step_depth items)) else 0.
Proof.
  intros H. rewrite match_depth_eq.
  apply nested_steps_cases in H as [-> | [Hs Hn]]; [reflexivity|].
  rewrite (scalars_unrecognised items Hs).
  destruct (field_of mtch "stages") as [[| | | |l|]|]; try reflexivity.
  exfalso. now apply (Hn l).
Qed.

Lemma mapM_in {A B} (f : A -> result B) (l : list A) (bs : list B) (a : A) :
  mapM f l = Ok bs -> In a l -> exists b, In b bs /\ f a = Ok b.
Proof.
  intros H Hin. apply In_nth_error in Hin as [n Hn].
  destruct (mapM_nth f l bs H n a Hn) as (b & Hb & Hf).
  exists b. split; [eapply nth_error_In; eauto | exact Hf].
Qed.

Lemma filter_nonempty_nil items converted :
  mapM _convert_single_stage items = Ok converted ->
  (filter nonempty converted = [] <-> existsb recognised items = false).
Proof.
  revert converted. induction items as [|a items IH]; simpl; intros converted H.
  - injection H as <-. simpl. tauto.
  - destruct (_convert_single_stage a) as [s|] eqn:Ea; simpl in H; [|discriminate].
    destruct (mapM _convert_single_stage items) as [cs|]; simpl in H; [|discriminate].
    injection H as <-. simpl. rewrite (single_nonempty a s Ea).
    destruct (recognised a); simpl; [split; discriminate | now apply IH].
Qed.

Lemma list_max_attained l : list_max l <> 0 -> In (list_max l) l.
Proof.
  induction l as [|a l IH]; simpl; [congruence|].
  intros H. destruct (Nat.max_spec a (list_max l)) as [[Hlt ->]|[Hle ->]].
  - right. apply IH. lia.
  - now left.
Qed.

Lemma step_depth_recognised stage : step_depth stage <> 0 -> recognised stage = true.
Proof.
  rewrite step_depth_eq. destruct stage as [| | | | |d]; simpl; try congruence.
  destruct (dict_lookup "match" d) eqn:E; [|congruence].
  intros _. rewrite recognised_dict. simpl. now rewrite E.
Qed.

(** Among the nested steps, one reaches the greatest depth and gives
    text. *)
Lemma deepest_nested_step items converted :
  mapM _convert_single_stage items = Ok converted ->
  existsb recognised items = true ->
  (forall e, In e items -> step_blocks e) ->
  exists inner,
    In inner (filter nonempty converted) /\
    nested_stage_blocks (list_max (map step_depth items)) inner.
Proof.
  intros Hm Hr Hs.
  assert (Hpick : exists e, In e items /\ recognised e = true /\
                            step_depth e = list_max (map step_depth items)).
  { destruct (list_max (map step_depth items)) as [|n] eqn:En.
    - apply existsb_exists in Hr as (e & He & Hre). exists e. repeat split; try assumption.
      assert (Hle : step_depth e <= list_max (map step_depth items)).
      { pose proof (proj1 (list_max_le (map step_depth items) _) (Nat.le_refl _)) as Hall.
        rewrite Forall_forall in Hall. now apply Hall, in_map. }
      lia.
    - assert (Hin : In (S n) (map step_depth items)).
      { rewrite <- En. apply list_max_attained. lia. }
      apply in_map_iff in Hin as (e & He & Hin). exists e.
      repeat split; try assumption. apply step_depth_recognised. lia. }
  destruct Hpick as (e & He & Hre & Hd).
  destruct (mapM_in _ _ _ e Hm He) as (s & Hs1 & Hs2).
  exists s. split.
  - apply filter_In. split; [exact Hs1|]. now rewrite (single_nonempty e s Hs2).
  - rewrite <- Hd. now apply Hs.
Qed.

Lemma stage_block_cons converted s nested :
  filter nonempty converted = s :: nested ->
  stage_block converted
  = "  stage {" :: app (map (fun t => "    stage." ++ t) (s :: nested)) ["  }"].
Proof. unfold stage_block. now intros ->. Qed.

Lemma nesting_all (v : value) : all_blocks v.
Proof.
  induction v as [| b | z | s | l IH | d IH] using value_nested_ind;
    try (split; [|split]; [intros text _; apply blocks_O
                          | intros text _; apply blocks_O
                          | discriminate]).
  - split; [intros text _; apply blocks_O|].
    split; [intros text _; apply blocks_O|].
    intros l' [= <-]. eapply Forall_impl; [|exact IH]. unfold all_blocks. tauto.
  - split; [|split; [|discriminate]].
    + intros text H.
      destruct (match_stage_shape _ _ H) as (parts & items & converted & Hf & Hn & Hm & ->).
      rewrite (nested_steps_depth _ _ Hn).
      destruct (existsb recognised items) eqn:Er; [|apply blocks_O].
      assert (Hsub : forall e, In e items -> step_blocks e).
      { apply nested_steps_cases in Hn as [Hl | [Hs _]].
        - simpl in Hl.
          destruct (dict_lookup_Forall all_blocks _ _ _ IH Hl) as (_ & _ & Hall).
          intros e He. specialize (Hall items eq_refl).
          rewrite Forall_forall in Hall. now apply Hall.
        - rewrite (scalars_unrecognised items Hs) in Er. discriminate. }
      destruct (deepest_nested_step items converted Hm Er Hsub) as (inner & Hin & Hb).
      destruct (filter nonempty converted) as [|s nested] eqn:Ef; [contradiction|].
      rewrite (stage_block_cons _ _ _ Ef).
      eapply (blocks_S _ _ inner parts (map (fun t => "    stage." ++ t) (s :: nested)) ["}"]).
      * unfold append, extend. f_equal. repeat (rewrite <- app_assoc; simpl). reflexivity.
      * apply in_map_iff. exists inner. split; [reflexivity | exact Hin].
      * exact Hb.
    + intros text H. rewrite step_depth_eq. simpl.
      rewrite _convert_single_stage_eq in H. unfold single_stage_body in H.
      rewrite py_in_dict in H. simpl in H.
      destruct (dict_lookup "match" d) as [m|] eqn:Em; [|apply blocks_O].
      simpl in H. destruct (dict_lookup_Forall all_blocks _ _ _ IH Em) as (Hmatch & _).
      now apply Hmatch.
Qed.

Lemma plain_step_depth_eq stage :
  plain_step_depth stage = match field_of stage "match" with
                           | Some mtch => plain_match_depth mtch
                           | None => 0
                           end.
Proof. destruct stage; try reflexivity. simpl. apply dict_find_eq. Qed.

Lemma plain_match_depth_eq mtch :
  plain_match_depth mtch = match field_of mtch "stages" with
                           | Some (VList (x :: l)) =>
                               S (list_max (map plain_step_depth (x :: l)))
                           | _ => 0
                           end.
Proof.
  destruct mtch; try reflexivity. simpl. rewrite dict_find_eq.
  destruct (dict_lookup "stages" d) as [[| | | |[|x l]|]|]; reflexivity.
Qed.

Lemma kinded_step_eq stage :
  kinded_step stage = recognised stage &&
                      match field_of stage "match" with
                      | Some mtch => kinded_match mtch
                      | None => true
                      end.
Proof.
  destruct stage; try reflexivity.
  change (kinded_step (VDict d))
    with (recognised (VDict d) && dict_find "match" kinded_match true d).
  now rewrite dict_find_eq.
Qed.

Lemma kinded_match_eq mtch :
  kinded_match mtch = match field_of mtch "stages" with
                      | Some (VList l) => forallb kinded_step l
                      | _ => true
                      end.
Proof. destruct mtch; try reflexivity. simpl. apply dict_find_eq. Qed.

Definition depths_agree (v : value) : Prop :=
  (kinded_match v = true -> plain_match_depth v = match_depth v) /\
  (kinded_step v = true -> plain_step_depth v = step_depth v) /\
  (forall l, v = VList l -> forallb kinded_step l = true ->
             map plain_step_depth l = map step_depth l /\
             forallb recognised l = true).

(** On steps of the kinds of the data model the two depths agree. *)
Lemma kinded_depths (v : value) : depths_agree v.
Proof.
  induction v as [| b | z | s | l IH | d IH] using value_nested_ind;
    try (split; [|split]; [reflexivity | reflexivity | discriminate]).
  - split; [reflexivity|]. split; [reflexivity|].
    intros l' [= <-]. induction IH as [|x l Hx _ IHl]; simpl; [now split|].
    intros H. apply andb_prop in H as [Hk Hl].
    destruct (IHl Hl) as [Hmap Hrec].
    destruct Hx as (_ & Hstep & _).
    rewrite (Hstep Hk), Hmap, Hrec.
    rewrite kinded_step_eq in Hk. apply andb_prop in Hk as [-> _]. now split.
  - split; [|split; [|discriminate]].
    + rewrite kinded_match_eq, plain_match_depth_eq, match_depth_eq. simpl.
      destruct (dict_lookup "stages" d) as [stages|] eqn:E; [|reflexivity].
      destruct stages as [| | | |l|]; try reflexivity.
      intros Hk.
      destruct (dict_lookup_Forall depths_agree _ _ _ IH E) as (_ & _ & Hl).
      destruct (Hl l eq_refl Hk) as [Hmap Hrec].
      destruct l as [|x l]; [reflexivity|].
      change (S (list_max (map plain_step_depth (x :: l)))
              = if existsb recognised (x :: l)
                then S (list_max (map step_depth (x :: l))) else 0).
      rewrite Hmap. simpl in Hrec. apply andb_prop in Hrec as [Hx _].
      simpl existsb. now rewrite Hx.
    + rewrite kinded_step_eq, plain_step_depth_eq, step_depth_eq. simpl.
      destruct (dict_lookup "match" d) as [m|] eqn:E; [|reflexivity].
      intros H. apply andb_prop in H as [_ Hm].
      destruct (dict_lookup_Forall depths_agree _ _ _ IH E) as (Hmatch & _).
      now apply Hmatch.
Qed.

Lemma prefix_append (k b : string) : String.prefix k (k ++ b) = true.
Proof.
  induction k as [|c k IH]; simpl; [now destruct b|].
  destruct (Ascii.ascii_dec c c) as [_|H]; [exact IH | now contradiction H].
Qed.

Lemma substring_of_append (a k b : string) : substring_of k (a ++ k ++ b) = true.
Proof.
  induction a as [|c a IH].
  - assert (Hp : forall s, String.prefix k s = true -> substring_of k s = true)
      by (intros s Hs; destruct s; cbn [substring_of]; now rewrite Hs).
    change (EmptyString ++ k ++ b) with (k ++ b). apply Hp, prefix_append.
  - cbn [String.append substring_of]. rewrite IH. apply orb_true_r.
Qed.

Lemma join_substring (sep line : string) (lines : list string) :
  In line lines -> substring_of line (join sep lines) = true.
Proof.
  unfold join. induction lines as [|x lines IH]; intros Hin; [contradiction|].
  destruct Hin as [->|Hin].
  - destruct lines as [|y lines].
    + change (String.concat sep [line]) with line.
      rewrite <- (string_append_nil_r line) at 2.
      apply (substring_of_append EmptyString).
    + change (String.concat sep (line :: y :: lines))
        with (line ++ sep ++ String.concat sep (y :: lines)).
      apply (substring_of_append EmptyString).
  - destruct lines as [|y lines]; [contradiction|].
    change (String.concat sep (x :: y :: lines))
      with (x ++ sep ++ String.concat sep (y :: lines)).
    specialize (IH Hin). clear Hin.
    remember (String.concat sep (y :: lines)) as rest eqn:Hr. clear Hr.
    assert (Hsep : substring_of line (sep ++ rest) = true).
    { induction sep as [|c sep IHs]; [exact IH|].
      cbn [String.append substring_of]. rewrite IHs. apply orb_true_r. }
    induction x as [|c x IHx]; [exact Hsep|].
    cbn [String.append substring_of]. rewrite IHx. apply orb_true_r.
Qed.

(** C7, as stated, fails: the nested steps of this match step reach depth
    1, and its text holds no stage block.  The nested step is of a kind
    the translator does not know; it gives no text, and a match step opens
    a stage block only when a nested step gave text. *)
Lemma match_timestamp_no_stage_block :
  plain_match_depth timestamp_match = 1 /\
  _convert_match_stage timestamp_match
  = Ok (join newline ["match {"; "  selector = " ++ dquote ++ "{app=x}" ++ dquote; "}"]) /\
  ~ nested_stage_blocks 1
      (join newline ["match {"; "  selector = " ++ dquote ++ "{app=x}" ++ dquote; "}"]).
Proof.
  split; [reflexivity|]. split; [reflexivity|].
  intros H. inversion H as [|n text inner before body after Ht Hin Hn]. subst.
  assert (Hs : substring_of "  stage {"
                 (join newline (before ++ "  stage {" :: body ++ "  }" :: after)) = true).
  { apply join_substring. apply in_or_app. right. now left. }
  rewrite <- Ht in Hs. discriminate Hs.
Qed.

(** C7, amended.  When a match step translates, its text is [match {], a line for
    each of [selector], [pipeline_name] and [action] exactly when the step
    has that field, a [stage { ... }] block holding the text of the nested
    steps (no block when no nested step gives text, which is when the depth
    is 0), and [}].  The text holds as many levels of nested stage blocks
    as the nested steps reach in depth.  The depth is taken over the steps
    of the kinds of the data model; when every nested step is of such a
    kind it is the depth of the nested lists themselves. *)
Theorem match_stage_nesting (mtch : value) (text : string) :
  _convert_match_stage mtch = Ok text ->
  exists (items : list value) (converted : list string),
    nested_steps mtch = Ok items /\
    mapM _convert_single_stage items = Ok converted /\
    let nested := filter nonempty converted in
    text = join newline
             (concat
                [["match {"];
                 optional_line (fun v => "  selector = " ++ json_dumps v)
                               (field_of mtch "selector");
                 optional_line (fun v => "  pipeline_name = " ++ json_dumps v)
                               (field_of mtch "pipeline_name");
                 optional_line (fun v => "  action = " ++ dquote ++ py_str v ++ dquote)
                               (field_of mtch "action");
                 match nested with
                 | [] => []
                 | _ => concat [["  stage {"];
                                map (fun s => "    stage." ++ s) nested;
                                ["  }"]]
                 end;
                 ["}"]]) /\
    (nested = [] <-> match_depth mtch = 0) /\
    nested_stage_blocks (match_depth mtch) text /\
    (kinded_match mtch = true -> match_depth mtch = plain_match_depth mtch).
Proof.
  intros H.
  destruct (match_stage_shape _ _ H) as (parts & items & converted & Hf & Hn & Hm & Ht).
  exists items, converted. split; [exact Hn|]. split; [exact Hm|].
  split; [|split; [|split]]; [| | |intros Hk; symmetry; now apply (proj1 (kinded_depths mtch))].
  - rewrite Ht. apply match_fields_spec in Hf. rewrite Hf. f_equal.
    unfold append, extend, stage_block.
    destruct (filter nonempty converted); simpl; rewrite <- ?app_assoc; simpl;
      rewrite ?app_nil_r, <- ?app_assoc; reflexivity.
  - rewrite (nested_steps_depth _ _ Hn), (filter_nonempty_nil _ _ Hm).
    destruct (existsb recognised items); split; congruence.
  - now apply (proj1 (nesting_all mtch)).
Qed.

Example two_level_match_text :
  _convert_match_stage two_level_match
  = Ok (join newline
          ["match {";
           "  selector = " ++ dquote ++ "{app=x}" ++ dquote;
           "  stage {";
           "    stage.regex { expression = " ++ dquote ++ "a.*" ++ dquote ++ " }";
           "    stage.match {";
           "  action = " ++ dquote ++ "drop" ++ dquote;
           "  stage {";
           "    stage.output { source = " ++ dquote ++ "msg" ++ dquote ++ " }";
           "  }";
           "}";
           "  }";
           "}"]).
Proof. reflexivity. Qed.

Lemma match_stage_nesting_witness :
  exists text,
    _convert_match_stage two_level_match = Ok text /\
    plain_match_depth two_level_match = 2 /\
    nested_stage_blocks 2 text.
Proof.
  eexists. split; [reflexivity|]. split; [reflexivity|].
  destruct (match_stage_nesting two_level_match _ eq_refl)
    as (items & converted & _ & _ & _ & _ & Hb & _).
  exact Hb.
Defined.

End StageTranslator.

(** ** Properties of the node_exporter migrator *)

Module NodeExporter.
Import Py PyFacts NodeExporterToAlloyMigrator ExporterNotions.

Lemma append_assoc (a b c : string) : (a ++ b) ++ c = a ++ b ++ c.
Proof. induction a as [|x a IH]; simpl; [reflexivity | now rewrite IH]. Qed.

Lemma strip_prefix_spec (p s r : string) : strip_prefix p s = Some r <-> s = p ++ r.
Proof.
  revert s. induction p as [|a p IH]; intros s; simpl.
  - split; [now intros [= ->] | now intros ->].
  - destruct s as [|b s]; [split; discriminate|].
    destruct (Ascii.eqb_spec a b) as [->|Hab].
    + rewrite IH. split; [now intros -> | now intros [= ->]].
    + split; [discriminate | intros [= -> _]; contradiction].
Qed.

Lemma take_drop_while (p : ascii -> bool) (s : string) :
  take_while p s ++ drop_while p s = s.
Proof.
  induction s as [|c s IH]; simpl; [reflexivity|].
  destruct (p c); simpl; [now rewrite IH | reflexivity].
Qed.

Lemma take_while_all (p : ascii -> bool) (s : string) :
  all_chars p (take_while p s) = true.
Proof.
  unfold all_chars. induction s as [|c s IH]; simpl; [reflexivity|].
  destruct (p c) eqn:E; simpl; [now rewrite E | reflexivity].
Qed.

Lemma drop_while_head (p : ascii -> bool) (s : string) :
  drop_while p s = EmptyString \/
  exists c r, drop_while p s = String c r /\ p c = false.
Proof.
  induction s as [|c s IH]; simpl; [now left|].
  destruct (p c) eqn:E; [exact IH | right; eauto].
Qed.

(** [take_while p] stops at the end or at a character outside [p]. *)
Lemma take_while_rest (p : ascii -> bool) (s : string) :
  exists rest,
    s = take_while p s ++ rest /\
    (rest = EmptyString \/ exists c r, rest = String c r /\ p c = false).
Proof.
  exists (drop_while p s). split; [now rewrite take_drop_while | apply drop_while_head].
Qed.

(** A search returns the group of the leftmost position that matches. *)
Lemma search_spec (match_at : string -> option string) (s g : string) :
  search match_at s = Some g ->
  exists before rest,
    s = before ++ rest /\ match_at rest = Some g /\
    forall a b, s = a ++ b -> String.length a < String.length before -> match_at b = None.
Proof.
  induction s as [|c s IH]; simpl.
  - destruct (match_at EmptyString) eqn:E; [|discriminate].
    intros [= ->]. exists EmptyString, EmptyString. repeat split; [exact E|].
    intros a b _ H. simpl in H. lia.
  - destruct (match_at (String c s)) eqn:E.
    + intros [= ->]. exists EmptyString, (String c s). repeat split; [exact E|].
      intros a b _ H. simpl in H. lia.
    + intros H. destruct (IH H) as (before & rest & -> & Hm & Hleft).
      exists (String c before), rest. repeat split; [exact Hm|].
      intros a b Hab Hlen. destruct a as [|x a]; simpl in *.
      * now subst b.
      * injection Hab as -> Hab. apply (Hleft a b Hab). lia.
Qed.

Lemma search_none (match_at : string -> option string) (s : string) :
  search match_at s = None ->
  forall a b, s = a ++ b -> match_at b = None.
Proof.
  induction s as [|c s IH]; simpl.
  - destruct (match_at EmptyString) eqn:E; [discriminate|].
    intros _ a b H. destruct a; [simpl in H; now subst b | discriminate].
  - destruct (match_at (String c s)) eqn:E; [discriminate|].
    intros H a b Hab. destruct a as [|x a]; simpl in Hab.
    + now subst b.
    + injection Hab as _ Hab. now apply (IH H a b).
Qed.

Lemma textfile_at_spec (s d : string) :
  textfile_at s = Some d ->
  exists ws after,
    s = "--collector.textfile.directory" ++ ws ++ d ++ after /\
    ws <> EmptyString /\ all_chars is_space ws = true /\
    d <> EmptyString /\ all_chars not_space d = true /\
    (after = EmptyString \/ exists c r, after = String c r /\ is_space c = true).
Proof.
  unfold textfile_at.
  destruct (strip_prefix _ s) as [rest|] eqn:Ep; [|discriminate].
  apply strip_prefix_spec in Ep.
  destruct (take_while is_space rest) as [|w ws] eqn:Ew; [discriminate|].
  destruct (take_while (fun c => negb (is_space c)) (drop_while is_space rest))
    as [|x g] eqn:Eg; [discriminate|].
  intros [= <-].
  destruct (take_while_rest (fun c => negb (is_space c)) (drop_while is_space rest))
    as (after & Hrest & Hafter).
  exists (String w ws), after. split; [|split; [discriminate|split; [|split; [discriminate|split]]]].
  - rewrite Ep at 1. rewrite <- (take_drop_while is_space rest) at 1.
    now rewrite Ew, Hrest, Eg.
  - rewrite <- Ew. apply take_while_all.
  - rewrite <- Eg. apply (take_while_all (fun c => negb (is_space c))).
  - destruct Hafter as [->|(c & r & -> & Hc)]; [now left|].
    right. exists c, r. split; [reflexivity|]. now apply negb_false_iff in Hc.
Qed.

(** X1.  When the textfile flag is recognised in a command line, the
    line reads: some text, the flag, one or more whitespace characters, the
    directory, and then nothing or a whitespace character.  The directory
    is not empty and holds no whitespace, and no earlier position of the
    line matches: the flag written with [=] after it is not recognised. *)
Theorem textfile_directory_extracted (exec_line directory : string) :
  search textfile_at exec_line = Some directory ->
  exists before ws after,
    exec_line = before ++ "--collector.textfile.directory" ++ ws ++ directory ++ after /\
    ws <> EmptyString /\ all_chars is_space ws = true /\
    directory <> EmptyString /\ all_chars not_space directory = true /\
    (after = EmptyString \/ exists c r, after = String c r /\ is_space c = true) /\
    forall a b, exec_line = a ++ b -> String.length a < String.length before ->
                textfile_at b = None.
Proof.
  intros H. apply search_spec in H as (before & rest & -> & Hm & Hleft).
  apply textfile_at_spec in Hm as (ws & after & -> & H1 & H2 & H3 & H4 & H5).
  exists before, ws, after. repeat split; assumption.
Qed.

Lemma textfile_directory_extracted_witness :
  exists before ws after,
    "node_exporter --collector.textfile.directory=/a --collector.textfile.directory  /b c"
    = before ++ "--collector.textfile.directory" ++ ws ++ "/b" ++ after /\
    ws <> EmptyString /\ all_chars is_space ws = true.
Proof.
  destruct (textfile_directory_extracted
              "node_exporter --collector.textfile.directory=/a --collector.textfile.directory  /b c"
              "/b" eq_refl) as (before & ws & after & H1 & H2 & H3 & _).
  exists before, ws, after. repeat split; assumption.
Defined.

Lemma search_textfile_nonempty (line d : string) :
  search textfile_at line = Some d -> d <> EmptyString /\ all_chars not_space d = true.
Proof.
  intros H. apply textfile_directory_extracted in H
    as (before & ws & after & _ & _ & _ & H1 & H2 & _). now split.
Qed.

(** X2.  Whatever the inputs, [parse_service_file] leaves a consistent
    instance: ["textfile"] is enabled exactly when a directory was found,
    that directory is not empty and holds no whitespace, ["systemd"] is
    enabled exactly when the command line read holds [--collector.systemd],
    and the collectors are listed without repetition, ["systemd"] first. *)
Theorem parsed_collectors (service_file exec_start_line : option string) :
  let self := parse_service_file service_file exec_start_line in
  (In "textfile" (collectors self) <-> exists d, textfile_directory self = Some d) /\
  (forall d, textfile_directory self = Some d ->
             d <> EmptyString /\ all_chars not_space d = true) /\
  (In "systemd" (collectors self) <->
   exists line, exec_line_of service_file exec_start_line = Some line /\
                substring_of "--collector.systemd" line = true) /\
  (collectors self = [] \/ collectors self = ["systemd"] \/
   collectors self = ["textfile"] \/ collectors self = ["systemd"; "textfile"]).
Proof.
  unfold parse_service_file.
  destruct (exec_line_of service_file exec_start_line) as [line|].
  - destruct (search textfile_at line) as [d|] eqn:Ed;
      destruct (substring_of "--collector.systemd" line) eqn:Es; simpl;
      (split; [|split; [|split]]).
    all: try (split; [eauto; intuition discriminate | intuition eauto; fail]).
    all: try (intros d' [= <-]; now apply (search_textfile_nonempty line)).
    all: try (intros d' H; discriminate H).
    all: try (split; [intros _; exists line; now split | intuition]).
    all: try (split; [intuition discriminate | intros (l & [= <-] & H); congruence]).
    all: try (split; [intuition discriminate | intros (d' & H); discriminate H]).
    all: intuition.
  - simpl. split; [|split; [|split]].
    + split; [contradiction | intros (d & H); discriminate H].
    + intros d H. discriminate H.
    + split; [contradiction | intros (l & H & _); discriminate H].
    + now left.
Qed.

(** X3.  The exporter block that is emitted agrees with what was parsed:
    the line [enable_collectors = [...]], which lists the enabled
    collectors in quotes, is there exactly when a collector is
    enabled, the [textfile] block exactly when ["textfile"] is enabled
    (with the directory found), the [systemd] block exactly when
    ["systemd"] is; the scrape component and the placeholder remote write
    always follow. *)
Theorem exporter_block_consistent (service_file exec_start_line : option string) :
  let self := parse_service_file service_file exec_start_line in
  exists enable textfile systemd : list string,
    run_migrate service_file exec_start_line
    = join newline
        (concat [[exporter_header]; enable; textfile; systemd; ["}"; EmptyString];
                 scrape_and_remote_write]) /\
    (enable = [] <-> collectors self = []) /\
    (collectors self <> [] ->
       enable = ["  enable_collectors = ["
                   ++ join ", " (map (fun c => dquote ++ c ++ dquote) (collectors self))
                   ++ "]"]) /\
    (textfile = [] <-> ~ In "textfile" (collectors self)) /\
    (forall d, textfile_directory self = Some d ->
       textfile = [EmptyString; "  textfile {";
                   "    directory = " ++ dquote ++ d ++ dquote; "  }"]) /\
    (systemd = [] <-> ~ In "systemd" (collectors self)) /\
    (In "systemd" (collectors self) ->
       systemd = [EmptyString; "  systemd {"; "    enable_restarts = true"; "  }"]).
Proof.
  intros self. unfold run_migrate. fold self.
  destruct (parsed_collectors service_file exec_start_line) as (Ht & Hd & _ & Hc).
  fold self in Ht, Hd, Hc.
  destruct self as [cs dir]. simpl in *.
  destruct dir as [d|].
  - destruct (Hd d eq_refl) as [Hne _].
    destruct d as [|x d]; [contradiction|].
    assert (Hin : In "textfile" cs) by (apply Ht; eauto).
    destruct Hc as [-> | [-> | [-> | -> ]]]; try (simpl in Hin; intuition discriminate).
    + exists ["  enable_collectors = [" ++ dquote ++ "textfile" ++ dquote ++ "]"],
        [EmptyString; "  textfile {"; "    directory = " ++ dquote ++ String x d ++ dquote; "  }"],
        [].
      split; [reflexivity|]. split; [split; discriminate|].
      split. { intros _. reflexivity. }
      split. { split; [discriminate | intros H; exfalso; apply H; now left]. }
      split. { now intros d' [= <-]. }
      split. { split; [intros _ [H|[]]; discriminate H | reflexivity]. }
      intros [H|[]]. discriminate H.
    + exists ["  enable_collectors = [" ++ dquote ++ "systemd" ++ dquote ++ ", "
                ++ dquote ++ "textfile" ++ dquote ++ "]"],
        [EmptyString; "  textfile {"; "    directory = " ++ dquote ++ String x d ++ dquote; "  }"],
        [EmptyString; "  systemd {"; "    enable_restarts = true"; "  }"].
      split; [reflexivity|]. split; [split; discriminate|].
      split. { intros _. reflexivity. }
      split. { split; [discriminate | intros H; exfalso; apply H; right; now left]. }
      split. { now intros d' [= <-]. }
      split. { split; [discriminate | intros H; exfalso; apply H; now left]. }
      reflexivity.
  - assert (Hout : ~ In "textfile" cs) by (intros H; apply Ht in H as (d & H); discriminate H).
    destruct Hc as [-> | [-> | [-> | -> ]]]; try (exfalso; apply Hout; simpl; auto; fail).
    + exists [], [], []. split; [reflexivity|]. split; [tauto|].
      split. { intros H. now contradiction H. }
      repeat split; try tauto; try contradiction.
      intros d H. discriminate H.
    + exists ["  enable_collectors = [" ++ dquote ++ "systemd" ++ dquote ++ "]"], [],
        [EmptyString; "  systemd {"; "    enable_restarts = true"; "  }"].
      split; [reflexivity|]. split; [split; discriminate|].
      split. { intros _. reflexivity. }
      split. { split; [intros _; exact Hout | reflexivity]. }
      split. { intros d H. discriminate H. }
      split. { split; [discriminate | intros H; exfalso; apply H; now left]. }
      reflexivity.
Qed.

Lemma exec_start_at_spec (s g : string) :
  exec_start_at s = Some g ->
  exists after,
    s = "ExecStart=" ++ g ++ after /\
    g <> EmptyString /\ all_chars is_dot g = true /\
    (after = EmptyString \/ exists r, after = newline ++ r).
Proof.
  unfold exec_start_at.
  destruct (strip_prefix _ s) as [rest|] eqn:Ep; [|discriminate].
  apply strip_prefix_spec in Ep.
  destruct (take_while is_dot rest) as [|x t] eqn:Et; [discriminate|].
  intros [= <-].
  destruct (take_while_rest is_dot rest) as (after & Hrest & Hafter).
  exists after. split; [|split; [discriminate|split]].
  - rewrite Ep at 1. now rewrite Hrest, Et.
  - rewrite <- Et. apply take_while_all.
  - destruct Hafter as [->|(c & r & -> & Hc)]; [now left|].
    right. exists r. unfold is_dot in Hc. apply negb_false_iff, Nat.eqb_eq in Hc.
    simpl. f_equal. rewrite <- (ascii_nat_embedding c), Hc. reflexivity.
Qed.

(** X4.  A non-empty [exec_start_line] is used as it is and the unit file
    is not read.  Otherwise the command line is taken from the unit file:
    it is what follows the leftmost [ExecStart=] that has text after it
    (no earlier position of the file matches), up to the end of that line
    only, so what a continuation line holds is not seen; parsing the file
    is then parsing that one line. *)
Theorem exec_start_source (service_file : option string) :
  (forall c line,
     parse_service_file service_file (Some (String c line))
     = parse_service_file None (Some (String c line))) /\
  (forall content exec_start_line line,
     service_file = Some content ->
     exec_start_line = None \/ exec_start_line = Some EmptyString ->
     search exec_start_at content = Some line ->
     (exists before after,
        content = before ++ "ExecStart=" ++ line ++ after /\
        (after = EmptyString \/ exists r, after = newline ++ r) /\
        forall a b, content = a ++ b -> String.length a < String.length before ->
                    exec_start_at b = None) /\
     line <> EmptyString /\
     all_chars is_dot line = true /\
     parse_service_file service_file exec_start_line
     = parse_service_file None (Some line)).
Proof.
  split; [reflexivity|].
  intros content e line -> He Hs.
  destruct (search_spec _ _ _ Hs) as (before & rest & Hc & Hm & Hleft).
  destruct (exec_start_at_spec _ _ Hm) as (after & -> & Hne & Hdot & Hafter).
  split; [exists before, after; split; [exact Hc | split; [exact Hafter | exact Hleft]]|].
  split; [exact Hne|]. split; [exact Hdot|].
  unfold parse_service_file, exec_line_of.
  destruct line as [|x line]; [contradiction|].
  destruct He as [->| ->]; now rewrite Hs.
Qed.

Lemma exec_start_source_witness :
  parse_service_file (Some continued_unit) None
  = {| collectors := ["systemd"]; textfile_directory := None |}.
Proof.
  destruct (proj2 (exec_start_source (Some continued_unit)) continued_unit None
              "/usr/bin/node_exporter --collector.systemd \"
              eq_refl (or_introl eq_refl) eq_refl) as (_ & _ & _ & H).
  rewrite H. reflexivity.
Defined.

(** X5.  With no usable command line (no [exec_start_line] or an empty
    one, and no unit file or one without an [ExecStart=] followed by
    text), and also with a command line that holds neither flag, nothing
    is treated as an error: no collector is enabled and the document is
    the bare exporter, the scrape component and the placeholder remote
    write. *)
Theorem nothing_recognised (service_file exec_start_line : option string) :
  (exec_line_of service_file exec_start_line = None \/
   exists line,
     exec_line_of service_file exec_start_line = Some line /\
     substring_of "--collector.systemd" line = false /\
     (forall a b, line = a ++ b -> textfile_at b = None)) ->
  parse_service_file service_file exec_start_line
  = {| collectors := []; textfile_directory := None |} /\
  run_migrate service_file exec_start_line
  = join newline (exporter_header :: "}" :: EmptyString :: scrape_and_remote_write).
Proof.
  intros H.
  assert (Hp : parse_service_file service_file exec_start_line
               = {| collectors := []; textfile_directory := None |}).
  { unfold parse_service_file. destruct H as [-> | (line & -> & -> & Hn)]; [reflexivity|].
    destruct (search textfile_at line) as [d|] eqn:Ed; [|reflexivity].
    apply search_spec in Ed as (before & rest & Hl & Hm & _).
    rewrite (Hn before rest Hl) in Hm. discriminate. }
  split; [exact Hp|]. unfold run_migrate. now rewrite Hp.
Qed.

Lemma nothing_recognised_witness :
  run_migrate (Some "[Unit]") (Some EmptyString)
  = join newline (exporter_header :: "}" :: EmptyString :: scrape_and_remote_write).
Proof.
  exact (proj2 (nothing_recognised (Some "[Unit]") (Some EmptyString) (or_introl eq_refl))).
Defined.

End NodeExporter.

(** ** Further properties of the builder *)

Module Builder.
Import Py PyFacts PromtailToAlloyMigrator Notions BuilderNotions BuilderFacts GraphBuilder.

Lemma counter_get_set_same t n cs : counter_get t (counter_set t n cs) = Some n.
Proof.
  induction cs as [|[t' m] cs IH]; simpl.
  - now rewrite String.eqb_refl.
  - destruct (String.eqb t' t) eqn:E; simpl; rewrite E; [reflexivity | exact IH].
Qed.

Lemma counter_get_set_other t u n cs :
  u <> t -> counter_get u (counter_set t n cs) = counter_get u cs.
Proof.
  intros Hne. induction cs as [|[t' m] cs IH]; simpl.
  - destruct (String.eqb_spec t u) as [->|_]; [contradiction | reflexivity].
  - destruct (String.eqb_spec t' t) as [->|Ht]; simpl.
    + destruct (String.eqb_spec t u) as [->|_]; [contradiction | reflexivity].
    + destruct (String.eqb t' u); [reflexivity | exact IH].
Qed.

Lemma NoDup_map_injective {A B} (f : A -> B) (l : list A) :
  (forall x y, f x = f y -> x = y) -> NoDup l -> NoDup (map f l).
Proof.
  intros Hinj. induction 1 as [|a l Ha _ IH]; simpl; constructor; [|exact IH].
  rewrite in_map_iff. intros (b & Hb & Hin). apply Hinj in Hb. now subst b.
Qed.

Lemma _get_component_id_step t self :
  exists self',
    _get_component_id t self = Ok (t ++ "_" ++ str_of_nat (S (counter_of t self)), self') /\
    counter_of t self' = S (counter_of t self) /\
    (forall u, u <> t -> counter_of u self' = counter_of u self) /\
    alloy_components self' = alloy_components self /\
    promtail_config self' = promtail_config self.
Proof.
  unfold _get_component_id, counter_of. eexists. split; [reflexivity|]. simpl.
  split; [now rewrite counter_get_set_same|].
  split; [|split; reflexivity].
  intros u Hu. now rewrite counter_get_set_other.
Qed.

(** X6.  [_get_component_id] numbers every component type on its own:
    [k] calls for a type whose count is [n] return [<type>_<n+1>], ...,
    [<type>_<n+k>], pairwise different, leave the count at [n + k], and
    change neither the counts of the other types nor the component
    list. *)
Theorem component_ids_numbered (component_type : string) (k : nat) (self : migrator) :
  exists self',
    component_ids component_type k self
    = Ok (map (fun i => component_type ++ "_" ++ str_of_nat i)
              (seq (S (counter_of component_type self)) k), self') /\
    NoDup (map (fun i => component_type ++ "_" ++ str_of_nat i)
               (seq (S (counter_of component_type self)) k)) /\
    counter_of component_type self' = counter_of component_type self + k /\
    (forall u, u <> component_type -> counter_of u self' = counter_of u self) /\
    alloy_components self' = alloy_components self.
Proof.
  revert self. induction k as [|k IH]; intros self.
  - exists self. simpl. repeat split; [constructor | lia].
  - destruct (_get_component_id_step component_type self)
      as (s1 & Hcall & Hcount & Hother & Hcomps & _).
    destruct (IH s1) as (s2 & Hrest & _ & Hcount2 & Hother2 & Hcomps2).
    exists s2. split; [|split; [|split; [|split]]].
    + simpl. unfold bindM. rewrite Hcall, Hrest, Hcount. reflexivity.
    + apply NoDup_map_injective; [|apply seq_NoDup].
      intros i j H. apply append_inj_l, (append_inj_l "_") in H.
      now apply str_of_nat_inj.
    + rewrite Hcount2, Hcount. lia.
    + intros u Hu. now rewrite Hother2, Hother.
    + congruence.
Qed.

(** X7.  The builder only appends, and what it appends depends on the
    document alone: run on an instance that already holds components, it
    adds the components of the document after them.  So a second run on the
    same instance adds every component a second time. *)
Theorem build_appends (self : migrator) (comps : list component) :
  run_build (promtail_config self) = Ok comps ->
  build self = Ok (tt, add_components self comps) /\
  (build ;;; build) self = Ok (tt, add_components self (comps ++ comps)).
Proof.
  rewrite run_build_eq. intros H.
  assert (Hb : forall s, promtail_config s = promtail_config self ->
                         build s = Ok (tt, add_components s comps)).
  { intros s Hs. now rewrite build_eq, Hs, H. }
  split; [now apply Hb|].
  unfold bindM. rewrite (Hb self eq_refl), (Hb (add_components self comps) eq_refl).
  now rewrite add_components_app.
Qed.

Lemma build_appends_witness :
  (build ;;; build) (init one_static_job)
  = Ok (tt, add_components (init one_static_job)
              (one_static_job_components ++ one_static_job_components)).
Proof.
  exact (proj2 (build_appends (init one_static_job) _ one_static_job_build)).
Defined.

(** X8.  A document that is not a mapping (an empty YAML file loads as
    null) makes the translation raise [AttributeError]; so does nothing
    else at that point: a mapping without [clients] and without
    [scrape_configs] is translated to no component and the empty text, and
    a [clients] key left empty (null) raises [TypeError]. *)
Theorem document_edges :
  (forall config,
     is_dict config = false ->
     run_build config = Err AttributeError /\ run_migrate config = Err AttributeError) /\
  (forall d,
     dict_lookup "clients" d = None -> dict_lookup "scrape_configs" d = None ->
     run_build (VDict d) = Ok [] /\ run_migrate (VDict d) = Ok EmptyString) /\
  (forall d,
     dict_lookup "clients" d = Some VNull ->
     run_build (VDict d) = Err TypeError /\ run_migrate (VDict d) = Err TypeError).
Proof.
  split; [|split].
  - intros config H. destruct config; try discriminate H; split; reflexivity.
  - intros d Hc Hs. split.
    + rewrite run_build_eq. unfold document_components, clients_components, jobs_components.
      simpl. now rewrite Hc, Hs.
    + unfold run_migrate, migrate, bindM. rewrite _process_clients_emits.
      unfold clients_components. simpl. rewrite Hc. simpl.
      rewrite _process_scrape_configs_emits. unfold jobs_components. simpl.
      rewrite Hs. reflexivity.
  - intros d Hc. split.
    + rewrite run_build_eq. unfold document_components, clients_components.
      simpl. now rewrite Hc.
    + unfold run_migrate, migrate, bindM. rewrite _process_clients_emits.
      unfold clients_components. simpl. now rewrite Hc.
Qed.

Lemma document_edges_witness :
  run_migrate VNull = Err AttributeError /\
  run_migrate (VDict [(KStr "server", VDict [(KStr "http_listen_port", VInt 9080)])])
  = Ok EmptyString.
Proof.
  destruct document_edges as (H1 & H2 & _). split.
  - exact (proj2 (H1 VNull eq_refl)).
  - exact (proj2 (H2 [(KStr "server", VDict [(KStr "http_listen_port", VInt 9080)])]
                     eq_refl eq_refl)).
Defined.

(** X9.  A job that is a mapping with neither [static_configs] nor
    [journal] is passed over: the instance is left as it was, whatever
    the job holds under [pipeline_stages] or [relabel_configs].  A job that
    is not a mapping raises [AttributeError]. *)
Theorem job_without_mechanism (job : value) (self : migrator) :
  (forall d, job = VDict d ->
     dict_lookup "static_configs" d = None -> dict_lookup "journal" d = None ->
     process_scrape_config job self = Ok (tt, self)) /\
  (is_dict job = false -> process_scrape_config job self = Err AttributeError).
Proof.
  split.
  - intros d -> Hs Hj. rewrite (process_scrape_config_emits (VDict d) self).
    unfold job_components. rewrite !py_in_dict, Hs, Hj. simpl.
    destruct (dict_lookup "job_name" d); simpl; now rewrite add_components_nil.
  - intros H. destruct job; try discriminate H; reflexivity.
Qed.

Lemma job_without_mechanism_witness :
  process_scrape_config
    (VDict [(KStr "job_name", VStr "syslog");
            (KStr "syslog", VDict [(KStr "listen_address", VStr "0.0.0.0:1514")]);
            (KStr "relabel_configs", VNull)])
    (init VNull)
  = Ok (tt, init VNull).
Proof.
  exact (proj1 (job_without_mechanism _ (init VNull))
           [(KStr "job_name", VStr "syslog");
            (KStr "syslog", VDict [(KStr "listen_address", VStr "0.0.0.0:1514")]);
            (KStr "relabel_configs", VNull)]
           eq_refl eq_refl eq_refl).
Defined.

Lemma dict_lookup_set_other k k' v d :
  k <> k' -> dict_lookup k' (dict_set (KStr k) v d) = dict_lookup k' d.
Proof.
  intros Hne. induction d as [|[x w] d IH]; simpl.
  - destruct (String.eqb_spec k k') as [->|_]; [contradiction | reflexivity].
  - rewrite key_eqb_KStr. destruct (key_is k x) eqn:E; simpl.
    + apply key_is_eq in E. subst x. simpl.
      destruct (String.eqb_spec k k') as [->|_]; [contradiction | reflexivity].
    + destruct (key_is k' x); [reflexivity | exact IH].
Qed.

Lemma copy_config_forward k from c c' :
  k <> "forward_to" -> copy_config k from c = Ok c' ->
  forward_to_of c' = forward_to_of c /\ c_type c' = c_type c /\ c_id c' = c_id c.
Proof.
  intros Hk. unfold copy_config, bind, forward_to_of.
  destruct (py_in k from) as [[|]|]; try discriminate.
  - destruct (py_getitem from k); [|discriminate]. intros [= <-]. simpl.
    split; [now apply dict_lookup_set_other | now split].
  - intros [= <-]. now split.
Qed.

(** X10.  The components the journal branch appends are wired in a chain
    that ends at the default sink: the journal source forwards to the
    relabel component when there is one, and otherwise to what the relabel
    component would forward to, which is the processing component when
    there is one and the default sink otherwise; the processing component
    forwards to the default sink.  They are appended in the order relabel,
    source, processing. *)
Theorem journal_wiring (config job_name : value) (self self' : migrator) :
  _process_journal_config config job_name self = Ok (tt, self') ->
  exists (source : component) (relabel process : option component),
    self' = add_components self (optional relabel ++ [source] ++ optional process) /\
    c_type source = "loki.source.journal" /\ c_id source = job_name /\
    (forall r, relabel = Some r -> c_type r = "loki.relabel") /\
    (forall p, process = Some p -> c_type p = "loki.process" /\ c_id p = job_name) /\
    let onward := match process with
                  | Some p => receiver p
                  | None => default_receiver
                  end in
    forward_to_of source = Some (match relabel with
                                 | Some r => receiver r
                                 | None => onward
                                 end) /\
    (forall r, relabel = Some r -> forward_to_of r = Some onward) /\
    (forall p, process = Some p -> forward_to_of p = Some default_receiver).
Proof.
  rewrite (_process_journal_config_emits config job_name self).
  unfold journal_components, bind.
  destruct (py_get config "journal" _) as [jc|]; [|discriminate].
  destruct (needs_process config) as [needs|]; [|discriminate].
  destruct (copy_config "max_age" jc _) as [j1|] eqn:E1; [|discriminate].
  destruct (copy_config "labels" jc j1) as [j2|] eqn:E2; [|discriminate].
  destruct (relabel_rules config) as [rules|]; [|discriminate].
  apply copy_config_forward in E1 as (F1 & T1 & I1); [|discriminate].
  apply copy_config_forward in E2 as (F2 & T2 & I2); [|discriminate].
  rewrite F1 in F2. rewrite T1 in T2. rewrite I1 in I2. simpl in F2, T2, I2.
  unfold forward_to_of in F2. simpl in F2.
  unfold journal_forward_to in *.
  destruct (py_truth needs).
  - destruct (process_stages config) as [stages|]; [|discriminate].
    intros [= <-].
    destruct rules as [|r rules].
    + exists j2, None, (Some (process_component job_name stages)).
      split; [reflexivity|]. split; [exact T2|]. split; [exact I2|].
      split; [discriminate|]. split; [now intros p [= <-]|].
      split; [exact F2|]. split; [discriminate | now intros p [= <-]].
    + exists (set_config j2 "forward_to"
                (VList [VStr ("loki.relabel." ++ py_str job_name ++ "_relabel.receiver")])),
        (Some (relabel_component job_name ("loki.process." ++ py_str job_name ++ ".receiver")
                 (r :: rules))),
        (Some (process_component job_name stages)).
      split; [reflexivity|]. split; [exact T2|]. split; [exact I2|].
      split; [now intros x [= <-]|]. split; [now intros p [= <-]|].
      split; [|split; [now intros x [= <-] | now intros p [= <-]]].
      unfold forward_to_of, receiver. simpl c_config. rewrite dict_lookup_set_same.
      simpl. rewrite string_append_assoc. reflexivity.
  - intros [= <-].
    destruct rules as [|r rules].
    + exists j2, None, None.
      split; [simpl; reflexivity|]. split; [exact T2|]. split; [exact I2|].
      split; [discriminate|]. split; [discriminate|].
      split; [exact F2|]. split; discriminate.
    + exists (set_config j2 "forward_to"
                (VList [VStr ("loki.relabel." ++ py_str job_name ++ "_relabel.receiver")])),
        (Some (relabel_component job_name "loki.write.default.receiver" (r :: rules))),
        None.
      split; [simpl; reflexivity|]. split; [exact T2|]. split; [exact I2|].
      split; [now intros x [= <-]|]. split; [discriminate|].
      split; [|split; [now intros x [= <-] | discriminate]].
      unfold forward_to_of, receiver. simpl c_config. rewrite dict_lookup_set_same.
      simpl. rewrite string_append_assoc. reflexivity.
Qed.

Lemma journal_wiring_witness :
  exists source relabel,
    _process_journal_config relabel_only_job (VStr "journal") (init VNull)
    = Ok (tt, add_components (init VNull) [relabel; source]) /\
    forward_to_of source = Some (VList [VStr "loki.relabel.journal_relabel.receiver"]) /\
    forward_to_of relabel = Some (VList [VStr "loki.write.default.receiver"]).
Proof.
  destruct (journal_wiring relabel_only_job (VStr "journal") (init VNull) _ eq_refl)
    as (source & relabel & process & Hs & T & _ & _ & _ & Hsrc & Hrel & _).
  destruct relabel as [r|], process as [p|];
    try (lazy in Hs; discriminate Hs);
    [|lazy in Hs; injection Hs as <- _; discriminate T].
  exists source, r. split; [|split; [|exact (Hrel _ eq_refl)]].
  - lazy in Hs. injection Hs as <- <-. reflexivity.
  - rewrite Hsrc. lazy in Hs. injection Hs as <- _. reflexivity.
Defined.

Lemma key_eqb_KStr_l a x : key_eqb (KStr a) x = key_is a x.
Proof. destruct x as [s|z|[|]|]; try reflexivity. simpl. apply String.eqb_sym. Qed.

Lemma dict_set_fresh x v (d : dict) :
  forallb (fun kv => negb (key_eqb (fst kv) x)) d = true ->
  dict_set x v d = extend d [(x, v)].
Proof.
  induction d as [|[y w] d IH]; simpl; [reflexivity|].
  intros H. apply andb_true_iff in H as [Hy Hd].
  apply negb_true_iff in Hy. rewrite Hy. unfold extend in *. simpl. now rewrite IH.
Qed.

Lemma dict_update_over_address (a : string) (m : dict) :
  forall (t : value) (acc : dict),
    distinct_keys m = true ->
    forallb (fun y => forallb (fun x => negb (key_eqb (fst y) (fst x))) m) acc = true ->
    fold_left (fun acc kv => dict_set (fst kv) (snd kv) acc) m ((KStr a, t) :: acc)
    = (KStr a, match dict_lookup a m with Some v => v | None => t end)
        :: extend acc (without a m).
Proof.
  unfold extend.
  induction m as [|[x v] m IH]; intros t acc Hd Hacc.
  - simpl. now rewrite app_nil_r.
  - simpl in Hd. apply andb_true_iff in Hd as [Hx Hm].
    unfold without. cbn [fold_left dict_set fst snd dict_lookup filter].
    fold (without a m).
    rewrite key_eqb_KStr_l. destruct (key_is a x) eqn:Ea; cbn [negb].
    + apply key_is_eq in Ea. subst x.
      assert (Hnone : dict_lookup a m = None).
      { clear -Hx. induction m as [|[y w] m IH]; [reflexivity|].
        cbn [forallb fst dict_lookup] in *.
        apply andb_true_iff in Hx as [Hy Hm]. apply negb_true_iff in Hy.
        rewrite key_eqb_KStr_l in Hy. rewrite Hy. now apply IH. }
      rewrite IH; [now rewrite Hnone | exact Hm |].
      clear -Hacc. induction acc as [|y acc IH]; simpl in *; [reflexivity|].
      apply andb_true_iff in Hacc as [Hy Hr]. apply andb_true_iff in Hy as [_ Hy].
      now rewrite Hy, IH.
    + rewrite dict_set_fresh.
      * unfold extend. rewrite IH; [now rewrite <- app_assoc | exact Hm |].
        rewrite forallb_app. simpl. rewrite Hx. simpl. rewrite andb_true_r.
        clear -Hacc. induction acc as [|y acc IH]; simpl in *; [reflexivity|].
        apply andb_true_iff in Hacc as [Hy Hr]. apply andb_true_iff in Hy as [_ Hy].
        now rewrite Hy, IH.
      * clear -Hacc. induction acc as [|y acc IH]; simpl in *; [reflexivity|].
        apply andb_true_iff in Hacc as [Hy Hr]. apply andb_true_iff in Hy as [Hy _].
        now rewrite Hy, IH.
Qed.

(** X11.  Each target of a static entry becomes a mapping that opens with
    [__address__] and goes on with the entry's labels in their order.  The
    address is the target, unless the labels hold an [__address__] of
    their own: then that label's value replaces the target, and the label
    is not listed a second time. *)
Theorem path_target_labels (labels : dict) (target : value) :
  distinct_keys labels = true ->
  path_target (VDict labels) target
  = Ok (VDict ((KStr "__address__",
                match dict_lookup "__address__" labels with
                | Some v => v
                | None => target
                end) :: without "__address__" labels)) /\
  (dict_lookup "__address__" labels = None ->
   path_target (VDict labels) target
   = Ok (VDict ((KStr "__address__", target) :: labels))).
Proof.
  intros Hd.
  assert (H := dict_update_over_address "__address__" labels target [] Hd eq_refl).
  unfold path_target, dict_update, bind. split.
  - now rewrite H.
  - intros Hnone. rewrite H, Hnone. unfold extend. simpl. do 3 f_equal.
    clear -Hnone. unfold without.
    induction labels as [|[y w] m IH]; simpl in *; [reflexivity|].
    destruct (key_is "__address__" y); [discriminate|]. simpl. now rewrite IH.
Qed.

Lemma path_target_labels_witness :
  path_target (VDict [(KStr "job", VStr "varlogs");
                      (KStr "__address__", VStr "otherhost");
                      (KStr "__path__", VStr "/var/log/*.log")])
              (VStr "localhost")
  = Ok (VDict [(KStr "__address__", VStr "otherhost");
               (KStr "job", VStr "varlogs");
               (KStr "__path__", VStr "/var/log/*.log")]).
Proof.
  exact (proj1 (path_target_labels
                  [(KStr "job", VStr "varlogs");
                   (KStr "__address__", VStr "otherhost");
                   (KStr "__path__", VStr "/var/log/*.log")]
                  (VStr "localhost") eq_refl)).
Defined.

End Builder.

(** ** Properties of the config emitter *)

Module Emitter.
Import Py PyFacts PromtailToAlloyMigrator Notions BuilderNotions BuilderFacts GraphBuilder Builder.

Lemma mapM_out {A B} (f : A -> result B) (l : list A) (bs : list B) (b : B) :
  mapM f l = Ok bs -> In b bs -> exists a, In a l /\ f a = Ok b.
Proof.
  revert bs. induction l as [|x l IH]; simpl; intros bs H Hin.
  - injection H as <-. contradiction.
  - destruct (f x) as [y|] eqn:Ex; simpl in H; [|discriminate].
    destruct (mapM f l) as [ys|]; simpl in H; [|discriminate].
    injection H as <-. destruct Hin as [<-|Hin]; [eauto|].
    destruct (IH ys eq_refl Hin) as (a & Ha & Hf). eauto.
Qed.

Lemma set_config_renderable c k v :
  k <> "_rules" -> renderable c = true -> renderable (set_config c k v) = true.
Proof.
  intros Hk. unfold renderable, set_config. simpl.
  assert (Hnew : rules_ok (KStr k, v) = true).
  { unfold rules_ok. simpl. destruct (String.eqb_spec k "_rules"); [contradiction | reflexivity]. }
  induction (c_config c) as [|[x w] d IH]; intros H.
  - simpl. now rewrite Hnew.
  - cbn [forallb] in H. apply andb_true_iff in H as [Hx Hd].
    cbn [dict_set]. rewrite key_eqb_KStr. destruct (key_is k x) eqn:E; cbn [forallb].
    + apply key_is_eq in E. subst x. now rewrite Hnew, Hd.
    + now rewrite Hx, IH.
Qed.

Lemma copy_config_renderable k from c c' :
  k <> "_rules" -> copy_config k from c = Ok c' ->
  renderable c = true -> renderable c' = true.
Proof.
  intros Hk. unfold copy_config, bind.
  destruct (py_in k from) as [[|]|]; try discriminate.
  - destruct (py_getitem from k); [|discriminate]. intros [= <-].
    now apply set_config_renderable.
  - now intros [= <-].
Qed.

Lemma relabel_rule_dict config r : relabel_rule config = Ok r -> is_dict r = true.
Proof.
  unfold relabel_rule, bind.
  repeat (destruct (copy_field _ _ _); [|discriminate]).
  now intros [= <-].
Qed.

Lemma relabel_rules_dicts config rules :
  relabel_rules config = Ok rules -> forallb is_dict rules = true.
Proof.
  unfold relabel_rules, _convert_relabel_configs, bind.
  destruct (py_in _ config) as [[|]|]; try discriminate.
  - destruct (py_getitem config _) as [rc|]; [|discriminate].
    destruct (py_iter rc) as [items|]; [|discriminate].
    intros H. apply forallb_forall. intros r Hr.
    destruct (mapM_out _ _ _ _ H Hr) as (a & _ & Ha).
    exact (relabel_rule_dict a r Ha).
  - now intros [= <-].
Qed.

Lemma client_component_renderable idx client c :
  client_component idx client = Ok c -> renderable c = true.
Proof.
  unfold client_component, bind.
  destruct (py_getitem client "url"); [|discriminate].
  destruct (py_in "basic_auth" client) as [[|]|]; try discriminate.
  - destruct (py_getitem client "basic_auth") as [auth|]; [|discriminate].
    destruct (py_get auth "username" _); [|discriminate].
    destruct (py_get auth "password" _); [|discriminate].
    now intros [= <-].
  - now intros [= <-].
Qed.

Lemma clients_renderable config cs :
  clients_components config = Ok cs -> forallb renderable cs = true.
Proof.
  unfold clients_components, bind.
  destruct (py_get config "clients" _) as [clients|]; [|discriminate].
  destruct (py_iter clients) as [items|]; [|discriminate].
  intros H. apply forallb_forall. intros c Hc.
  destruct (mapM_out _ _ _ _ H Hc) as (a & _ & Ha).
  exact (client_component_renderable _ _ _ Ha).
Qed.

Lemma static_renderable config job_name cs :
  static_components config job_name = Ok cs -> forallb renderable cs = true.
Proof.
  unfold static_components, bind.
  destruct (py_get config "static_configs" _) as [sc|]; [|discriminate].
  destruct (py_iter sc) as [items|]; [|discriminate].
  destruct (mapM _ _) as [pairs|] eqn:Hp; [|discriminate].
  intros [= <-]. apply forallb_forall. intros c Hc.
  apply in_flat_map in Hc as (p & Hin & Hc).
  destruct (mapM_out _ _ _ _ Hp Hin) as (ic & _ & Hic).
  unfold static_pair, bind in Hic.
  destruct (entry_path_targets _); [|discriminate].
  destruct (inline_stages config) as [s|]; [|discriminate].
  injection Hic as <-. simpl in Hc. destruct Hc as [<-|[<-|[]]]; [reflexivity|].
  unfold with_stages. destruct (nonempty s); reflexivity.
Qed.

Lemma journal_renderable config job_name cs :
  journal_components config job_name = Ok cs -> forallb renderable cs = true.
Proof.
  unfold journal_components, bind. cbv zeta.
  destruct (py_get config "journal" _) as [jc|]; [|discriminate].
  destruct (needs_process config) as [needs|]; [|discriminate].
  destruct (copy_config "max_age" jc _) as [j1|] eqn:E1; [|discriminate].
  destruct (copy_config "labels" jc j1) as [j2|] eqn:E2; [|discriminate].
  destruct (relabel_rules config) as [rules|] eqn:Er; [|discriminate].
  apply copy_config_renderable in E1; [|discriminate|reflexivity].
  apply copy_config_renderable in E2; [|discriminate|exact E1].
  apply relabel_rules_dicts in Er.
  assert (Hrel : forall forward_to,
            renderable (relabel_component job_name forward_to rules) = true).
  { intros forward_to. unfold renderable, relabel_component, rules_ok. simpl.
    now rewrite Er. }
  assert (Hsrc : forall r j3,
            renderable r = true -> renderable j3 = true ->
            forallb renderable match rules with [] => [j2] | _ :: _ => [r; j3] end = true).
  { intros r j3 Hr H3. destruct rules; simpl; now rewrite ?E2, ?Hr, ?H3. }
  destruct (py_truth needs).
  - destruct (process_stages config) as [stages|]; [|discriminate].
    intros [= <-]. rewrite forallb_app. apply andb_true_iff. split; [|reflexivity].
    apply Hsrc; [apply Hrel | apply set_config_renderable; [discriminate | exact E2]].
  - intros [= <-]. rewrite forallb_app. apply andb_true_iff. split; [|reflexivity].
    apply Hsrc; [apply Hrel | apply set_config_renderable; [discriminate | exact E2]].
Qed.

Lemma job_renderable config cs :
  job_components config = Ok cs -> forallb renderable cs = true.
Proof.
  unfold job_components, bind.
  destruct (py_get config "job_name" _) as [job_name|]; [|discriminate].
  destruct (py_in "static_configs" config) as [has_static|]; [|discriminate].
  destruct (if has_static then _ else _) as [static|] eqn:Es; [|discriminate].
  destruct (py_in "journal" config) as [has_journal|]; [|discriminate].
  destruct (if has_journal then _ else _) as [journal|] eqn:Ej; [|discriminate].
  intros [= <-]. rewrite forallb_app. apply andb_true_iff. split.
  - destruct has_static; [exact (static_renderable _ _ _ Es) | now injection Es as <-].
  - destruct has_journal; [exact (journal_renderable _ _ _ Ej) | now injection Ej as <-].
Qed.

Lemma document_renderable config cs :
  document_components config = Ok cs -> forallb renderable cs = true.
Proof.
  unfold document_components, bind.
  destruct (clients_components config) as [sinks|] eqn:Ec; [|discriminate].
  destruct (jobs_components config) as [jobs|] eqn:Ej; [|discriminate].
  intros [= <-]. rewrite forallb_app. apply andb_true_iff. split.
  - exact (clients_renderable _ _ Ec).
  - unfold jobs_components, bind in Ej.
    destruct (py_get config "scrape_configs" _) as [sc|]; [|discriminate].
    destruct (py_iter sc) as [items|]; [|discriminate].
    apply forallb_forall. intros c Hc. apply in_concat in Hc as (job & Hjob & Hc).
    destruct (mapM_out _ _ _ _ Ej Hjob) as (a & _ & Ha).
    apply job_renderable in Ha. rewrite forallb_forall in Ha. now apply Ha.
Qed.

(** X12.  In every component the builder returns, a [_rules] entry of the
    configuration is a list whose elements are all mappings.  So the two
    loops of [_format_component] over such an entry, [for rule in value]
    and [rule.items()], have a list and mappings to iterate over.  (Nothing
    is said here of [json.dumps], which the emitter calls on the values.) *)
Theorem rules_entries_are_mappings (document : value) (comps : list component) :
  run_build document = Ok comps ->
  forall c k v,
    In c comps -> In (k, v) (c_config c) -> key_is "_rules" k = true ->
    exists rules : list dict,
      v = VList (map VDict rules) /\
      py_iter v = Ok (map VDict rules) /\
      Forall (fun rule => exists items, py_items rule = Ok items) (map VDict rules).
Proof.
  rewrite run_build_eq. intros Hd c k v Hc Hkv Hk.
  apply document_renderable in Hd. rewrite forallb_forall in Hd.
  specialize (Hd c Hc). unfold renderable in Hd. rewrite forallb_forall in Hd.
  specialize (Hd (k, v) Hkv). unfold rules_ok in Hd. cbn [fst snd] in Hd.
  rewrite Hk in Hd. destruct v as [| | | |l|]; try discriminate Hd.
  assert (Hl : exists rules : list dict, l = map VDict rules).
  { clear -Hd. induction l as [|r l IH]; [now exists []|].
    cbn [forallb] in Hd. apply andb_true_iff in Hd as [Hr Hl].
    destruct (IH Hl) as [rules ->]. destruct r; try discriminate Hr.
    now exists (d :: rules). }
  destruct Hl as [rules ->]. exists rules. split; [reflexivity|]. split; [reflexivity|].
  apply Forall_forall. intros rule Hin. apply in_map_iff in Hin as (d & <- & _).
  now exists d.
Qed.

Lemma rules_entries_are_mappings_witness :
  exists rules : list dict,
    VList [VDict [(KStr "source_labels", VList [VStr "__journal__systemd_unit"]);
                  (KStr "target_label", VStr "unit")]]
    = VList (map VDict rules).
Proof.
  destruct (rules_entries_are_mappings relabel_document _ eq_refl
              (relabel_component (VStr "journal") "loki.write.default.receiver"
                 [VDict [(KStr "source_labels", VList [VStr "__journal__systemd_unit"]);
                         (KStr "target_label", VStr "unit")]])
              (KStr "_rules")
              (VList [VDict [(KStr "source_labels", VList [VStr "__journal__systemd_unit"]);
                             (KStr "target_label", VStr "unit")]]))
    as (rules & H & _).
  - now left.
  - right. now left.
  - reflexivity.
  - exists rules. exact H.
Defined.

Lemma inline_text_prefix stages s :
  _convert_pipeline_stages stages = Ok s ->
  s = EmptyString \/ exists rest, s = "stage." ++ rest.
Proof.
  unfold _convert_pipeline_stages, bind.
  destruct (negb (py_truth stages)); [intros [= <-]; now left|].
  destruct (py_iter stages) as [items|]; [|discriminate].
  destruct (mapM _convert_single_stage items) as [converted|]; [|discriminate].
  destruct (filter nonempty converted) as [|t ts]; intros [= <-]; [now left|].
  right. eexists. reflexivity.
Qed.

(** X13.  The block of a file source: its [targets] attribute is the bare
    reference to the discovery component, its [forward_to] the bare default
    sink, and the inline pipeline text, when the job has one, is written as
    one [stages] attribute holding the whole pipeline as a quoted JSON
    string (not as stage blocks). *)
Theorem source_file_block (id stages : value) (s : string) :
  _convert_pipeline_stages stages = Ok s ->
  _format_component (with_stages (source_file_component id) s)
  = Ok (extend
          ["loki.source.file " ++ dquote ++ py_str id ++ dquote ++ " {";
           "  targets = local.file_match." ++ py_str id ++ ".targets";
           "  forward_to = [loki.write.default.receiver]"]
          (extend
             (if nonempty s then ["  stages = " ++ json_dumps (VStr s)] else [])
             ["}"])).
Proof.
  intros H. apply inline_text_prefix in H as [->|[rest ->]]; [reflexivity|].
  assert (Hne : nonempty ("stage." ++ rest) = true) by reflexivity.
  assert (H1 : startswith "local." ("stage." ++ rest) = false) by reflexivity.
  assert (H2 : startswith "loki." ("stage." ++ rest) = false) by reflexivity.
  assert (H3 : startswith "prometheus." ("stage." ++ rest) = false) by reflexivity.
  remember ("stage." ++ rest) as s eqn:Hs. clear Hs.
  unfold with_stages. rewrite Hne.
  unfold _format_component, set_config, source_file_component.
  cbn -[startswith json_dumps py_str String.append]. rewrite H1, H2, H3.
  unfold attribute_line. cbn -[json_dumps py_str].
  rewrite !string_append_nil_r. reflexivity.
Qed.

Lemma source_file_block_witness :
  _format_component
    (with_stages (source_file_component (VStr "app")) "stage.regex { expression = 1 }")
  = Ok ["loki.source.file " ++ dquote ++ "app" ++ dquote ++ " {";
        "  targets = local.file_match.app.targets";
        "  forward_to = [loki.write.default.receiver]";
        "  stages = " ++ dquote ++ "stage.regex { expression = 1 }" ++ dquote;
        "}"].
Proof.
  exact (source_file_block (VStr "app")
           (VList [VDict [(KStr "regex", VDict [(KStr "expression", VInt 1)])]])
           _ eq_refl).
Defined.

















End Emitter.

(** ** Properties of the relabel and structured stage translation *)

Module Stages.
Import Py PyFacts PromtailToAlloyMigrator Notions BuilderNotions BuilderFacts GraphBuilder StageTranslator.

Lemma relabel_rule_kept (config : dict) :
  relabel_rule (VDict config) = Ok (VDict (kept_fields config)).
Proof.
  unfold relabel_rule, copy_field, kept_fields, relabel_fields, bind.
  rewrite !py_in_dict. cbn [py_getitem flat_map].
  destruct (dict_lookup "source_labels" config);
    destruct (dict_lookup "target_label" config);
    destruct (dict_lookup "regex" config);
    destruct (dict_lookup "replacement" config);
    destruct (dict_lookup "action" config); reflexivity.
Qed.

(** X15.  Relabel rules are translated one for one and in order.  Of a rule
    mapping only the fields [source_labels], [target_label], [regex],
    [replacement] and [action] are kept, with their values unchanged and
    listed in this order whatever their order in the document; every other
    field of the rule (a [separator] or [modulus], say) is left out. *)
Theorem relabel_rules_kept_fields (configs : list dict) :
  _convert_relabel_configs (VList (map VDict configs))
  = Ok (map (fun config => VDict (kept_fields config)) configs).
Proof.
  unfold _convert_relabel_configs. cbn [py_iter bind].
  induction configs as [|config configs IH]; [reflexivity|].
  cbn [map mapM]. rewrite relabel_rule_kept, IH. reflexivity.
Qed.

Lemma structured_stage (d : dict) (v : value) :
  _convert_stage_to_dict (VDict d) = Ok v ->
  if structured (VDict d) then
    exists kind rest, first_kind (VDict d) = Some kind /\ v = typed_stage kind rest
  else v = VNull.
Proof.
  unfold _convert_stage_to_dict, structured, first_kind, structured_kinds, typed_stage.
  rewrite !py_in_has_key. cbn [bind existsb find orb].
  destruct (has_key "regex" (VDict d)).
  { cbn [orb]. unfold bind. destruct (py_getitem (VDict d) "regex") as [r|]; [|discriminate].
    destruct (py_getitem r "expression"); [|discriminate].
    intros [= <-]. eexists "regex", _. split; reflexivity. }
  destruct (has_key "json" (VDict d)).
  { cbn [orb]. unfold bind. destruct (py_getitem (VDict d) "json") as [j|]; [|discriminate].
    destruct (py_get j "expressions" _); [|discriminate].
    destruct (py_get j "source" _); [|discriminate].
    intros [= <-]. eexists "json", _. split; reflexivity. }
  destruct (has_key "labels" (VDict d)).
  { cbn [orb]. unfold bind. destruct (py_getitem (VDict d) "labels"); [|discriminate].
    intros [= <-]. eexists "labels", _. split; reflexivity. }
  destruct (has_key "output" (VDict d)).
  { cbn [orb]. unfold bind. destruct (py_getitem (VDict d) "output") as [o|]; [|discriminate].
    destruct (py_getitem o "source"); [|discriminate].
    intros [= <-]. eexists "output", _. split; reflexivity. }
  destruct (has_key "template" (VDict d)).
  { cbn [orb]. unfold bind. destruct (py_getitem (VDict d) "template") as [t|]; [|discriminate].
    destruct (py_getitem t "source"); [|discriminate].
    destruct (py_getitem t "template"); [|discriminate].
    intros [= <-]. eexists "template", _. split; reflexivity. }
  cbn [orb]. destruct (has_key "match" (VDict d)); [now intros [= <-]|].
  destruct (has_key "metrics" (VDict d)); now intros [= <-].
Qed.

Lemma typed_stage_lines indent_str kind rest :
  format_stage indent_str (typed_stage kind rest) = stage_lines indent_str kind rest.
Proof. reflexivity. Qed.

(** X16.  The structured translation, used for the processing component
    of a journal job, keeps exactly the steps that hold one of the kinds
    regex, json, labels, output, template, in their order.  Each kept step
    becomes a mapping that opens with the type [stage.<kind>] of the first
    of these kinds the step holds, and the formatter writes it as a block
    [stage.<kind> {] ... [}] followed by an empty line. *)
Theorem structured_stages (items : list dict) (out : list value) :
  _convert_pipeline_stages_for_process (VList (map VDict items)) = Ok out ->
  Forall2 (fun d stage =>
             exists kind rest,
               first_kind (VDict d) = Some kind /\
               stage = typed_stage kind rest /\
               forall indent_str,
                 format_stage indent_str stage = stage_lines indent_str kind rest)
          (filter (fun d => structured (VDict d)) items) out.
Proof.
  rewrite for_process_list. unfold bind.
  destruct (mapM _convert_stage_to_dict (map VDict items)) as [converted|] eqn:Hm;
    [|discriminate].
  intros [= <-]. revert converted Hm.
  induction items as [|d items IH]; intros converted Hm.
  - injection Hm as <-. constructor.
  - cbn [map mapM] in Hm. unfold bind in Hm.
    destruct (_convert_stage_to_dict (VDict d)) as [v|] eqn:Hv; [|discriminate].
    destruct (mapM _convert_stage_to_dict (map VDict items)) as [vs|]; [|discriminate].
    injection Hm as <-. apply structured_stage in Hv. cbn [filter].
    destruct (structured (VDict d)).
    + destruct Hv as (kind & rest & Hk & ->). cbn [py_truth typed_stage].
      constructor; [|now apply IH].
      exists kind, rest. split; [exact Hk|]. split; [reflexivity|].
      intros indent_str. apply typed_stage_lines.
    + subst v. cbn [py_truth]. now apply IH.
Qed.

Lemma structured_stages_witness :
  Forall2 (fun d stage =>
             exists kind rest,
               first_kind (VDict d) = Some kind /\
               stage = typed_stage kind rest /\
               forall indent_str,
                 format_stage indent_str stage = stage_lines indent_str kind rest)
          [[(KStr "regex", VDict [(KStr "expression", VStr "e")])]]
          [VDict [(KStr "type", VStr "stage.regex"); (KStr "expression", VStr "e")]].
Proof.
  exact (structured_stages three_steps _ eq_refl).
Defined.

(** X17.  A step that holds none of the kinds regex, json, labels, output,
    template leaves no trace in the structured translation: the translated
    list is that of the pipeline without the step.  This holds for match
    and metrics steps and for steps of kinds the translator does not know
    (timestamp, drop, ...).  The inline translation, used for file sources,
    differs: there a step of one of its seven kinds always gives a
    non-empty text. *)
Theorem unstructured_stage_dropped (d : dict) (before after : list value) :
  structured (VDict d) = false ->
  _convert_pipeline_stages_for_process (VList (extend before (VDict d :: after)))
  = _convert_pipeline_stages_for_process (VList (extend before after)) /\
  (recognised (VDict d) = true ->
   forall text, _convert_single_stage (VDict d) = Ok text -> nonempty text = true).
Proof.
  intros Hs. split.
  - rewrite !for_process_list. unfold extend. rewrite !mapM_app. unfold bind.
    destruct (mapM _convert_stage_to_dict before) as [bs|]; [|reflexivity].
    cbn [mapM]. unfold bind.
    destruct (_convert_stage_to_dict (VDict d)) as [v|] eqn:Hv.
    + apply structured_stage in Hv. rewrite Hs in Hv. subst v.
      destruct (mapM _convert_stage_to_dict after) as [cs|]; [|reflexivity].
      rewrite !filter_app. reflexivity.
    + exfalso. revert Hv. clear -Hs.
      unfold _convert_stage_to_dict, structured, structured_kinds in *.
      rewrite !py_in_has_key. cbn [existsb] in Hs.
      destruct (has_key "regex" (VDict d)); [discriminate|].
      destruct (has_key "json" (VDict d)); [discriminate|].
      destruct (has_key "labels" (VDict d)); [discriminate|].
      destruct (has_key "output" (VDict d)); [discriminate|].
      destruct (has_key "template" (VDict d)); [discriminate|].
      cbn [bind]. destruct (has_key "match" (VDict d)); [discriminate|].
      destruct (has_key "metrics" (VDict d)); discriminate.
  - intros Hr text Ht. apply single_nonempty in Ht. now rewrite Ht.
Qed.

Lemma unstructured_stage_dropped_witness :
  _convert_pipeline_stages_for_process
    (VList [regex_stage;
            VDict [(KStr "match", VDict [(KStr "selector", VStr "{app=x}")])];
            regex_stage])
  = _convert_pipeline_stages_for_process (VList [regex_stage; regex_stage]).
Proof.
  exact (proj1 (unstructured_stage_dropped
                  [(KStr "match", VDict [(KStr "selector", VStr "{app=x}")])]
                  [regex_stage] [regex_stage] eq_refl)).
Defined.

Lemma filter_nonempty_recognised items : forall converted,
  mapM _convert_single_stage items = Ok converted ->
  match filter nonempty converted with
  | [] => existsb recognised items = false
  | _ :: _ => existsb recognised items = true
  end.
Proof.
  induction items as [|item items IH]; intros converted H.
  - now injection H as <-.
  - cbn [mapM] in H. unfold bind in H.
    destruct (_convert_single_stage item) as [text|] eqn:Et; [|discriminate].
    destruct (mapM _convert_single_stage items) as [texts|]; [|discriminate].
    injection H as <-. apply single_nonempty in Et. specialize (IH texts eq_refl).
    cbn [filter existsb]. rewrite <- Et.
    destruct (nonempty text); [reflexivity|].
    destruct (filter nonempty texts); exact IH.
Qed.

(** X18.  The inline pipeline text of a list of steps is empty exactly
    when no step holds one of the seven kinds the inline translation
    knows; otherwise it opens with [stage.].  A file source therefore
    carries a [stages] attribute exactly when its job has a step of a known
    kind. *)
Theorem inline_pipeline_empty (items : list value) (text : string) :
  _convert_pipeline_stages (VList items) = Ok text ->
  nonempty text = existsb recognised items /\
  (nonempty text = true -> exists rest, text = "stage." ++ rest).
Proof.
  unfold _convert_pipeline_stages. destruct items as [|item items].
  - intros [= <-]. split; [reflexivity | discriminate].
  - cbn [py_truth negb py_iter bind].
    destruct (mapM _convert_single_stage (item :: items)) as [converted|] eqn:Hm;
      [|discriminate].
    apply filter_nonempty_recognised in Hm. cbn [bind].
    destruct (filter nonempty converted) as [|t ts]; intros [= <-]; rewrite Hm.
    + split; [reflexivity | discriminate].
    + split; [reflexivity | intros _; eexists; reflexivity].
Qed.

Lemma inline_pipeline_empty_witness :
  nonempty EmptyString
  = existsb recognised [VDict [(KStr "timestamp", VDict [(KStr "source", VStr "ts")])]].
Proof.
  exact (proj1 (inline_pipeline_empty
                  [VDict [(KStr "timestamp", VDict [(KStr "source", VStr "ts")])]]
                  EmptyString eq_refl)).
Defined.

End Stages.

(** ** The sinks among the built components *)

Module Sinks.
Import Py PyFacts PromtailToAlloyMigrator Notions BuilderNotions BuilderFacts GraphBuilder.

Lemma sink_components_are_sinks (cs : list component) (i n : nat) :
  map kind_id cs = map (fun k => ("loki.write", VStr (client_id k))) (seq i n) ->
  filter is_sink cs = cs /\ length cs = n.
Proof.
  revert i n. induction cs as [|c cs IH]; intros i n H.
  - destruct n; [now split | discriminate H].
  - destruct n as [|n]; [discriminate H|]. cbn [map seq] in H.
    injection H as Ht _ Hrest. destruct (IH _ _ Hrest) as [Hf Hl].
    cbn [filter length]. unfold is_sink at 1. rewrite Ht. cbn [String.eqb].
    simpl. now rewrite Hf, Hl.
Qed.

Lemma job_components_no_sink config cs :
  job_components config = Ok cs -> filter is_sink cs = [].
Proof.
  intros H. apply job_components_kinds in H as [_ Hk].
  induction cs as [|c cs IH]; [reflexivity|].
  cbn [filter]. assert (Hc : job_kind (c_type c)).
  { apply (Hk (kind_id c)). now left. }
  unfold is_sink at 1.
  destruct Hc as [-> | [-> | [-> | [-> | -> ]]]]; simpl;
    apply IH; intros x Hx; apply Hk; now right.
Qed.

(** X19.  The builder makes one [loki.write] component for each sink of
    the document and no other, so the sink [default], to which every file
    source and processing component forwards, is among the built
    components exactly when the document lists at least one sink. *)
Theorem default_sink_present (config : value) (comps : list component)
    (sinks : list value) :
  run_build config = Ok comps ->
  sinks_of config = Ok sinks ->
  length (filter is_sink comps) = length sinks /\
  ((exists c, In c comps /\ kind_id c = ("loki.write", VStr "default")) <-> sinks <> []).
Proof.
  rewrite run_build_eq. unfold document_components, bind.
  destruct (clients_components config) as [cs|] eqn:Ec; [|discriminate].
  destruct (jobs_components config) as [jobs|] eqn:Ej; [|discriminate].
  intros [= <-] Hs.
  rewrite clients_components_sinks, Hs in Ec. cbn [bind] in Ec.
  apply sink_kinds in Ec.
  destruct (sink_components_are_sinks _ _ _ Ec) as [Hf Hl].
  assert (Hjobs : filter is_sink (concat jobs) = []).
  { unfold jobs_components, bind in Ej.
    destruct (py_get config "scrape_configs" _) as [sc|]; [|discriminate].
    destruct (py_iter sc) as [items|]; [|discriminate].
    revert jobs Ej. induction items as [|job items IH]; intros jobs Ej.
    - now injection Ej as <-.
    - cbn [mapM] in Ej. unfold bind in Ej.
      destruct (job_components job) as [jc|] eqn:Ejc; [|discriminate].
      destruct (mapM job_components items) as [js|]; [|discriminate].
      injection Ej as <-. cbn [concat]. rewrite filter_app.
      now rewrite (job_components_no_sink _ _ Ejc), (IH js eq_refl). }
  split.
  - now rewrite filter_app, Hf, Hjobs, app_nil_r.
  - split.
    + intros (c & Hin & Hk) ->. destruct cs; [|discriminate Hl].
      cbn [app] in Hin.
      assert (Hc : In c (filter is_sink (concat jobs))).
      { apply filter_In. split; [exact Hin|].
        unfold kind_id in Hk. injection Hk as Ht _. unfold is_sink. now rewrite Ht. }
      now rewrite Hjobs in Hc.
    + intros Hne. destruct sinks as [|s sinks]; [contradiction|].
      destruct cs as [|c cs]; [discriminate Hl|].
      exists c. split; [now left|]. cbn [map seq length] in Ec.
      injection Ec as Ht Hi _. unfold kind_id. now rewrite Ht, Hi.
Qed.

Lemma default_sink_present_witness :
  length (filter is_sink one_static_job_components) = 1 /\
  ((exists c, In c one_static_job_components /\ kind_id c = ("loki.write", VStr "default"))
   <-> [VDict [(KStr "url", VStr "http://sink/loki/api/v1/push")]] <> []).
Proof.
  exact (default_sink_present one_static_job one_static_job_components
           [VDict [(KStr "url", VStr "http://sink/loki/api/v1/push")]]
           one_static_job_build eq_refl).
Defined.

End Sinks.
